(** * llm-gateway: key selection, request routing and the job queue

    A shallow embedding of the gateway's core
    (src/services/key-manager.ts, src/services/router.ts,
    src/utils/redis.ts, src/queue/worker.ts, src/queue/jobs.ts and
    src/providers/*.ts), followed by the properties stated about it.

    Conventions of the embedding:
    - JavaScript numbers that hold integers (priorities, counters, quota,
      timestamps in milliseconds) are [Z]; the few places where the source
      computes with [Infinity] use the type [number] below.  The two
      numbers of the retry configuration are rationals [Q]: the schema of
      the configuration ([z.coerce.number()]) takes fractions and
      negative numbers as well.
    - Strings are [string]; [===] on strings is [String.eqb].
    - The key table is the list of its rows; the Redis keyspace is a
      [gmap string Redis.entry]; a JavaScript [Set<string>] is a
      [gset string].
    - An [async] function that touches the stores is a function from the
      store to a result and a new store; a thrown exception is the [Err]
      case of [result].
    - Time is what passes between two calls, in milliseconds: it moves
      the router's clock and runs down the times to live in Redis.  A
      provider call takes the time its oracle says and a sleep the time
      its timer runs; everything else takes none.
    - [route] is a call running alone on its stores.  What other
      requests do while a call awaits is told by running the steps of
      several calls in turn ([before_chat], [after_chat]). *)

From Stdlib Require Import ZArith Lia Bool List String Ascii Permutation Sorted.
From Stdlib Require Import QArith Qround Lqa.
From Stdlib Require DecimalString.
From stdpp Require Import gmap strings.
Import ListNotations.

Local Open Scope Z_scope.
Local Open Scope string_scope.

(* ====================================================================== *)
(** ** JavaScript strings *)
(* ====================================================================== *)

Module Js.

(** [m.startsWith(p)]. *)
Fixpoint startsWith (m p : string) : bool :=
  match p with
  | EmptyString => true
  | String c p' =>
      match m with
      | EmptyString => false
      | String d m' => Ascii.eqb d c && startsWith m' p'
      end
  end.

(** [s.endsWith(c)] for a one-character [c]. *)
Fixpoint endsWithChar (s : string) (c : ascii) : bool :=
  match s with
  | EmptyString => false
  | String d EmptyString => Ascii.eqb d c
  | String _ s' => endsWithChar s' c
  end.

(** [s.slice(0, -1)]: all but the last character. *)
Fixpoint slice_0_m1 (s : string) : string :=
  match s with
  | EmptyString => EmptyString
  | String _ EmptyString => EmptyString
  | String d s' => String d (slice_0_m1 s')
  end.

(** [s.includes(c)] for a one-character [c]. *)
Fixpoint includesChar (s : string) (c : ascii) : bool :=
  match s with
  | EmptyString => false
  | String d s' => Ascii.eqb d c || includesChar s' c
  end.

(** [s.includes(t)]: [t] occurs in [s] at some position. *)
Fixpoint includes (s t : string) : bool :=
  startsWith s t ||
  match s with
  | EmptyString => false
  | String _ s' => includes s' t
  end.

(** [s.replace(c, r)] with a string pattern: only the FIRST occurrence of
    the one-character pattern [c] is replaced. *)
Fixpoint replaceFirstChar (s : string) (c : ascii) (r : string) : string :=
  match s with
  | EmptyString => EmptyString
  | String d s' =>
      if Ascii.eqb d c then r +:+ s' else String d (replaceFirstChar s' c r)
  end.

(** [s.toLowerCase()] on a string of ASCII characters: the letters A to
    Z are the only ones it changes.  What it does to other characters
    (the case tables of Unicode) is not modelled: [ascii_only] marks the
    strings on which [toLowerCase] below is the function of the
    source. *)
Definition ascii_only (s : string) : bool :=
  List.forallb (fun c => Nat.ltb (nat_of_ascii c) 128) (list_ascii_of_string s).

Definition lower_ascii (c : ascii) : ascii :=
  let n := nat_of_ascii c in
  if (Nat.leb 65 n && Nat.leb n 90)%bool then ascii_of_nat (n + 32) else c.

Fixpoint toLowerCase (s : string) : string :=
  match s with
  | EmptyString => EmptyString
  | String c s' => String (lower_ascii c) (toLowerCase s')
  end.

(** [s.split(c)[0]]: the part of [s] before the first [c]. *)
Fixpoint split_first (s : string) (c : ascii) : string :=
  match s with
  | EmptyString => EmptyString
  | String d s' => if Ascii.eqb d c then EmptyString else String d (split_first s' c)
  end.

(** Truthiness of an optional string: [undefined] and [""] are falsy. *)
Definition truthy (o : option string) : option string :=
  match o with
  | Some EmptyString => None
  | Some s => Some s
  | None => None
  end.

(** JavaScript numbers as far as the source needs them: integers, the
    two infinities and NaN. *)
Inductive number : Type :=
| Fin (z : Z)
| PosInf
| NegInf
| NaN.

(** [a - b]. *)
Definition sub (a b : number) : number :=
  match a, b with
  | NaN, _ | _, NaN => NaN
  | Fin x, Fin y => Fin (x - y)
  | Fin _, PosInf => NegInf
  | Fin _, NegInf => PosInf
  | PosInf, PosInf => NaN
  | PosInf, _ => PosInf
  | NegInf, NegInf => NaN
  | NegInf, _ => NegInf
  end.

(** How [Array.prototype.sort] reads a comparator's result [v]: a NaN is
    taken as [+0]; [v < 0] puts the first argument first, [v > 0] the
    second. *)
Definition sign (v : number) : comparison :=
  match v with
  | Fin z => Z.compare z 0
  | PosInf => Gt
  | NegInf => Lt
  | NaN => Eq
  end.

(** An integer in a template literal: its decimal digits, with a minus
    sign when negative. *)
Definition number_to_string (z : Z) : string :=
  DecimalString.NilZero.string_of_int (Z.to_int z).

(** [a < b] and [a <= b] on numbers; both are false when a NaN is
    involved. *)
Definition lt (a b : number) : Prop :=
  match a, b with
  | Fin x, Fin y => (x < y)%Z
  | Fin _, PosInf | NegInf, Fin _ | NegInf, PosInf => True
  | _, _ => False
  end.

Definition le (a b : number) : Prop :=
  match a, b with
  | Fin x, Fin y => (x <= y)%Z
  | Fin _, PosInf | NegInf, Fin _ | NegInf, PosInf => True
  | PosInf, PosInf | NegInf, NegInf => True
  | _, _ => False
  end.

(** [a < b] on two finite numbers that need not be integers. *)
Definition ltQ (a b : Q) : bool := negb (Qle_bool b a).

(** The longest delay of a timer, [2^31 - 1] ms. *)
Definition TIMEOUT_MAX : Z := 2147483647.

(** The time a timer set by [setTimeout(f, ms)] runs, in milliseconds.
    Node.js: a delay larger than 2147483647 or less than 1 is set to 1,
    and a delay that is not an integer is truncated to one.  (A product
    too large for a JavaScript number is [Infinity] there and a large
    rational here; the timer runs 1 ms either way.) *)
Definition setTimeout_delay (ms : Q) : Z :=
  if Qle_bool 1 ms && Qle_bool ms (inject_Z TIMEOUT_MAX) then Qfloor ms else 1.

Section Sort.
Context {A : Type}.

(** A stable insertion sort over a three-way comparison: the head of the
    list is the earlier element and goes in front of everything it does
    not compare greater than, so elements that compare equal keep their
    relative order. *)
Fixpoint sort_insert (cmp : A -> A -> comparison) (x : A) (l : list A) : list A :=
  match l with
  | [] => [x]
  | y :: l' =>
      match cmp x y with
      | Gt => y :: sort_insert cmp x l'
      | _ => x :: y :: l'
      end
  end.

Fixpoint stable_sort (cmp : A -> A -> comparison) (l : list A) : list A :=
  match l with
  | [] => []
  | x :: l' => sort_insert cmp x (stable_sort cmp l')
  end.

(** [Array.prototype.sort(comparefn)] is a stable sort (ECMAScript
    2019). *)
Definition sort (comparefn : A -> A -> number) (l : list A) : list A :=
  stable_sort (fun a b => sign (comparefn a b)) l.

(** [arr[i]] for a number [i]: [undefined] outside the array. *)
Definition index (arr : list A) (i : number) : option A :=
  match i with
  | Fin z => if Z.ltb z 0 then None else nth_error arr (Z.to_nat z)
  | _ => None
  end.
End Sort.

End Js.

(* ====================================================================== *)
(** ** Data model (src/types/index.ts) *)
(* ====================================================================== *)

(** Providers are strings at run time; ['auto'] is the sentinel of
    [Provider]. *)
Definition Provider := string.
Definition auto : Provider := "auto".

(** A [Date] is its time value, milliseconds since the epoch. *)
Definition Date := Z.

(** A row of [llm_api_keys]; [ApiKeyInfo] is its view in the code. *)
Record ApiKeyInfo : Type := mkKey {
  id : string;
  provider : Provider;
  apiKey : string;
  name : option string;
  priority : Z;
  enabled : bool;
  allowedModels : list string;
  defaultModel : string;
  dailyLimit : option Z;
  usedToday : Z;
  resetDate : Date;
  lastUsedAt : option Date
}.

Record KeySelectionResult : Type := mkSelection {
  key : ApiKeyInfo;
  resolvedModel : string
}.

Inductive KeySelectionStrategy : Type :=
| ExhaustFirst
| RoundRobin.

Record RoutingContext : Type := mkContext {
  requestedModel : option string;
  requestedProvider : Provider;
  allowedProviders : option (list string);
  allowedPriorities : option (list Z)
}.

(** [LLMGatewayError] and its subclasses differ in [code], [statusCode]
    and message only; any other thrown value is [OtherError]. *)
Record LLMGatewayError : Type := mkGatewayError {
  message : string;
  code : string;
  statusCode : Z
}.

Inductive Error : Type :=
| GatewayError (e : LLMGatewayError)
| OtherError (msg : string).

Definition error_message (e : Error) : string :=
  match e with
  | GatewayError g => message g
  | OtherError m => m
  end.

Definition NoEligibleKeyError (model : option string) (prov : option string) : LLMGatewayError :=
  {| message :=
       "No eligible API key found"
       +:+ match Js.truthy model with Some m => " for model: " +:+ m | None => EmptyString end
       +:+ match Js.truthy prov with Some p => " with provider: " +:+ p | None => EmptyString end;
     code := "NO_ELIGIBLE_KEY";
     statusCode := 429 |}.

Definition ProviderError (prov msg : string) (status : Z) : LLMGatewayError :=
  {| message := "Provider " +:+ prov +:+ " error: " +:+ msg;
     code := "PROVIDER_ERROR";
     statusCode := status |}.

Definition ModelNotSupportedError (model prov : string) : LLMGatewayError :=
  {| message := "Model " +:+ model +:+ " is not supported by provider " +:+ prov;
     code := "MODEL_NOT_SUPPORTED";
     statusCode := 400 |}.

Inductive result (A : Type) : Type :=
| Ok (a : A)
| Err (e : Error).
Arguments Ok {A} a.
Arguments Err {A} e.

(* ====================================================================== *)
(** ** The key table (Prisma client, table [llm_api_keys]) *)
(* ====================================================================== *)

Module Prisma.

(** The condition on [provider] in a [where] object. *)
Inductive provider_cond : Type :=
| ProviderIn (l : list string)
| ProviderIs (p : string).

(** A [where] object over the three columns the key manager filters on; an
    absent property is [None]. *)
Record KeyWhere : Type := mkWhere {
  where_enabled : option bool;
  where_provider : option provider_cond;
  where_priority : option (list Z)
}.

Definition in_strings (s : string) (l : list string) : bool :=
  List.existsb (String.eqb s) l.

Definition in_numbers (z : Z) (l : list Z) : bool :=
  List.existsb (Z.eqb z) l.

Definition matches (w : KeyWhere) (k : ApiKeyInfo) : bool :=
  match where_enabled w with Some b => Bool.eqb (enabled k) b | None => true end
  && match where_provider w with
     | Some (ProviderIn l) => in_strings (provider k) l
     | Some (ProviderIs p) => String.eqb (provider k) p
     | None => true
     end
  && match where_priority w with Some l => in_numbers (priority k) l | None => true end.

(** [orderBy: [{ priority: 'asc' }, { usedToday: 'asc' }]]. *)
Definition by_priority_usedToday (a b : ApiKeyInfo) : comparison :=
  match Z.compare (priority a) (priority b) with
  | Eq => Z.compare (usedToday a) (usedToday b)
  | c => c
  end.

(** [findMany({ where, orderBy })].  Rows that the ordering does not
    separate come in table order. *)
Definition findMany (w : KeyWhere) (table : list ApiKeyInfo) : list ApiKeyInfo :=
  Js.stable_sort by_priority_usedToday (List.filter (matches w) table).

(** [updateMany({ where: { id: { in: ids } }, data: { usedToday: 0,
    resetDate: today } })]. *)
Definition set_reset (today : Date) (k : ApiKeyInfo) : ApiKeyInfo :=
  {| id := id k; provider := provider k; apiKey := apiKey k; name := name k;
     priority := priority k; enabled := enabled k;
     allowedModels := allowedModels k; defaultModel := defaultModel k;
     dailyLimit := dailyLimit k; usedToday := 0; resetDate := today;
     lastUsedAt := lastUsedAt k |}.

Definition updateMany_reset (ids : list string) (today : Date)
    (table : list ApiKeyInfo) : list ApiKeyInfo :=
  List.map (fun k => if in_strings (id k) ids then set_reset today k else k) table.

(** [update({ where: { id }, data: { usedToday: { increment: 1 },
    lastUsedAt: now } })]. *)
Definition set_used (now : Date) (k : ApiKeyInfo) : ApiKeyInfo :=
  {| id := id k; provider := provider k; apiKey := apiKey k; name := name k;
     priority := priority k; enabled := enabled k;
     allowedModels := allowedModels k; defaultModel := defaultModel k;
     dailyLimit := dailyLimit k; usedToday := usedToday k + 1;
     resetDate := resetDate k; lastUsedAt := Some now |}.

Definition update_increment (keyId : string) (now : Date)
    (table : list ApiKeyInfo) : list ApiKeyInfo :=
  List.map (fun k => if String.eqb (id k) keyId then set_used now k else k) table.

(** [findMany({ where })] without [orderBy]: the matching rows, in table
    order. *)
Definition findMany_where (w : KeyWhere) (table : list ApiKeyInfo) : list ApiKeyInfo :=
  List.filter (matches w) table.

End Prisma.

(* ====================================================================== *)
(** ** Redis helpers (src/utils/redis.ts) *)
(* ====================================================================== *)

Module Redis.

(** A stored integer with the time it has left to live, in milliseconds,
    if it expires at all. *)
Record entry : Type := mkEntry {
  value : Z;
  ttl : option Z
}.

(** Time passing: [ms] milliseconds later every time to live has run
    down by as much, and an entry whose time has run out is gone. *)
Definition age (ms : Z) (e : entry) : option entry :=
  match ttl e with
  | None => Some e
  | Some t => if Z.leb t ms then None else Some {| value := value e; ttl := Some (t - ms) |}
  end.

Definition elapse (ms : Z) (s : gmap string entry) : gmap string entry :=
  omap (age ms) s.

(** [INCR key]: the new value; a missing key counts from 0 and an
    existing one keeps its time to live. *)
Definition incr (k : string) (s : gmap string entry) : Z * gmap string entry :=
  let e := match s !! k with
           | Some e => {| value := value e + 1; ttl := ttl e |}
           | None => {| value := 1; ttl := None |}
           end in
  (value e, <[k := e]> s).

(** [EXPIRE key seconds]. *)
Definition expire (k : string) (seconds : Z) (s : gmap string entry) : gmap string entry :=
  match s !! k with
  | Some e => <[k := {| value := value e; ttl := Some (seconds * 1000) |}]> s
  | None => s
  end.

Definition KEY_PREFIX : string := "llm-gateway".

Definition roundRobinIndex (prov : string) (prio : Z) : string :=
  KEY_PREFIX +:+ ":rr:" +:+ prov +:+ ":" +:+ Js.number_to_string prio.

(** [a % b] on integers: the sign follows the dividend, and [x % 0] is
    NaN. *)
Definition js_rem (a b : Z) : Js.number :=
  if Z.eqb b 0 then Js.NaN else Js.Fin (Z.rem a b).

Definition getNextRoundRobinIndex (prov : string) (prio : Z) (totalKeys : Z)
    (s : gmap string entry) : Js.number * gmap string entry :=
  let k := roundRobinIndex prov prio in
  let '(current, s1) := incr k s in
  let s2 := expire k 3600 s1 in
  (js_rem (current - 1) totalKeys, s2).

(** [SET key value PX ms NX]: the key is set, with [ms] milliseconds to
    live, only when it is absent; the reply is OK then and nil
    otherwise.  A time to live that is not positive is an error. *)
Definition set_px_nx (k : string) (v : Z) (ms : Z) (s : gmap string entry)
  : result bool * gmap string entry :=
  if Z.leb ms 0
  then (Err (OtherError "ERR invalid expire time in 'set' command"), s)
  else match s !! k with
       | Some _ => (Ok false, s)
       | None => (Ok true, <[k := {| value := v; ttl := Some ms |}]> s)
       end.

(** [DEL key]. *)
Definition del (k : string) (s : gmap string entry) : gmap string entry :=
  delete k s.

Definition keyLock (keyId : string) : string :=
  KEY_PREFIX +:+ ":lock:" +:+ keyId.

(** [acquireKeyLock(keyId, ttlMs = 5000)]: whether the reply was OK. *)
Definition acquireKeyLock (keyId : string) (ttlMs : option Z) (s : gmap string entry)
  : result bool * gmap string entry :=
  let ttlMs := match ttlMs with Some t => t | None => 5000 end in
  set_px_nx (keyLock keyId) 1 ttlMs s.

(** [releaseKeyLock(keyId)]. *)
Definition releaseKeyLock (keyId : string) (s : gmap string entry) : gmap string entry :=
  del (keyLock keyId) s.

End Redis.

(* ====================================================================== *)
(** ** Key manager (src/services/key-manager.ts) *)
(* ====================================================================== *)

(** The two stores the key manager reads and writes. *)
Record Stores : Type := mkStores {
  keys_table : list ApiKeyInfo;
  redis : gmap string Redis.entry
}.

Module KeyManager.

(** The [where] object of [selectKey].  It is built by three object
    spreads in this order, so the [provider] property written by the
    last one (a requested provider other than ['auto']) replaces the one
    written by the first (the allowed providers). *)
Definition whereConditions (context : RoutingContext) : Prisma.KeyWhere :=
  let w0 := {| Prisma.where_enabled := Some true;
               Prisma.where_provider := None;
               Prisma.where_priority := None |} in
  let w1 := match allowedProviders context with
            | Some (p :: l) =>
                {| Prisma.where_enabled := Prisma.where_enabled w0;
                   Prisma.where_provider := Some (Prisma.ProviderIn (p :: l));
                   Prisma.where_priority := Prisma.where_priority w0 |}
            | _ => w0
            end in
  let w2 := match allowedPriorities context with
            | Some (p :: l) =>
                {| Prisma.where_enabled := Prisma.where_enabled w1;
                   Prisma.where_provider := Prisma.where_provider w1;
                   Prisma.where_priority := Some (p :: l) |}
            | _ => w1
            end in
  if String.eqb (requestedProvider context) auto then w2
  else {| Prisma.where_enabled := Prisma.where_enabled w2;
          Prisma.where_provider := Some (Prisma.ProviderIs (requestedProvider context));
          Prisma.where_priority := Prisma.where_priority w2 |}.

(** [key.resetDate < today]. *)
Definition stale (today : Date) (k : ApiKeyInfo) : bool :=
  Z.ltb (resetDate k) today.

(** [resetDailyUsageIfNeeded]: the keys as they are after the reset, and
    the table after the batch update (issued only when some key is
    stale). *)
Definition resetDailyUsageIfNeeded (keys : list ApiKeyInfo) (today : Date)
    (table : list ApiKeyInfo) : list ApiKeyInfo * list ApiKeyInfo :=
  let keysToReset := List.map id (List.filter (stale today) keys) in
  let updatedKeys :=
    List.map (fun k => if stale today k then Prisma.set_reset today k else k) keys in
  match keysToReset with
  | [] => (updatedKeys, table)
  | _ :: _ => (updatedKeys, Prisma.updateMany_reset keysToReset today table)
  end.

(** The quota check of [filterEligibleKeys]: [false] when
    [dailyLimit !== null && usedToday >= dailyLimit]. *)
Definition has_quota (k : ApiKeyInfo) : bool :=
  match dailyLimit k with
  | Some d => negb (Z.geb (usedToday k) d)
  | None => true
  end.

(** One entry of [allowedModels] against the requested model. *)
Definition allowed_entry (requestedModel allowed : string) : bool :=
  String.eqb allowed requestedModel
  || String.eqb allowed "*"
  || (Js.endsWithChar allowed "*"
      && Js.startsWith requestedModel (Js.slice_0_m1 allowed)).

Definition isAllowed (k : ApiKeyInfo) (requestedModel : string) : bool :=
  match allowedModels k with
  | [] => true
  | _ :: _ => List.existsb (allowed_entry requestedModel) (allowedModels k)
  end.

(** The predicate passed to [keys.filter] in [filterEligibleKeys]. *)
Definition eligible (requestedModel : option string) (k : ApiKeyInfo) : bool :=
  if negb (has_quota k) then false
  else match Js.truthy requestedModel with
       | Some m => if negb (isAllowed k m) then false else true
       | None => true
       end.

Definition filterEligibleKeys (keys : list ApiKeyInfo)
    (requestedModel : option string) : list ApiKeyInfo :=
  List.filter (eligible requestedModel) keys.

(** [grouped.get(p) || []], [push], [grouped.set(p, ...)] on a [Map]
    kept as the list of its entries in insertion order. *)
Fixpoint map_push (p : Z) (k : ApiKeyInfo) (grouped : list (Z * list ApiKeyInfo))
  : list (Z * list ApiKeyInfo) :=
  match grouped with
  | [] => [(p, [k])]
  | (q, ks) :: rest =>
      if Z.eqb q p then (q, (ks ++ [k])%list) :: rest else (q, ks) :: map_push p k rest
  end.

Definition groupKeysByPriority (keys : list ApiKeyInfo) : list (Z * list ApiKeyInfo) :=
  let grouped := List.fold_left (fun g k => map_push (priority k) k g) keys [] in
  Js.sort (fun a b => Js.Fin (fst a - fst b)) grouped.

(** Remaining quota as [selectExhaustFirst] computes it. *)
Definition remaining (k : ApiKeyInfo) : Js.number :=
  match dailyLimit k with
  | None => Js.PosInf
  | Some d => Js.Fin (d - usedToday k)
  end.

(** [selectExhaustFirst]: [sorted[0]] of the keys sorted by remaining
    quota, descending. *)
Definition selectExhaustFirst (keys : list ApiKeyInfo) : option ApiKeyInfo :=
  let sorted := Js.sort (fun a b => Js.sub (remaining b) (remaining a)) keys in
  Js.index sorted (Js.Fin 0).

(** [selectRoundRobin].  It reads [keys[0]], so it is only called on a
    non-empty group; [selectKeyFromGroup] sees to that. *)
Definition selectRoundRobin (keys : list ApiKeyInfo) (prio : Z)
    (s : gmap string Redis.entry) : option ApiKeyInfo * gmap string Redis.entry :=
  match keys with
  | [] => (None, s)
  | k0 :: _ =>
      let '(index, s') :=
        Redis.getNextRoundRobinIndex (provider k0) prio (Z.of_nat (List.length keys)) s in
      (Js.index keys index, s')
  end.

Definition selectKeyFromGroup (keys : list ApiKeyInfo) (prio : Z)
    (strategy : KeySelectionStrategy) (s : gmap string Redis.entry)
  : option ApiKeyInfo * gmap string Redis.entry :=
  match keys with
  | [] => (None, s)
  | _ :: _ =>
      match strategy with
      | ExhaustFirst => (selectExhaustFirst keys, s)
      | RoundRobin => selectRoundRobin keys prio s
      end
  end.

(** The [for ... of keysByPriority] loop of [selectKey]: the first group
    that yields a key ends it. *)
Fixpoint select_from_groups (strategy : KeySelectionStrategy)
    (groups : list (Z * list ApiKeyInfo)) (s : gmap string Redis.entry)
  : option ApiKeyInfo * gmap string Redis.entry :=
  match groups with
  | [] => (None, s)
  | (prio, priorityKeys) :: rest =>
      match selectKeyFromGroup priorityKeys prio strategy s with
      | (Some selectedKey, s') => (Some selectedKey, s')
      | (None, s') => select_from_groups strategy rest s'
      end
  end.

Definition no_eligible_key (context : RoutingContext) : Error :=
  GatewayError
    (NoEligibleKeyError (requestedModel context) (Some (requestedProvider context))).

(** [selectKey], with [today] the local midnight read at entry. *)
Definition selectKey (strategy : KeySelectionStrategy) (context : RoutingContext)
    (today : Date) (st : Stores) : result KeySelectionResult * Stores :=
  let keys := Prisma.findMany (whereConditions context) (keys_table st) in
  match keys with
  | [] => (Err (no_eligible_key context), st)
  | _ :: _ =>
      let '(keysWithResetUsage, table') :=
        resetDailyUsageIfNeeded keys today (keys_table st) in
      let st1 := {| keys_table := table'; redis := redis st |} in
      let eligibleKeys := filterEligibleKeys keysWithResetUsage (requestedModel context) in
      match eligibleKeys with
      | [] => (Err (no_eligible_key context), st1)
      | _ :: _ =>
          let keysByPriority := groupKeysByPriority eligibleKeys in
          match select_from_groups strategy keysByPriority (redis st1) with
          | (Some selectedKey, r') =>
              let resolved := match Js.truthy (requestedModel context) with
                              | Some m => m
                              | None => defaultModel selectedKey
                              end in
              (Ok {| key := selectedKey; resolvedModel := resolved |},
               {| keys_table := table'; redis := r' |})
          | (None, r') =>
              (Err (no_eligible_key context), {| keys_table := table'; redis := r' |})
          end
      end
  end.

(** [incrementUsage]. *)
Definition incrementUsage (keyId : string) (now : Date) (st : Stores) : Stores :=
  {| keys_table := Prisma.update_increment keyId now (keys_table st);
     redis := redis st |}.

(** [getKeysByProvider]. *)
Definition getKeysByProvider (prov : string) (table : list ApiKeyInfo) : list ApiKeyInfo :=
  Prisma.findMany
    {| Prisma.where_enabled := Some true;
       Prisma.where_provider := Some (Prisma.ProviderIs prov);
       Prisma.where_priority := None |}
    table.

(** One row of [getUsageStats]. *)
Record KeyUsageStat : Type := mkKeyUsageStat {
  stat_id : string;
  stat_provider : Provider;
  stat_name : option string;
  stat_usedToday : Z;
  stat_dailyLimit : option Z;
  remainingQuota : option Z
}.

(** [getUsageStats]. *)
Definition getUsageStats (table : list ApiKeyInfo) : list KeyUsageStat :=
  List.map
    (fun k =>
       {| stat_id := id k; stat_provider := provider k; stat_name := name k;
          stat_usedToday := usedToday k; stat_dailyLimit := dailyLimit k;
          remainingQuota := match dailyLimit k with
                            | None => None
                            | Some d => Some (d - usedToday k)
                            end |})
    (Prisma.findMany_where
       {| Prisma.where_enabled := Some true;
          Prisma.where_provider := None;
          Prisma.where_priority := None |}
       table).

End KeyManager.

(* ====================================================================== *)
(** ** Provider adapters (src/providers) *)
(* ====================================================================== *)

Module Providers.

(** What the router uses of a [ProviderAdapter].  [validateModel] is
    [None] when the call throws. *)
Record ProviderAdapter : Type := mkAdapter {
  adapter_name : string;
  supportedModels : list string;
  validateModel : string -> option bool;
  mapModelName : string -> string
}.

(** [Array.prototype.some] with a callback that may throw: the elements
    are tried in order, the first [true] ends the search and an exception
    ends the call. *)
Fixpoint some {A : Type} (f : A -> option bool) (l : list A) : option bool :=
  match l with
  | [] => Some false
  | x :: l' =>
      match f x with
      | None => None
      | Some true => Some true
      | Some false => some f l'
      end
  end.

(** [modelMap[model] || model] over the entries written in the object
    literal.  The properties an object literal inherits from
    [Object.prototype] (['constructor'], ['toString'], ...) are left
    out: the lookup is the source's for every other name. *)
Fixpoint lookup_alias (modelMap : list (string * string)) (model : string) : string :=
  match modelMap with
  | [] => model
  | (a, full) :: rest => if String.eqb a model then full else lookup_alias rest model
  end.

Definition openai_supportedModels : list string :=
  [
    "gpt-4-turbo"; "gpt-4-turbo-preview"; "gpt-4-turbo-2024-04-09";
    "gpt-4-0125-preview"; "gpt-4-1106-preview"; "gpt-4"; "gpt-4-0613";
    "gpt-4-32k"; "gpt-4-32k-0613"; "gpt-4o"; "gpt-4o-2024-05-13";
    "gpt-4o-2024-08-06"; "gpt-4o-2024-11-20"; "gpt-4o-mini";
    "gpt-4o-mini-2024-07-18"; "o1-preview"; "o1-preview-2024-09-12";
    "o1-mini"; "o1-mini-2024-09-12"; "o1"; "o1-2024-12-17"; "gpt-3.5-turbo";
    "gpt-3.5-turbo-0125"; "gpt-3.5-turbo-1106"; "gpt-3.5-turbo-16k"
  ].

Definition anthropic_supportedModels : list string :=
  [
    "claude-3-5-sonnet-20241022"; "claude-3-5-sonnet-20240620";
    "claude-3-5-haiku-20241022"; "claude-3-opus-20240229";
    "claude-3-sonnet-20240229"; "claude-3-haiku-20240307";
    "claude-3-5-sonnet-latest"; "claude-3-5-haiku-latest";
    "claude-3-opus-latest"
  ].

Definition anthropic_modelMap : list (string * string) :=
  [
    ("claude-3.5-sonnet", "claude-3-5-sonnet-20241022");
    ("claude-3.5-haiku", "claude-3-5-haiku-20241022");
    ("claude-3-opus", "claude-3-opus-20240229");
    ("claude-3-sonnet", "claude-3-sonnet-20240229");
    ("claude-3-haiku", "claude-3-haiku-20240307")
  ].

Definition gemini_supportedModels : list string :=
  [
    "gemini-1.5-pro"; "gemini-1.5-pro-latest"; "gemini-1.5-flash";
    "gemini-1.5-flash-latest"; "gemini-1.5-flash-8b"; "gemini-1.0-pro";
    "gemini-pro"; "gemini-2.0-flash-exp"
  ].

Definition gemini_modelMap : list (string * string) :=
  [
    ("gemini-pro", "gemini-1.0-pro")
  ].

Definition openrouter_supportedModels : list string :=
  [
    "openai/gpt-4-turbo"; "openai/gpt-4o"; "openai/gpt-4o-mini";
    "openai/gpt-3.5-turbo"; "openai/o1-preview"; "openai/o1-mini";
    "anthropic/claude-3.5-sonnet"; "anthropic/claude-3.5-haiku";
    "anthropic/claude-3-opus"; "anthropic/claude-3-sonnet";
    "anthropic/claude-3-haiku"; "google/gemini-pro"; "google/gemini-pro-1.5";
    "google/gemini-flash-1.5"; "meta-llama/llama-3.1-405b-instruct";
    "meta-llama/llama-3.1-70b-instruct"; "meta-llama/llama-3.1-8b-instruct";
    "mistralai/mistral-large"; "mistralai/mistral-medium";
    "mistralai/mixtral-8x7b-instruct"; "deepseek/deepseek-chat";
    "qwen/qwen-2.5-72b-instruct"
  ].

Definition groq_supportedModels : list string :=
  [
    "llama-3.3-70b-versatile"; "llama-3.2-90b-vision-preview";
    "llama-3.2-11b-vision-preview"; "llama-3.2-3b-preview";
    "llama-3.2-1b-preview"; "llama-3.1-70b-versatile";
    "llama-3.1-8b-instant"; "llama3-70b-8192"; "llama3-8b-8192";
    "mixtral-8x7b-32768"; "gemma2-9b-it"; "gemma-7b-it"; "whisper-large-v3";
    "whisper-large-v3-turbo"
  ].

Definition groq_modelMap : list (string * string) :=
  [
    ("llama-3-70b", "llama3-70b-8192"); ("llama-3-8b", "llama3-8b-8192");
    ("llama-3.1-70b", "llama-3.1-70b-versatile");
    ("llama-3.1-8b", "llama-3.1-8b-instant");
    ("mixtral", "mixtral-8x7b-32768")
  ].

Definition fireworks_supportedModels : list string :=
  [
    "accounts/fireworks/models/llama-v3p1-405b-instruct";
    "accounts/fireworks/models/llama-v3p1-70b-instruct";
    "accounts/fireworks/models/llama-v3p1-8b-instruct";
    "accounts/fireworks/models/llama-v3p2-90b-vision-instruct";
    "accounts/fireworks/models/llama-v3p2-11b-vision-instruct";
    "accounts/fireworks/models/llama-v3p2-3b-instruct";
    "accounts/fireworks/models/llama-v3p2-1b-instruct";
    "accounts/fireworks/models/mixtral-8x22b-instruct";
    "accounts/fireworks/models/mixtral-8x7b-instruct";
    "accounts/fireworks/models/qwen2p5-72b-instruct";
    "accounts/fireworks/models/qwen2p5-coder-32b-instruct";
    "accounts/fireworks/models/deepseek-v3";
    "accounts/fireworks/models/deepseek-coder-v2-instruct";
    "accounts/fireworks/models/firefunction-v2";
    "accounts/fireworks/models/firellava-13b"
  ].

Definition fireworks_modelMap : list (string * string) :=
  [
    ("llama-3.1-405b", "accounts/fireworks/models/llama-v3p1-405b-instruct");
    ("llama-3.1-70b", "accounts/fireworks/models/llama-v3p1-70b-instruct");
    ("llama-3.1-8b", "accounts/fireworks/models/llama-v3p1-8b-instruct");
    ("mixtral-8x22b", "accounts/fireworks/models/mixtral-8x22b-instruct");
    ("mixtral-8x7b", "accounts/fireworks/models/mixtral-8x7b-instruct");
    ("qwen-72b", "accounts/fireworks/models/qwen2p5-72b-instruct");
    ("deepseek-v3", "accounts/fireworks/models/deepseek-v3");
    ("firefunction", "accounts/fireworks/models/firefunction-v2")
  ].

Definition mistral_supportedModels : list string :=
  [
    "mistral-large-latest"; "mistral-large-2411"; "mistral-medium-latest";
    "mistral-small-latest"; "mistral-small-2409"; "mistral-large-2407";
    "mistral-medium-2312"; "open-mistral-7b"; "open-mixtral-8x7b";
    "open-mixtral-8x22b"; "codestral-latest"; "codestral-2405";
    "mistral-embed"; "pixtral-12b-2409"; "pixtral-large-latest"
  ].

Definition mistral_modelMap : list (string * string) :=
  [
    ("mistral-large", "mistral-large-latest");
    ("mistral-medium", "mistral-medium-latest");
    ("mistral-small", "mistral-small-latest");
    ("mixtral-8x7b", "open-mixtral-8x7b");
    ("mixtral-8x22b", "open-mixtral-8x22b"); ("codestral", "codestral-latest")
  ].

Definition deepseek_supportedModels : list string :=
  [
    "deepseek-chat"; "deepseek-coder"; "deepseek-reasoner"
  ].

Definition deepseek_modelMap : list (string * string) :=
  [
    ("deepseek", "deepseek-chat"); ("deepseek-v3", "deepseek-chat");
    ("deepseek-code", "deepseek-coder"); ("deepseek-r1", "deepseek-reasoner")
  ].

Definition together_supportedModels : list string :=
  [
    "meta-llama/Meta-Llama-3.1-405B-Instruct-Turbo";
    "meta-llama/Meta-Llama-3.1-70B-Instruct-Turbo";
    "meta-llama/Meta-Llama-3.1-8B-Instruct-Turbo";
    "meta-llama/Llama-3.2-90B-Vision-Instruct-Turbo";
    "meta-llama/Llama-3.2-11B-Vision-Instruct-Turbo";
    "meta-llama/Llama-3.2-3B-Instruct-Turbo";
    "mistralai/Mixtral-8x22B-Instruct-v0.1";
    "mistralai/Mixtral-8x7B-Instruct-v0.1";
    "mistralai/Mistral-7B-Instruct-v0.3"; "Qwen/Qwen2.5-72B-Instruct-Turbo";
    "Qwen/Qwen2.5-7B-Instruct-Turbo"; "Qwen/QwQ-32B-Preview";
    "deepseek-ai/DeepSeek-V3"; "deepseek-ai/deepseek-llm-67b-chat";
    "google/gemma-2-27b-it"; "google/gemma-2-9b-it";
    "WizardLM/WizardLM-2-8x22B"; "databricks/dbrx-instruct"
  ].

Definition together_modelMap : list (string * string) :=
  [
    ("llama-3.1-405b", "meta-llama/Meta-Llama-3.1-405B-Instruct-Turbo");
    ("llama-3.1-70b", "meta-llama/Meta-Llama-3.1-70B-Instruct-Turbo");
    ("llama-3.1-8b", "meta-llama/Meta-Llama-3.1-8B-Instruct-Turbo");
    ("mixtral-8x22b", "mistralai/Mixtral-8x22B-Instruct-v0.1");
    ("mixtral-8x7b", "mistralai/Mixtral-8x7B-Instruct-v0.1");
    ("qwen-72b", "Qwen/Qwen2.5-72B-Instruct-Turbo");
    ("deepseek-v3", "deepseek-ai/DeepSeek-V3")
  ].

Section Adapters.
(** [RegExp_test src m] is [new RegExp(src).test(m)]; [None] when the
    constructor rejects [src] with a SyntaxError. *)
Variable RegExp_test : string -> string -> option bool.

(** The callback of [BaseProviderAdapter.validateModel]. *)
Definition base_matches (model supported : string) : option bool :=
  if String.eqb supported model then Some true
  else if Js.startsWith model supported then Some true
  else if Js.includesChar supported "*"
       then RegExp_test (Js.replaceFirstChar supported "*" ".*") model
       else Some false.

(** [BaseProviderAdapter.validateModel]. *)
Definition base_validateModel (supported : list string) (model : string) : option bool :=
  some (base_matches model) supported.

(** [OpenAIAdapter.validateModel]. *)
Definition openai_validateModel (model : string) : option bool :=
  some (fun supported =>
          Some (String.eqb model supported
                || Js.startsWith model (Js.split_first supported "-")))
       openai_supportedModels.

(** [OpenRouterAdapter.validateModel]. *)
Definition openrouter_validateModel (_model : string) : option bool := Some true.

(** [TogetherAdapter.validateModel]. *)
Definition together_validateModel (model : string) : option bool :=
  some (fun supported =>
          Some (String.eqb model supported
                || Js.includes (Js.toLowerCase supported) (Js.toLowerCase model)))
       together_supportedModels.

(** [FireworksAdapter.validateModel]. *)
Definition fireworks_validateModel (model : string) : option bool :=
  if Js.startsWith model "accounts/" then Some true
  else some (fun supported =>
               Some (Js.includes (Js.toLowerCase supported) (Js.toLowerCase model)))
            fireworks_supportedModels.

Definition OpenAIAdapter : ProviderAdapter :=
  mkAdapter "openai" openai_supportedModels openai_validateModel (fun m => m).
Definition AnthropicAdapter : ProviderAdapter :=
  mkAdapter "anthropic" anthropic_supportedModels
    (base_validateModel anthropic_supportedModels) (lookup_alias anthropic_modelMap).
Definition OpenRouterAdapter : ProviderAdapter :=
  mkAdapter "openrouter" openrouter_supportedModels openrouter_validateModel (fun m => m).
Definition GeminiAdapter : ProviderAdapter :=
  mkAdapter "gemini" gemini_supportedModels
    (base_validateModel gemini_supportedModels) (lookup_alias gemini_modelMap).
Definition MistralAdapter : ProviderAdapter :=
  mkAdapter "mistral" mistral_supportedModels
    (base_validateModel mistral_supportedModels) (lookup_alias mistral_modelMap).
Definition GroqAdapter : ProviderAdapter :=
  mkAdapter "groq" groq_supportedModels
    (base_validateModel groq_supportedModels) (lookup_alias groq_modelMap).
Definition TogetherAdapter : ProviderAdapter :=
  mkAdapter "together" together_supportedModels together_validateModel
    (lookup_alias together_modelMap).
Definition FireworksAdapter : ProviderAdapter :=
  mkAdapter "fireworks" fireworks_supportedModels fireworks_validateModel
    (lookup_alias fireworks_modelMap).
Definition DeepSeekAdapter : ProviderAdapter :=
  mkAdapter "deepseek" deepseek_supportedModels
    (base_validateModel deepseek_supportedModels) (lookup_alias deepseek_modelMap).

(** The registry of src/providers/index.ts, in registration order. *)
Definition adapters : list ProviderAdapter :=
  [ OpenAIAdapter; AnthropicAdapter; OpenRouterAdapter; GeminiAdapter;
    MistralAdapter; GroqAdapter; TogetherAdapter; FireworksAdapter;
    DeepSeekAdapter ].

(** The adapters that inherit [validateModel] from the base class. *)
Definition inherits_validateModel (a : ProviderAdapter) : bool :=
  Prisma.in_strings (adapter_name a)
    ["anthropic"; "gemini"; "mistral"; "groq"; "deepseek"].

(** [getProviderAdapter]: [providerAdapters.get(provider)]. *)
Definition getProviderAdapter (prov : string) : option ProviderAdapter :=
  List.find (fun a => String.eqb (adapter_name a) prov) adapters.
(** [getAllProviders]: the keys of the registry, in registration order. *)
Definition getAllProviders : list string := List.map adapter_name adapters.

(** [isProviderSupported]: [providerAdapters.has(provider)]. *)
Definition isProviderSupported (prov : string) : bool :=
  match getProviderAdapter prov with
  | Some _ => true
  | None => false
  end.

(** [findProvidersForModel]: the loop over the registry, pushing the
    providers whose [validateModel] accepts the model; [None] when a
    [validateModel] call throws. *)
Definition findProvidersForModel (model : string) : option (list string) :=
  List.fold_left
    (fun supportingProviders a =>
       match supportingProviders with
       | None => None
       | Some ps =>
           match validateModel a model with
           | None => None
           | Some true => Some (ps ++ [adapter_name a])%list
           | Some false => Some ps
           end
       end)
    adapters (Some []).
End Adapters.

End Providers.

(* ====================================================================== *)
(** ** Request router (src/services/router.ts, src/services/usage-tracker.ts) *)
(* ====================================================================== *)

Module Router.

Record ChatMessage : Type := mkMessage {
  role : string;
  content : string
}.

(** A validated [ChatRequest].  The sampling parameters (temperature,
    maxTokens, topP) are passed through to the adapter untouched and are
    left out. *)
Record ChatRequest : Type := mkRequest {
  messages : list ChatMessage;
  model : option string;
  req_provider : Provider;
  req_allowedProviders : option (list string);
  req_allowedPriorities : option (list Z);
  stream : bool;
  requestId : option string
}.

Record UsageInfo : Type := mkUsage {
  promptTokens : Z;
  completionTokens : Z;
  totalTokens : Z
}.

Record ChatResponse : Type := mkResponse {
  resp_id : string;
  resp_provider : string;
  resp_model : string;
  resp_choices : list ChatMessage;
  resp_usage : option UsageInfo;
  resp_created : Z
}.

Record ProviderRequest : Type := mkProviderRequest {
  pr_messages : list ChatMessage;
  pr_model : string;
  pr_stream : bool
}.

Record ProviderConfig : Type := mkProviderConfig {
  cfg_apiKey : string;
  cfg_baseUrl : string;
  cfg_timeout : Z
}.

Record UsageLogEntry : Type := mkLogEntry {
  log_keyId : string;
  log_provider : string;
  log_model : string;
  log_requestedModel : option string;
  log_promptTokens : option Z;
  log_completionTokens : option Z;
  log_totalTokens : option Z;
  log_latencyMs : Z;
  log_success : bool;
  log_errorMessage : option string;
  log_requestId : string
}.

Record Metadata : Type := mkMetadata {
  meta_keyId : string;
  meta_provider : string;
  meta_model : string;
  meta_latencyMs : Z
}.

(** What a request runs against: the two stores, the usage log (the rows
    [logUsage] has written) and the clock ([Date.now()]). *)
Record World : Type := mkWorld {
  stores : Stores;
  usage_log : list UsageLogEntry;
  now : Z
}.

(** What one run of [route] did, in order: the attempts of its retry loop
    with how each ended, and the sleeps between them. *)
Inductive Outcome : Type :=
| Succeeded
| Failed (e : Error).

Inductive Event : Type :=
| EvAttempt (attempt : Z) (o : Outcome)
| EvSleep (ms : Q).

(** [isNonRetryableError]. *)
Definition isNonRetryableError (error : Error) : bool :=
  match error with
  | GatewayError e =>
      if Z.geb (statusCode e) 400 && Z.ltb (statusCode e) 500
      then negb (Z.eqb (statusCode e) 429)
      else false
  | OtherError _ => false
  end.

(** [prisma.usageLog.create({ data })] on the table [usage_logs].  Its
    column [key_id] is declared [UUID REFERENCES llm_api_keys(id)]
    (README.md, Database Schema): a row whose [keyId] is the id of no
    row of the key table is refused, and the call throws. *)
Definition usageLog_create (entry : UsageLogEntry) (table : list ApiKeyInfo)
    (log : list UsageLogEntry) : result (list UsageLogEntry) :=
  if List.existsb (fun k => String.eqb (id k) (log_keyId entry)) table
  then Ok (log ++ [entry])%list
  else Err (OtherError "Foreign key constraint failed on the field: key_id").

(** [UsageTracker.logUsage]: the row is created inside a [try] whose
    [catch] only writes to the application log, so a refused row is
    dropped and the caller goes on. *)
Definition logUsage (entry : UsageLogEntry) (w : World) : World :=
  match usageLog_create entry (keys_table (stores w)) (usage_log w) with
  | Ok log' => {| stores := stores w; usage_log := log'; now := now w |}
  | Err _ => w
  end.

(** [ms] milliseconds pass: the clock and the times to live in Redis
    move on. *)
Definition pass (ms : Z) (w : World) : World :=
  {| stores := {| keys_table := keys_table (stores w);
                  redis := Redis.elapse ms (redis (stores w)) |};
     usage_log := usage_log w;
     now := now w + ms |}.

(** [sleep(ms)]: a promise resolved by [setTimeout(resolve, ms)]; the
    time that passes is the time the timer runs. *)
Definition sleep (ms : Q) (w : World) : World := pass (Js.setTimeout_delay ms) w.

Section Route.
(** Configuration: [config.keySelectionStrategy], [config.maxRetries],
    [config.retryDelayMs], [providerConfigs].  The two numbers are what
    [z.coerce.number()] let through: any finite number (an infinite
    [MAX_RETRIES], with which the loop below need not end, is left
    out). *)
Variable strategy : KeySelectionStrategy.
Variable maxRetries : Q.
Variable retryDelayMs : Q.
Variable providerConfigs : string -> option (string * Z).

(** Environment: the regular-expression engine, the local calendar
    ([setHours(0, 0, 0, 0)]) and the upstream providers.  [chat attempt
    prov request config] is what [adapter.chat] does when called in
    attempt number [attempt]: a response or a thrown error, and the
    time the call took. *)
Variable RegExp_test : string -> string -> option bool.
Variable startOfDay : Z -> Date.
Variable chat : Z -> string -> ProviderRequest -> ProviderConfig -> result ChatResponse * Z.

Definition context_of (request : ChatRequest) : RoutingContext :=
  {| requestedModel := model request;
     requestedProvider := req_provider request;
     allowedProviders := req_allowedProviders request;
     allowedPriorities := req_allowedPriorities request |}.

(** [selectKeyWithFallback]. *)
Definition selectKeyWithFallback (context : RoutingContext)
    (attemptedKeyIds : gset string) (w : World) : result KeySelectionResult * World :=
  let '(r, st) := KeyManager.selectKey strategy context (startOfDay (now w)) (stores w) in
  let w' := {| stores := st; usage_log := usage_log w; now := now w |} in
  match r with
  | Err e => (Err e, w')
  | Ok selection =>
      if decide (id (key selection) ∈ attemptedKeyIds)
      then (Err (GatewayError
                   (ProviderError (provider (key selection))
                      "Key already attempted, trying next" 503)), w')
      else (Ok selection, w')
  end.

(** [buildProviderConfig]; reading a property of [undefined] is a
    TypeError. *)
Definition buildProviderConfig (k : ApiKeyInfo) : result ProviderConfig :=
  match providerConfigs (provider k) with
  | Some (baseUrl, timeout) =>
      Ok {| cfg_apiKey := apiKey k; cfg_baseUrl := baseUrl; cfg_timeout := timeout |}
  | None => Err (OtherError "Cannot read properties of undefined (reading 'baseUrl')")
  end.

(** The body of the [try] block of one attempt, run with no other
    request at work between its steps.  It returns the set of attempted
    key ids as the block left it. *)
Definition try_attempt (request : ChatRequest) (reqId : string) (startTime : Z)
    (attempt : Z) (attemptedKeyIds : gset string) (w : World)
  : result (ChatResponse * Metadata) * gset string * World :=
  match selectKeyWithFallback (context_of request) attemptedKeyIds w with
  | (Err e, w1) => (Err e, attemptedKeyIds, w1)
  | (Ok selection, w1) =>
      let k := key selection in
      let attempted' := {[ id k ]} ∪ attemptedKeyIds in
      match Providers.getProviderAdapter RegExp_test (provider k) with
      | None =>
          (Err (GatewayError (ProviderError (provider k) "Provider adapter not found" 500)),
           attempted', w1)
      | Some adapter =>
          match Providers.validateModel adapter (resolvedModel selection) with
          | None => (Err (OtherError "Invalid regular expression"), attempted', w1)
          | Some false =>
              (Err (GatewayError
                      (ModelNotSupportedError (resolvedModel selection) (provider k))),
               attempted', w1)
          | Some true =>
              match buildProviderConfig k with
              | Err e => (Err e, attempted', w1)
              | Ok providerConfig =>
                  let mappedModel :=
                    Providers.mapModelName adapter (resolvedModel selection) in
                  let '(r, elapsed) :=
                    chat attempt (provider k)
                      {| pr_messages := messages request;
                         pr_model := mappedModel;
                         pr_stream := stream request |}
                      providerConfig in
                  let w2 := pass elapsed w1 in
                  match r with
                  | Err e => (Err e, attempted', w2)
                  | Ok response =>
                      let latencyMs := now w2 - startTime in
                      let w3 := {| stores := KeyManager.incrementUsage (id k) (now w2) (stores w2);
                                   usage_log := usage_log w2; now := now w2 |} in
                      let w4 :=
                        logUsage
                          {| log_keyId := id k;
                             log_provider := provider k;
                             log_model := resolvedModel selection;
                             log_requestedModel := model request;
                             log_promptTokens := option_map promptTokens (resp_usage response);
                             log_completionTokens :=
                               option_map completionTokens (resp_usage response);
                             log_totalTokens := option_map totalTokens (resp_usage response);
                             log_latencyMs := latencyMs;
                             log_success := true;
                             log_errorMessage := None;
                             log_requestId := reqId |} w3 in
                      (Ok (response,
                           {| meta_keyId := id k; meta_provider := provider k;
                              meta_model := resolvedModel selection;
                              meta_latencyMs := latencyMs |}),
                       attempted', w4)
                  end
              end
          end
      end
  end.

(** The same [try] block in two steps, up to [await adapter.chat(...)]
    and from its result on.  The block is suspended in between, and
    nothing keeps other requests from running then ([acquireKeyLock] is
    never called): [after_chat] takes the world as it is when the call
    comes back.  [try_attempt] is the two steps with nothing in
    between. *)
Record PendingCall : Type := mkPendingCall {
  pending_selection : KeySelectionResult;
  pending_request : ProviderRequest;
  pending_config : ProviderConfig
}.

Definition before_chat (request : ChatRequest) (attemptedKeyIds : gset string) (w : World)
  : result PendingCall * gset string * World :=
  match selectKeyWithFallback (context_of request) attemptedKeyIds w with
  | (Err e, w1) => (Err e, attemptedKeyIds, w1)
  | (Ok selection, w1) =>
      let k := key selection in
      let attempted' := {[ id k ]} ∪ attemptedKeyIds in
      match Providers.getProviderAdapter RegExp_test (provider k) with
      | None =>
          (Err (GatewayError (ProviderError (provider k) "Provider adapter not found" 500)),
           attempted', w1)
      | Some adapter =>
          match Providers.validateModel adapter (resolvedModel selection) with
          | None => (Err (OtherError "Invalid regular expression"), attempted', w1)
          | Some false =>
              (Err (GatewayError
                      (ModelNotSupportedError (resolvedModel selection) (provider k))),
               attempted', w1)
          | Some true =>
              match buildProviderConfig k with
              | Err e => (Err e, attempted', w1)
              | Ok providerConfig =>
                  (Ok {| pending_selection := selection;
                         pending_request :=
                           {| pr_messages := messages request;
                              pr_model :=
                                Providers.mapModelName adapter (resolvedModel selection);
                              pr_stream := stream request |};
                         pending_config := providerConfig |},
                   attempted', w1)
              end
          end
      end
  end.

Definition after_chat (request : ChatRequest) (reqId : string) (startTime : Z)
    (call : PendingCall) (r : result ChatResponse) (w2 : World)
  : result (ChatResponse * Metadata) * World :=
  match r with
  | Err e => (Err e, w2)
  | Ok response =>
      let selection := pending_selection call in
      let k := key selection in
      let latencyMs := now w2 - startTime in
      let w3 := {| stores := KeyManager.incrementUsage (id k) (now w2) (stores w2);
                   usage_log := usage_log w2; now := now w2 |} in
      let w4 :=
        logUsage
          {| log_keyId := id k;
             log_provider := provider k;
             log_model := resolvedModel selection;
             log_requestedModel := model request;
             log_promptTokens := option_map promptTokens (resp_usage response);
             log_completionTokens := option_map completionTokens (resp_usage response);
             log_totalTokens := option_map totalTokens (resp_usage response);
             log_latencyMs := latencyMs;
             log_success := true;
             log_errorMessage := None;
             log_requestId := reqId |} w3 in
      (Ok (response,
           {| meta_keyId := id k; meta_provider := provider k;
              meta_model := resolvedModel selection;
              meta_latencyMs := latencyMs |}),
       w4)
  end.

(** How the retry loop ended. *)
Inductive LoopExit : Type :=
| Returned (r : ChatResponse * Metadata)
| Fell (lastError : option Error).

(** [for (let attempt = 0; attempt < maxRetries; attempt++)], with
    [left] the number of iterations still to run: the condition holds
    of the integers below [maxRetries] rounded up. *)
Fixpoint route_loop (request : ChatRequest) (reqId : string) (startTime : Z)
    (left : nat) (attempt : Z) (attemptedKeyIds : gset string)
    (lastError : option Error) (w : World) : LoopExit * World * list Event :=
  match left with
  | O => (Fell lastError, w, [])
  | S left' =>
      match try_attempt request reqId startTime attempt attemptedKeyIds w with
      | (Ok r, _, w1) => (Returned r, w1, [EvAttempt attempt Succeeded])
      | (Err error, attempted', w1) =>
          if isNonRetryableError error
          then (Fell (Some error), w1, [EvAttempt attempt (Failed error)])
          else if Js.ltQ (inject_Z attempt) (maxRetries - 1)
          then
            let delay := (retryDelayMs * inject_Z (2 ^ attempt))%Q in
            let '(x, w2, tr) :=
              route_loop request reqId startTime left' (attempt + 1) attempted'
                (Some error) (sleep delay w1) in
            (x, w2, EvAttempt attempt (Failed error) :: EvSleep delay :: tr)
          else
            let '(x, w2, tr) :=
              route_loop request reqId startTime left' (attempt + 1) attempted'
                (Some error) w1 in
            (x, w2, EvAttempt attempt (Failed error) :: tr)
      end
  end.

(** [route]. *)
Definition route (request : ChatRequest) (w : World)
  : result (ChatResponse * Metadata) * World * list Event :=
  let startTime := now w in
  let reqId := match Js.truthy (requestId request) with
               | Some r => r
               | None => "req_" +:+ Js.number_to_string (now w)
               end in
  let context := context_of request in
  match route_loop request reqId startTime (Z.to_nat (Qceiling maxRetries)) 0 ∅ None w with
  | (Returned r, w1, tr) => (Ok r, w1, tr)
  | (Fell lastError, w1, tr) =>
      let latencyMs := now w1 - startTime in
      let w2 :=
        logUsage
          {| log_keyId := "unknown";
             log_provider := if String.eqb (requestedProvider context) auto
                             then "openai" else requestedProvider context;
             log_model := match Js.truthy (requestedModel context) with
                          | Some m => m
                          | None => "unknown"
                          end;
             log_requestedModel := model request;
             log_promptTokens := None;
             log_completionTokens := None;
             log_totalTokens := None;
             log_latencyMs := latencyMs;
             log_success := false;
             log_errorMessage := option_map error_message lastError;
             log_requestId := reqId |} w1 in
      match lastError with
      | Some (GatewayError e) => (Err (GatewayError e), w2, tr)
      | _ =>
          (Err (GatewayError
                  (NoEligibleKeyError (requestedModel context)
                     (Some (requestedProvider context)))), w2, tr)
      end
  end.
End Route.

End Router.

(* ====================================================================== *)
(** ** src/providers/base.ts: error handling and the OpenAI-compatible chat *)
(* ====================================================================== *)

Module OpenAICompatible.

(** What a [catch (error)] clause receives: an instance of
    [ProviderError]; another [Error], of which [handleError] reads the
    message only; or a value that is no [Error]. *)
Inductive Caught : Type :=
| CaughtProviderError (e : LLMGatewayError)
| CaughtError (message : string)
| CaughtValue.

(** [handleError]: the error it throws. *)
Definition handleError (name : string) (error : Caught) (model : string)
  : LLMGatewayError :=
  match error with
  | CaughtProviderError e => e
  | CaughtError msg =>
      if Js.includes msg "rate limit" || Js.includes msg "429"
      then ProviderError name "Rate limit exceeded" 429
      else if Js.includes msg "unauthorized" || Js.includes msg "401"
      then ProviderError name "Invalid API key" 401
      else if Js.includes msg "not found" || Js.includes msg "404"
      then ModelNotSupportedError model name
      else ProviderError name msg 500
  | CaughtValue => ProviderError name "Unknown error occurred" 500
  end.

(** The request that [chat] hands to [fetch]. *)
Record FetchRequest : Type := mkFetchRequest {
  url : string;
  authorization : string;
  body_model : string;
  body_messages : list Router.ChatMessage;
  body_stream : bool;
  signal_timeout : Z
}.

Record OpenAIChoice : Type := mkOpenAIChoice {
  oc_index : Z;
  oc_role : string;
  oc_content : string;
  finish_reason : string
}.

Record OpenAIUsage : Type := mkOpenAIUsage {
  prompt_tokens : Z;
  completion_tokens : Z;
  total_tokens : Z
}.

Record OpenAIResponse : Type := mkOpenAIResponse {
  or_id : string;
  or_created : Z;
  or_model : string;
  or_choices : list OpenAIChoice;
  or_usage : option OpenAIUsage
}.

(** What the upstream does with a request: [fetch] rejects (no
    connection, the timeout signal), or a response arrives with its
    status, its body as text, and its body as JSON, the parse of which
    may throw. *)
Inductive Upstream : Type :=
| FetchThrows (error : Caught)
| Replies (status : Z) (text : string) (json : Caught + OpenAIResponse).

(** [ChatChoice] and [ChatResponse] in full. *)
Record ChatChoice : Type := mkChatChoice {
  index : Z;
  message : Router.ChatMessage;
  finishReason : option string
}.

Record ChatResponse : Type := mkChatResponse {
  id : string;
  provider : string;
  model : string;
  choices : list ChatChoice;
  usage : option Router.UsageInfo;
  created : Z
}.

(** [mapFinishReason]. *)
Definition mapFinishReason (reason : string) : option string :=
  if String.eqb reason "stop" then Some "stop"
  else if String.eqb reason "length" then Some "length"
  else if String.eqb reason "content_filter" then Some "content_filter"
  else if String.eqb reason "function_call" || String.eqb reason "tool_calls"
  then Some "function_call"
  else None.

(** [response.ok]. *)
Definition ok (status : Z) : bool := Z.leb 200 status && Z.leb status 299.

Section Chat.
(** The adapter: [this.name], [this.baseUrl], [this.mapModelName]; and
    the upstream behind [fetch]. *)
Variable name : string.
Variable baseUrl : string.
Variable mapModelName : string -> string.
Variable fetch : FetchRequest -> Upstream.

(** [OpenAICompatibleAdapter.chat]. *)
Definition chat (request : Router.ProviderRequest) (config : Router.ProviderConfig)
  : result ChatResponse :=
  let mappedModel := mapModelName (Router.pr_model request) in
  let baseUrl := match Router.cfg_baseUrl config with
                 | EmptyString => baseUrl
                 | u => u
                 end in
  let openaiRequest :=
    {| url := baseUrl +:+ "/chat/completions";
       authorization := "Bearer " +:+ Router.cfg_apiKey config;
       body_model := mappedModel;
       body_messages := Router.pr_messages request;
       body_stream := false;
       signal_timeout := if Z.eqb (Router.cfg_timeout config) 0
                         then 60000 else Router.cfg_timeout config |} in
  let throw error := Err (GatewayError (handleError name error (Router.pr_model request))) in
  match fetch openaiRequest with
  | FetchThrows error => throw error
  | Replies status errorText json =>
      if negb (ok status)
      then throw (CaughtProviderError
                    (ProviderError name
                       ("HTTP " +:+ Js.number_to_string status +:+ ": " +:+ errorText)
                       status))
      else
        match json with
        | inl error => throw error
        | inr data =>
            match or_choices data with
            | [] => throw (CaughtProviderError
                             (ProviderError name "No choices in response" 500))
            | _ :: _ =>
                Ok {| id := or_id data;
                      provider := name;
                      model := or_model data;
                      choices :=
                        List.map
                          (fun choice =>
                             {| index := oc_index choice;
                                message := {| Router.role := oc_role choice;
                                              Router.content := oc_content choice |};
                                finishReason := mapFinishReason (finish_reason choice) |})
                          (or_choices data);
                      usage :=
                        option_map
                          (fun u => {| Router.promptTokens := prompt_tokens u;
                                       Router.completionTokens := completion_tokens u;
                                       Router.totalTokens := total_tokens u |})
                          (or_usage data);
                      created := or_created data * 1000 |}
            end
        end
  end.
End Chat.

End OpenAICompatible.

(* ====================================================================== *)
(** ** The user router: [routeWithKeys] over a caller's own keys *)
(* ====================================================================== *)

Module UserRouter.

(** [RouteResult]. *)
Record RouteResult : Type := mkRouteResult {
  success : bool;
  response : option Router.ChatResponse;
  metadata : option Router.Metadata;
  error : option string;
  errorCode : option string;
  statusCode : option Z
}.

(** The two shapes of what [tryKeyRequest] returns:
    [{ success: true, response, model }] and [{ success: false, error }]. *)
Inductive TryResult : Type :=
| TrySucceeded (response : Router.ChatResponse) (model : string)
| TryFailed (error : string).

(** The predicate passed to [keys.filter] in [routeWithKeys].  A
    [UserKey] has the fields of an [ApiKeyInfo] that it reads. *)
Definition eligible (request : Router.ChatRequest) (key : ApiKeyInfo) : bool :=
  if negb (enabled key) then false
  else if match dailyLimit key with
          | Some d => Z.geb (usedToday key) d
          | None => false
          end then false
  else if negb (String.eqb (Router.req_provider request) auto)
          && negb (String.eqb (provider key) (Router.req_provider request)) then false
  else match Js.truthy (Router.model request) with
       | Some m => if negb (KeyManager.isAllowed key m) then false else true
       | None => true
       end.

(** [updateKeyUsage]: the update of the row, a failure of which is
    logged and swallowed. *)
Definition updateKeyUsage (keyId : string) (w : Router.World) : Router.World :=
  {| Router.stores := KeyManager.incrementUsage keyId (Router.now w) (Router.stores w);
     Router.usage_log := Router.usage_log w;
     Router.now := Router.now w |}.

Section RouteWithKeys.
Variable providerConfigs : string -> option (string * Z).
Variable RegExp_test : string -> string -> option bool.
(** [chat n prov request config]: what [adapter.chat] does in the
    [n]-th call of one [routeWithKeys] run, and the time it takes. *)
Variable chat :
  Z -> string -> Router.ProviderRequest -> Router.ProviderConfig ->
  result Router.ChatResponse * Z.

(** [tryKeyRequest]. *)
Definition tryKeyRequest (request : Router.ChatRequest) (n : Z) (key : ApiKeyInfo)
    (w : Router.World) : TryResult * Router.World :=
  match Providers.getProviderAdapter RegExp_test (provider key) with
  | None => (TryFailed ("Provider " +:+ provider key +:+ " not supported"), w)
  | Some adapter =>
      let resolvedModel := match Js.truthy (Router.model request) with
                           | Some m => m
                           | None => defaultModel key
                           end in
      let mappedModel := Providers.mapModelName adapter resolvedModel in
      match providerConfigs (provider key) with
      | None => (TryFailed "Cannot read properties of undefined (reading 'baseUrl')", w)
      | Some (baseUrl, timeout) =>
          let '(r, elapsed) :=
            chat n (provider key)
              {| Router.pr_messages := Router.messages request;
                 Router.pr_model := mappedModel;
                 Router.pr_stream := false |}
              {| Router.cfg_apiKey := apiKey key;
                 Router.cfg_baseUrl := baseUrl;
                 Router.cfg_timeout := timeout |} in
          let w' := Router.pass elapsed w in
          match r with
          | Ok response => (TrySucceeded response resolvedModel, w')
          | Err e => (TryFailed (error_message e), w')
          end
      end
  end.

(** [for (const key of eligibleKeys)]; the third component lists the
    keys tried, in order, with whether the try succeeded. *)
Fixpoint try_keys (request : Router.ChatRequest) (startTime : Z)
    (keys : list ApiKeyInfo) (n : Z) (w : Router.World)
  : RouteResult * Router.World * list (ApiKeyInfo * bool) :=
  match keys with
  | [] =>
      ({| success := false; response := None; metadata := None;
          error := Some "All API keys failed";
          errorCode := Some "ALL_KEYS_FAILED";
          statusCode := Some 502 |}, w, [])
  | key :: rest =>
      match tryKeyRequest request n key w with
      | (TrySucceeded resp resolved, w1) =>
          let latencyMs := Router.now w1 - startTime in
          let w2 := updateKeyUsage (id key) w1 in
          ({| success := true; response := Some resp;
              metadata := Some {| Router.meta_keyId := id key;
                                  Router.meta_provider := provider key;
                                  Router.meta_model := resolved;
                                  Router.meta_latencyMs := latencyMs |};
              error := None; errorCode := None; statusCode := None |},
           w2, [(key, true)])
      | (TryFailed _, w1) =>
          let '(x, w2, tried) := try_keys request startTime rest (n + 1) w1 in
          (x, w2, (key, false) :: tried)
      end
  end.

(** [routeWithKeys]. *)
Definition routeWithKeys (request : Router.ChatRequest) (keys : list ApiKeyInfo)
    (w : Router.World) : RouteResult * Router.World * list (ApiKeyInfo * bool) :=
  let startTime := Router.now w in
  let eligibleKeys := List.filter (eligible request) keys in
  match eligibleKeys with
  | [] =>
      ({| success := false; response := None; metadata := None;
          error := Some "No eligible API key found for this request";
          errorCode := Some "NO_ELIGIBLE_KEY";
          statusCode := Some 400 |}, w, [])
  | _ :: _ =>
      let sorted := Js.sort (fun a b => Js.Fin (priority a - priority b)) eligibleKeys in
      try_keys request startTime sorted 0 w
  end.
End RouteWithKeys.

End UserRouter.

(* ====================================================================== *)
(** ** Queue worker (src/queue/worker.ts) *)
(* ====================================================================== *)

Module Worker.

Record QueueJobResult : Type := mkJobResult {
  success : bool;
  response : option Router.ChatResponse;
  error : option string;
  keyId : option string;
  res_provider : option string;
  res_model : option string;
  latencyMs : option Z
}.

(** How the processor function ends: it returns the job's result, or it
    throws. *)
Inductive JobOutcome : Type :=
| Returns (r : QueueJobResult)
| Throws (e : Error).

Section Process.
Variable strategy : KeySelectionStrategy.
Variable maxRetries : Q.
Variable retryDelayMs : Q.
Variable providerConfigs : string -> option (string * Z).
Variable RegExp_test : string -> string -> option bool.
Variable startOfDay : Z -> Date.
Variable chat :
  Z -> string -> Router.ProviderRequest -> Router.ProviderConfig ->
  result Router.ChatResponse * Z.

(** [processChatJob] on the request of [job.data]. *)
Definition processChatJob (request : Router.ChatRequest) (w : Router.World)
  : JobOutcome * Router.World :=
  let startTime := Router.now w in
  match Router.route strategy maxRetries retryDelayMs providerConfigs
          RegExp_test startOfDay chat request w with
  | (Ok (resp, metadata), w', _) =>
      (Returns {| success := true;
                  response := Some resp;
                  error := None;
                  keyId := Some (Router.meta_keyId metadata);
                  res_provider := Some (Router.meta_provider metadata);
                  res_model := Some (Router.meta_model metadata);
                  latencyMs := Some (Router.now w' - startTime) |}, w')
  | (Err e, w', _) =>
      let errorMessage := error_message e in
      match e with
      | GatewayError g =>
          if Z.ltb (statusCode g) 500
          then (Returns {| success := false;
                           response := None;
                           error := Some errorMessage;
                           keyId := None;
                           res_provider := None;
                           res_model := None;
                           latencyMs := Some (Router.now w' - startTime) |}, w')
          else (Throws e, w')
      | OtherError _ => (Throws e, w')
      end
  end.
End Process.

End Worker.

(* ====================================================================== *)
(** ** Job queue (src/queue/jobs.ts) over the BullMQ broker *)
(* ====================================================================== *)

Module Queue.

Inductive JobState : Type :=
| waiting
| active
| completed
| failed
| delayed.

Record QueueJobData : Type := mkJobData {
  data_requestId : string;
  data_request : Router.ChatRequest;
  data_timestamp : Z
}.

(** A job as the broker keeps it. *)
Record Job : Type := mkJob {
  job_id : string;
  job_name : string;
  job_data : QueueJobData;
  job_priority : option Z;
  job_delay : option Z;
  attemptsMade : Z;
  job_state : JobState;
  returnvalue : option Worker.QueueJobResult;
  failedReason : option string
}.

(** The broker: its job-id counter and its jobs by id. *)
Record Broker : Type := mkBroker {
  id_counter : Z;
  jobs : gmap string Job
}.

(** What the broker publishes on its event stream. *)
Inductive QueueEvent : Type :=
| Completed (jobId : string) (rv : option Worker.QueueJobResult)
| FailedEv (jobId : string) (reason : string).

(** BullMQ's [Queue.add(name, data, opts)]: the first argument is the
    job's NAME.  Its id is [opts.jobId] when that option is given (and a
    job with an id already in use is not added again); otherwise it is
    the next value of the queue's counter, 1, 2, 3, ... *)
Definition add (jname : string) (data : QueueJobData) (jobId : option string)
    (prio dly : option Z) (b : Broker) : Job * Broker :=
  let mk i :=
    {| job_id := i; job_name := jname; job_data := data;
       job_priority := prio; job_delay := dly; attemptsMade := 0;
       job_state := match dly with Some d => if Z.ltb 0 d then delayed else waiting
                                 | None => waiting end;
       returnvalue := None; failedReason := None |} in
  match jobId with
  | Some i =>
      match jobs b !! i with
      | Some j => (j, b)
      | None => (mk i, {| id_counter := id_counter b; jobs := <[i := mk i]> (jobs b) |})
      end
  | None =>
      let n := id_counter b + 1 in
      let i := Js.number_to_string n in
      (mk i, {| id_counter := n; jobs := <[i := mk i]> (jobs b) |})
  end.

(** BullMQ's [Queue.getJob(jobId)]. *)
Definition getJob (jobId : string) (b : Broker) : option Job :=
  jobs b !! jobId.

(** The default job options of [getChatQueue]: three attempts,
    exponential backoff from one second. *)
Definition attempts : Z := 3.
Definition backoff_delay : Z := 1000.

Definition with_outcome (j : Job) (made : Z) (st : JobState)
    (rv : option Worker.QueueJobResult) (why : option string) : Job :=
  {| job_id := job_id j; job_name := job_name j; job_data := job_data j;
     job_priority := job_priority j; job_delay := job_delay j;
     attemptsMade := made; job_state := st; returnvalue := rv; failedReason := why |}.

(** What the broker does with a job when the processor function ends.  A
    returned value completes the job, whatever the value says; a thrown
    error sends the job back with a delay of [backoff_delay * 2^(n-1)]
    after its [n]-th attempt while attempts are left, and fails it
    otherwise. *)
Definition settle (j : Job) (o : Worker.JobOutcome) : Job * option QueueEvent :=
  let made := attemptsMade j + 1 in
  match o with
  | Worker.Returns r =>
      (with_outcome j made completed (Some r) None,
       Some (Completed (job_id j) (Some r)))
  | Worker.Throws e =>
      if Z.ltb made attempts
      then ({| job_id := job_id j; job_name := job_name j; job_data := job_data j;
               job_priority := job_priority j;
               job_delay := Some (backoff_delay * 2 ^ (made - 1));
               attemptsMade := made; job_state := delayed;
               returnvalue := None; failedReason := Some (error_message e) |},
            None)
      else (with_outcome j made failed None (Some (error_message e)),
            Some (FailedEv (job_id j) (error_message e)))
  end.

Definition finish (jobId : string) (o : Worker.JobOutcome) (b : Broker)
  : Broker * option QueueEvent :=
  match jobs b !! jobId with
  | None => (b, None)
  | Some j =>
      let '(j', ev) := settle j o in
      ({| id_counter := id_counter b; jobs := <[jobId := j']> (jobs b) |}, ev)
  end.

(** [enqueueChatRequest]; [uuid] is what [uuidv4()] returns. *)
Definition enqueueChatRequest (request : Router.ChatRequest)
    (prio dly : option Z) (uuid : string) (timestamp : Z) (b : Broker)
  : string * Broker :=
  let requestId := match Js.truthy (Router.requestId request) with
                   | Some r => r
                   | None => uuid
                   end in
  let jobData :=
    {| data_requestId := requestId;
       data_request :=
         {| Router.messages := Router.messages request;
            Router.model := Router.model request;
            Router.req_provider := Router.req_provider request;
            Router.req_allowedProviders := Router.req_allowedProviders request;
            Router.req_allowedPriorities := Router.req_allowedPriorities request;
            Router.stream := Router.stream request;
            Router.requestId := Some requestId |};
       data_timestamp := timestamp |} in
  let '(_, b') := add requestId jobData None prio dly b in
  (requestId, b').

(** *** The waiter of [waitForJob] *)

(** How the promise settled. *)
Inductive Settlement : Type :=
| Resolved (r : Worker.QueueJobResult)
| Rejected (msg : string).

(** The promise of one [waitForJob] call: whether it has settled, whether
    its two listeners are still registered, whether its timer is still
    armed. *)
Record Waiter : Type := mkWaiter {
  w_requestId : string;
  w_timeoutMs : Z;
  settled : option Settlement;
  listening : bool;
  timer : bool
}.

(** What can reach a waiter: an event of the stream, its timer, and the
    answer to its [queue.getJob(requestId)] lookup. *)
Inductive Stimulus : Type :=
| OnEvent (ev : QueueEvent)
| OnTimeout
| OnLookup (job : option Job).

Definition waitForJob (requestId : string) (timeoutMs : Z) : Waiter :=
  {| w_requestId := requestId; w_timeoutMs := timeoutMs;
     settled := None; listening := true; timer := true |}.

(** [cleanup()]. *)
Definition cleanup (w : Waiter) : Waiter :=
  {| w_requestId := w_requestId w; w_timeoutMs := w_timeoutMs w;
     settled := settled w; listening := false; timer := false |}.

(** [resolve(..)] and [reject(..)]: a settled promise stays as it is. *)
Definition settle_promise (s : Settlement) (w : Waiter) : Waiter :=
  match settled w with
  | Some _ => w
  | None => {| w_requestId := w_requestId w; w_timeoutMs := w_timeoutMs w;
               settled := Some s; listening := listening w; timer := timer w |}
  end.

Definition timeout_message (w : Waiter) : string :=
  "Job " +:+ w_requestId w +:+ " timed out after "
  +:+ Js.number_to_string (w_timeoutMs w) +:+ "ms".

Definition react (w : Waiter) (s : Stimulus) : Waiter :=
  match s with
  | OnTimeout =>
      if timer w then settle_promise (Rejected (timeout_message w)) (cleanup w) else w
  | OnEvent (Completed jobId rv) =>
      if listening w && String.eqb jobId (w_requestId w)
      then match rv with
           | Some r => settle_promise (Resolved r) (cleanup w)
           | None => settle_promise (Rejected "Failed to parse job result") (cleanup w)
           end
      else w
  | OnEvent (FailedEv jobId reason) =>
      if listening w && String.eqb jobId (w_requestId w)
      then settle_promise (Rejected reason) (cleanup w)
      else w
  | OnLookup None => w
  | OnLookup (Some job) =>
      match job_state job, returnvalue job with
      | completed, Some r => settle_promise (Resolved r) (cleanup w)
      | failed, _ =>
          settle_promise
            (Rejected match Js.truthy (failedReason job) with
                      | Some why => why
                      | None => "Job failed"
                      end)
            (cleanup w)
      | _, _ => w
      end
  end.

Definition run (w : Waiter) (l : list Stimulus) : Waiter :=
  List.fold_left react l w.

End Queue.

(* ====================================================================== *)
(** ** src/middleware/error-handler.ts and src/routes/chat.ts *)
(* ====================================================================== *)

Module Http.

(** What [errorHandler] is given, by the tests it makes: an
    [LLMGatewayError]; a [ZodError] with its issues (path and message);
    an error with a numeric [statusCode] (Fastify's own errors); any
    other [Error]. *)
Inductive Thrown : Type :=
| ThrownGateway (e : LLMGatewayError)
| ThrownZod (issues : list (string * string))
| ThrownWithStatus (statusCode : Z) (code : option string) (message : string)
| ThrownPlain (message : string).

(** The errors of the router, the worker and the waiter as [errorHandler]
    meets them. *)
Definition thrown (e : Error) : Thrown :=
  match e with
  | GatewayError g => ThrownGateway g
  | OtherError m => ThrownPlain m
  end.

(** An error reply: its status and the [ErrorResponse] sent, without the
    [details]. *)
Record ErrorReply : Type := mkErrorReply {
  er_status : Z;
  er_code : string;
  er_message : string;
  er_requestId : option string
}.

(** [errorHandler]; [requestId] is the [x-request-id] header or else the
    [requestId] of the body. *)
Definition errorHandler (error : Thrown) (requestId : option string) : ErrorReply :=
  match error with
  | ThrownGateway e =>
      {| er_status := statusCode e; er_code := code e; er_message := message e;
         er_requestId := requestId |}
  | ThrownZod _ =>
      {| er_status := 400; er_code := "VALIDATION_ERROR";
         er_message := "Request validation failed"; er_requestId := requestId |}
  | ThrownWithStatus status c m =>
      {| er_status := status;
         er_code := match Js.truthy c with Some c' => c' | None => "REQUEST_ERROR" end;
         er_message := m; er_requestId := requestId |}
  | ThrownPlain _ =>
      {| er_status := 500; er_code := "INTERNAL_ERROR";
         er_message := "An unexpected error occurred"; er_requestId := requestId |}
  end.

(** What a request to a chat route ends with: the reply of the handler,
    or the reply of [errorHandler] to what the handler threw. *)
Inductive Reply : Type :=
| Queued (requestId : string)
| Answer (headers : list (string * string)) (body : option Router.ChatResponse)
| Refused (r : ErrorReply).

Definition status_of (r : Reply) : Z :=
  match r with
  | Queued _ => 202
  | Answer _ _ => 200
  | Refused e => er_status e
  end.

Section ChatRoutes.
(** [config.enableLlmHeaders], and what the router and the queue are
    configured with. *)
Variable enableLlmHeaders : bool.
Variable strategy : KeySelectionStrategy.
Variable maxRetries : Q.
Variable retryDelayMs : Q.
Variable providerConfigs : string -> option (string * Z).
Variable RegExp_test : string -> string -> option bool.
Variable startOfDay : Z -> Date.
Variable chat :
  Z -> string -> Router.ProviderRequest -> Router.ProviderConfig ->
  result Router.ChatResponse * Z.

(** The handler of [POST /chat] on a body that [ChatRequestSchema] has
    accepted.  [async] is [request.body.async], [uuid] and [uuid'] what
    [uuidv4()] returns in the handler and in [enqueueChatRequest],
    [header] the [x-request-id] header. *)
Definition postChat (body : Router.ChatRequest) (async : bool) (uuid uuid' : string)
    (header : option string) (w : Router.World) (b : Queue.Broker)
  : Reply * Router.World * Queue.Broker :=
  let requestId := match Js.truthy (Router.requestId body) with
                   | Some r => r
                   | None => uuid
                   end in
  let validatedBody :=
    {| Router.messages := Router.messages body;
       Router.model := Router.model body;
       Router.req_provider := Router.req_provider body;
       Router.req_allowedProviders := Router.req_allowedProviders body;
       Router.req_allowedPriorities := Router.req_allowedPriorities body;
       Router.stream := Router.stream body;
       Router.requestId := Some requestId |} in
  if async
  then
    let '(_, b') :=
      Queue.enqueueChatRequest validatedBody None None uuid' (Router.now w) b in
    (Queued requestId, w, b')
  else
    match Router.route strategy maxRetries retryDelayMs providerConfigs
            RegExp_test startOfDay chat validatedBody w with
    | (Ok (response, metadata), w', _) =>
        (Answer
           (if enableLlmHeaders
            then [ ("X-LLM-Provider", Router.meta_provider metadata);
                   ("X-LLM-Model", Router.meta_model metadata);
                   ("X-LLM-Key-ID", Router.meta_keyId metadata);
                   ("X-LLM-Latency-Ms",
                    Js.number_to_string (Router.meta_latencyMs metadata)) ]
            else [])
           (Some response), w', b)
    | (Err e, w', _) =>
        (Refused
           (errorHandler (thrown e)
              match Js.truthy header with
              | Some h => Some h
              | None => Router.requestId body
              end), w', b)
    end.

(** The handler of [GET /chat/:requestId], from the settlement of the
    promise of [waitForJob] on. *)
Definition getChatResult (requestId : string) (header : option string)
    (s : Queue.Settlement) : Reply :=
  match s with
  | Queue.Resolved result =>
      if negb (Worker.success result)
      then Refused {| er_status := 500; er_code := "JOB_FAILED";
                      er_message := match Js.truthy (Worker.error result) with
                                    | Some m => m
                                    | None => "Request processing failed"
                                    end;
                      er_requestId := Some requestId |}
      else
        Answer
          (match enableLlmHeaders, Js.truthy (Worker.res_provider result) with
           | true, Some prov =>
               [ ("X-LLM-Provider", prov);
                 ("X-LLM-Model", match Js.truthy (Worker.res_model result) with
                                 | Some m => m
                                 | None => EmptyString
                                 end);
                 ("X-LLM-Key-ID", match Js.truthy (Worker.keyId result) with
                                  | Some k => k
                                  | None => EmptyString
                                  end);
                 ("X-LLM-Latency-Ms", match Worker.latencyMs result with
                                      | Some l => Js.number_to_string l
                                      | None => "0"
                                      end) ]
           | _, _ => []
           end)
          (Worker.response result)
  | Queue.Rejected message =>
      if Js.includes message "timed out"
      then Refused {| er_status := 408; er_code := "REQUEST_TIMEOUT";
                      er_message := "Request is still processing";
                      er_requestId := Some requestId |}
      else Refused (errorHandler (ThrownPlain message) (Js.truthy header))
  end.
End ChatRoutes.

End Http.

(* ====================================================================== *)
(** ** src/services/usage-tracker.ts: [getUsageStats] *)
(* ====================================================================== *)

Module UsageTracker.

Inductive GroupBy : Type :=
| ByProvider
| ByModel
| ByKey.

(** The running totals of one group. *)
Record Totals : Type := mkTotals {
  totalRequests : Z;
  successfulRequests : Z;
  failedRequests : Z;
  totalTokens : Z;
  totalLatencyMs : Z;
  latencyCount : Z
}.

(** One element of the array returned.  [avgLatencyMs] is kept as the
    fraction that the division is applied to, (0, 1) standing for the
    0 of a group without latencies. *)
Record Stats : Type := mkStats {
  group : string;
  st_totalRequests : Z;
  st_successfulRequests : Z;
  st_failedRequests : Z;
  st_totalTokens : Z;
  avgLatencyMs : Z * Z
}.

(** The [switch (groupBy)]. *)
Definition groupKey (groupBy : GroupBy) (log : Router.UsageLogEntry) : string :=
  match groupBy with
  | ByProvider => Router.log_provider log
  | ByModel => Router.log_model log
  | ByKey => Router.log_keyId log
  end.

Definition zero : Totals :=
  {| totalRequests := 0; successfulRequests := 0; failedRequests := 0;
     totalTokens := 0; totalLatencyMs := 0; latencyCount := 0 |}.

(** The body of the loop on the totals of the row's group. *)
Definition count (log : Router.UsageLogEntry) (existing : Totals) : Totals :=
  {| totalRequests := totalRequests existing + 1;
     successfulRequests :=
       if Router.log_success log then successfulRequests existing + 1
       else successfulRequests existing;
     failedRequests :=
       if Router.log_success log then failedRequests existing
       else failedRequests existing + 1;
     totalTokens :=
       totalTokens existing
       + match Router.log_totalTokens log with Some t => t | None => 0 end;
     totalLatencyMs :=
       if Z.eqb (Router.log_latencyMs log) 0 then totalLatencyMs existing
       else totalLatencyMs existing + Router.log_latencyMs log;
     latencyCount :=
       if Z.eqb (Router.log_latencyMs log) 0 then latencyCount existing
       else latencyCount existing + 1 |}.

(** [grouped.get(groupKey) || { ...zeros }], the counting, and
    [grouped.set(groupKey, existing)], on a [Map] kept as the list of
    its entries in insertion order. *)
Fixpoint record (k : string) (log : Router.UsageLogEntry)
    (grouped : list (string * Totals)) : list (string * Totals) :=
  match grouped with
  | [] => [(k, count log zero)]
  | (g, existing) :: rest =>
      if String.eqb g k then (g, count log existing) :: rest
      else (g, existing) :: record k log rest
  end.

(** [getUsageStats] on the rows that its query returns. *)
Definition getUsageStats (logs : list Router.UsageLogEntry) (groupBy : GroupBy)
  : list Stats :=
  let grouped :=
    List.fold_left (fun grouped log => record (groupKey groupBy log) log grouped)
      logs [] in
  List.map
    (fun '(g, stats) =>
       {| group := g;
          st_totalRequests := totalRequests stats;
          st_successfulRequests := successfulRequests stats;
          st_failedRequests := failedRequests stats;
          st_totalTokens := totalTokens stats;
          avgLatencyMs := if Z.ltb 0 (latencyCount stats)
                          then (totalLatencyMs stats, latencyCount stats)
                          else (0, 1) |})
    grouped.

End UsageTracker.

(* ====================================================================== *)
(** ** Vocabulary of the properties *)
(* ====================================================================== *)

Definition in_group (q : Z) (k : ApiKeyInfo) : bool := Z.eqb (priority k) q.

(** What the [Map] built by [groupKeysByPriority] holds after the keys
    [seen]: one entry per priority met, each with the keys of that
    priority in the order they came. *)
Definition grouped_inv (seen : list ApiKeyInfo) (g : list (Z * list ApiKeyInfo)) : Prop :=
  List.NoDup (List.map fst g)
  /\ (forall q ks, In (q, ks) g -> ks = List.filter (in_group q) seen /\ ks <> [])
  /\ (forall k, In k seen -> In (priority k) (List.map fst g)).

Definition by_priority (a b : Z * list ApiKeyInfo) : comparison :=
  Js.sign (Js.Fin (fst a - fst b)).


(** The comparator of [selectExhaustFirst], as the sort reads it. *)
Definition by_remaining (a b : ApiKeyInfo) : comparison :=
  Js.sign (Js.sub (KeyManager.remaining b) (KeyManager.remaining a)).

(** Priority ascending, then [usedToday] ascending. *)
Definition priority_then_usedToday (a b : ApiKeyInfo) : Prop :=
  priority a < priority b \/ (priority a = priority b /\ usedToday a <= usedToday b).

(** Remaining quota compared as the property words it: the remaining
    quota of a key is [dailyLimit - usedToday], and infinite for a key
    with no [dailyLimit].  [less_remaining a b]: [a] has less left than
    [b]; [at_most_remaining a b]: [a] has no more left than [b]. *)
Definition less_remaining (a b : ApiKeyInfo) : Prop :=
  match dailyLimit a, dailyLimit b with
  | Some da, Some db => da - usedToday a < db - usedToday b
  | Some _, None => True
  | None, _ => False
  end.

Definition at_most_remaining (a b : ApiKeyInfo) : Prop :=
  match dailyLimit a, dailyLimit b with
  | Some da, Some db => da - usedToday a <= db - usedToday b
  | _, None => True
  | None, Some _ => False
  end.

(** [usedToday] ascending. *)
Definition usedToday_ascending (a b : ApiKeyInfo) : Prop := usedToday a <= usedToday b.

(** The keys [selectKey] chooses from: the query result after the lazy
    reset and the quota and model filters. *)
Definition eligible_keys (context : RoutingContext) (today : Date) (st : Stores)
  : list ApiKeyInfo :=
  let listing := Prisma.findMany (KeyManager.whereConditions context) (keys_table st) in
  KeyManager.filterEligibleKeys
    (fst (KeyManager.resetDailyUsageIfNeeded listing today (keys_table st)))
    (requestedModel context).

(** The value a round-robin counter holds, 0 while the key is absent. *)
Definition counter (r : gmap string Redis.entry) (k : string) : Z :=
  match r !! k with
  | Some e => Redis.value e
  | None => 0
  end.

(** Counters only ever count up from an absent key. *)
Definition counters_nonneg (r : gmap string Redis.entry) : Prop :=
  forall k, 0 <= counter r k.

(** Scenario 1 of the specification: two keys of priority 1, A with 1
    request left of 10 and B with 4 left of 5. *)
Definition key_A : ApiKeyInfo :=
  {| id := "A"; provider := "openai"; apiKey := "sk-a"; name := None;
     priority := 1; enabled := true; allowedModels := [];
     defaultModel := "gpt-4o"; dailyLimit := Some 10; usedToday := 9;
     resetDate := 1000; lastUsedAt := None |}.

Definition key_B : ApiKeyInfo :=
  {| id := "B"; provider := "openai"; apiKey := "sk-b"; name := None;
     priority := 1; enabled := true; allowedModels := [];
     defaultModel := "gpt-4o-mini"; dailyLimit := Some 5; usedToday := 1;
     resetDate := 1000; lastUsedAt := None |}.

Definition stores_AB : Stores := {| keys_table := [key_A; key_B]; redis := ∅ |}.

Definition context_auto : RoutingContext :=
  {| requestedModel := None; requestedProvider := auto;
     allowedProviders := None; allowedPriorities := None |}.

(** The rows the query of [selectKey] returns, and what the lazy reset
    makes of the table. *)
Definition candidate (context : RoutingContext) (k : ApiKeyInfo) : bool :=
  Prisma.matches (KeyManager.whereConditions context) k.

Definition lazily_reset (context : RoutingContext) (today : Date) (k : ApiKeyInfo)
  : ApiKeyInfo :=
  if candidate context k && KeyManager.stale today k
  then {| id := id k; provider := provider k; apiKey := apiKey k; name := name k;
          priority := priority k; enabled := enabled k;
          allowedModels := allowedModels k; defaultModel := defaultModel k;
          dailyLimit := dailyLimit k; usedToday := 0; resetDate := today;
          lastUsedAt := lastUsedAt k |}
  else k.

(** The allow-lists of a context, an absent one being empty. *)
Definition providers_allowed (context : RoutingContext) : list string :=
  match allowedProviders context with Some l => l | None => [] end.

Definition priorities_allowed (context : RoutingContext) : list Z :=
  match allowedPriorities context with Some l => l | None => [] end.

(** The candidate set in the words of the specification (section 4.1,
    steps 1 to 4), against which [selectKey] is compared.  Step 1, the
    query: enabled, and the provider allow-list empty or holding the
    provider of the key, and the priority allow-list empty or holding
    its priority, and the requested provider ['auto'] or the provider of
    the key. *)
Definition stated_query (context : RoutingContext) (k : ApiKeyInfo) : Prop :=
  enabled k = true
  /\ (providers_allowed context = [] \/ In (provider k) (providers_allowed context))
  /\ (priorities_allowed context = [] \/ In (priority k) (priorities_allowed context))
  /\ (requestedProvider context = auto \/ provider k = requestedProvider context).

(** Step 2, the lazy reset of a candidate whose [resetDate] precedes
    today. *)
Definition stated_reset (today : Date) (k : ApiKeyInfo) : ApiKeyInfo :=
  if Z.ltb (resetDate k) today
  then {| id := id k; provider := provider k; apiKey := apiKey k; name := name k;
          priority := priority k; enabled := enabled k;
          allowedModels := allowedModels k; defaultModel := defaultModel k;
          dailyLimit := dailyLimit k; usedToday := 0; resetDate := today;
          lastUsedAt := lastUsedAt k |}
  else k.

(** Step 3, the quota filter: a key is dropped when [dailyLimit] is set
    and [usedToday >= dailyLimit]. *)
Definition stated_quota (k : ApiKeyInfo) : Prop :=
  match dailyLimit k with
  | Some D => usedToday k < D
  | None => True
  end.

(** Step 4, the model filter, only for a requested model that is set (a
    string that is not empty): the key passes when [allowedModels] is
    empty, or holds ["*"], or the requested model itself, or an entry
    [p*] with the requested model starting with [p]. *)
Definition stated_model (context : RoutingContext) (k : ApiKeyInfo) : Prop :=
  forall m, Js.truthy (requestedModel context) = Some m ->
    allowedModels k = [] \/ In "*" (allowedModels k) \/ In m (allowedModels k) \/
    exists p suffix, In (p +:+ "*") (allowedModels k) /\ m = p +:+ suffix.

(** [k'] is in the candidate set after the four steps: a row [k] of the
    table that passes the query and, as the lazy reset leaves it, the
    two filters. *)
Definition stated_candidate (context : RoutingContext) (today : Date)
    (table : list ApiKeyInfo) (k' : ApiKeyInfo) : Prop :=
  exists k,
    In k table /\ stated_query context k /\ k' = stated_reset today k
    /\ stated_quota k' /\ stated_model context k'.

(** The contexts in which a requested provider and the provider
    allow-list do not contradict each other: no provider is requested,
    or there is no allow-list, or the requested provider is on it. *)
Definition provider_on_allow_list (context : RoutingContext) : Prop :=
  requestedProvider context = auto
  \/ providers_allowed context = []
  \/ In (requestedProvider context) (providers_allowed context).

(** A request for a provider that its own allow-list leaves out. *)
Definition context_anthropic_not_allowed : RoutingContext :=
  {| requestedModel := None; requestedProvider := "anthropic";
     allowedProviders := Some ["openai"]; allowedPriorities := None |}.

(** A key whose reset date is past and whose allow-list admits only
    ["gpt-4*"]. *)
Definition key_S : ApiKeyInfo :=
  {| id := "S"; provider := "openai"; apiKey := "sk-s"; name := None;
     priority := 1; enabled := true; allowedModels := ["gpt-4*"];
     defaultModel := "gpt-4o"; dailyLimit := Some 5; usedToday := 7;
     resetDate := 500; lastUsedAt := None |}.

(** A key of another provider, its reset date past as well. *)
Definition key_N : ApiKeyInfo :=
  {| id := "N"; provider := "anthropic"; apiKey := "sk-n"; name := None;
     priority := 1; enabled := true; allowedModels := [];
     defaultModel := "claude-3-opus-latest"; dailyLimit := None; usedToday := 3;
     resetDate := 500; lastUsedAt := None |}.

Definition stores_SN : Stores := {| keys_table := [key_S; key_N]; redis := ∅ |}.

(** A key used 5 times of 10 today; with [key_S], used 7 times of 5
    on a day past, it makes a table whose two keys both have 5 left
    once [key_S] is reset. *)
Definition key_F : ApiKeyInfo :=
  {| id := "F"; provider := "openai"; apiKey := "sk-f"; name := None;
     priority := 1; enabled := true; allowedModels := [];
     defaultModel := "gpt-4o"; dailyLimit := Some 10; usedToday := 5;
     resetDate := 1000; lastUsedAt := None |}.

Definition stores_SF : Stores := {| keys_table := [key_S; key_F]; redis := ∅ |}.

Definition context_claude : RoutingContext :=
  {| requestedModel := Some "claude-3-opus"; requestedProvider := "openai";
     allowedProviders := None; allowedPriorities := Some [1] |}.

(** Consecutive calls of [getNextRoundRobinIndex] for one group of
    [totalKeys] keys, one call per element of [pauses], each made that
    many milliseconds after the call before it (the first one, after the
    store was as given): the indices they return, and the store they
    leave. *)
Fixpoint rr_indices (pauses : list Z) (prov : string) (prio totalKeys : Z)
    (s : gmap string Redis.entry) : list Js.number * gmap string Redis.entry :=
  match pauses with
  | [] => ([], s)
  | pause :: pauses' =>
      let '(i, s1) :=
        Redis.getNextRoundRobinIndex prov prio totalKeys (Redis.elapse pause s) in
      let '(l, s2) := rr_indices pauses' prov prio totalKeys s1 in
      (i :: l, s2)
  end.

(** Consecutive calls of [selectRoundRobin] on one group, in the same
    way. *)
Fixpoint rr_selections (pauses : list Z) (keys : list ApiKeyInfo) (prio : Z)
    (s : gmap string Redis.entry) : list (option ApiKeyInfo) * gmap string Redis.entry :=
  match pauses with
  | [] => ([], s)
  | pause :: pauses' =>
      let '(k, s1) := KeyManager.selectRoundRobin keys prio (Redis.elapse pause s) in
      let '(l, s2) := rr_selections pauses' keys prio s1 in
      (k :: l, s2)
  end.

(** The time to live [getNextRoundRobinIndex] gives its counter. *)
Definition counter_ttl : Z := 3600 * 1000.

(** How many of the indices are [i]. *)
Definition count_index (i : Z) (l : list Js.number) : nat :=
  List.length
    (List.filter (fun x => match x with Js.Fin z => Z.eqb z i | _ => false end) l).

(** The attempt numbers of a trace, in order. *)
Definition attempts_of (tr : list Router.Event) : list Z :=
  List.flat_map
    (fun ev => match ev with Router.EvAttempt i _ => [i] | Router.EvSleep _ => [] end) tr.

(** The error of the last failed attempt of a trace. *)
Fixpoint last_failure (tr : list Router.Event) : option Error :=
  match tr with
  | [] => None
  | ev :: tr' =>
      match last_failure tr' with
      | Some e => Some e
      | None =>
          match ev with
          | Router.EvAttempt _ (Router.Failed e) => Some e
          | _ => None
          end
      end
  end.

(** The sleeps of a trace, in order: the delays [sleep] was called
    with. *)
Definition sleeps_of (tr : list Router.Event) : list Q :=
  List.flat_map
    (fun ev => match ev with Router.EvAttempt _ _ => [] | Router.EvSleep ms => [ms] end) tr.

Definition sum_Z (l : list Z) : Z := List.fold_right Z.add 0 l.

(** An error that ends the retry loop at once: a gateway error with a
    status from 400 to 499 other than 429. *)
Definition not_retried (e : Error) : Prop :=
  exists g, e = GatewayError g /\ 400 <= statusCode g <= 499 /\ statusCode g <> 429.

(** The time a sleep called with the delay [ms] lasts, [d] whole
    milliseconds: the whole part of [ms] when [ms] lies between 1 and
    [2^31 - 1], and one millisecond otherwise. *)
Definition sleep_lasts (ms : Q) (d : Z) : Prop :=
  ((1 <= ms /\ ms <= 2147483647)%Q -> (inject_Z d <= ms /\ ms < inject_Z (d + 1))%Q)
  /\ (~ (1 <= ms /\ ms <= 2147483647)%Q -> d = 1).

(** The traces a retry loop standing at attempt [i] can leave: nothing
    when [i] is not below [maxRetries]; one attempt that succeeds, or
    fails with an error that is not retried, or fails with [i] not below
    [maxRetries - 1]; or a failed attempt, the backoff sleep, and the
    trace of the loop standing at attempt [i + 1], which starts with
    that attempt. *)
Inductive scheduled (maxRetries retryDelayMs : Q) : Z -> list Router.Event -> Prop :=
| sched_none (i : Z) :
    (maxRetries <= inject_Z i)%Q -> scheduled maxRetries retryDelayMs i []
| sched_success (i : Z) :
    (inject_Z i < maxRetries)%Q ->
    scheduled maxRetries retryDelayMs i [Router.EvAttempt i Router.Succeeded]
| sched_abort (i : Z) (e : Error) :
    (inject_Z i < maxRetries)%Q -> not_retried e ->
    scheduled maxRetries retryDelayMs i [Router.EvAttempt i (Router.Failed e)]
| sched_last (i : Z) (e : Error) :
    (inject_Z i < maxRetries)%Q -> ~ (inject_Z i < maxRetries - 1)%Q -> ~ not_retried e ->
    scheduled maxRetries retryDelayMs i [Router.EvAttempt i (Router.Failed e)]
| sched_retry (i : Z) (e : Error) (o : Router.Outcome) (tr : list Router.Event) :
    (inject_Z i < maxRetries - 1)%Q -> ~ not_retried e ->
    scheduled maxRetries retryDelayMs (i + 1) (Router.EvAttempt (i + 1) o :: tr) ->
    scheduled maxRetries retryDelayMs i
      (Router.EvAttempt i (Router.Failed e)
       :: Router.EvSleep (retryDelayMs * inject_Z (2 ^ i))
       :: Router.EvAttempt (i + 1) o :: tr).

(** What the retry loop does after attempt [i] ended with [o]: [post] is
    the rest of the trace. *)
Definition after_attempt (maxRetries retryDelayMs : Q) (i : Z) (o : Router.Outcome)
    (post : list Router.Event) : Prop :=
  match o with
  | Router.Succeeded => post = []
  | Router.Failed e =>
      (not_retried e -> post = [])
      /\ (~ not_retried e ->
          ((inject_Z i < maxRetries - 1)%Q ->
           exists o' post',
             post = Router.EvSleep (retryDelayMs * inject_Z (2 ^ i))
                    :: Router.EvAttempt (i + 1) o' :: post')
          /\ (~ (inject_Z i < maxRetries - 1)%Q -> post = []))
  end.

(** A run to evaluate: three attempts with a base delay of one second,
    against an upstream that always answers 500, on the two keys of
    scenario 1 at time 1000 of the day that started at 0. *)
Definition demo_providerConfigs (prov : string) : option (string * Z) :=
  Some ("https://upstream.example/v1", 60000).

Definition demo_RegExp_test (src m : string) : option bool := None.

Definition demo_startOfDay (t : Z) : Date := t - t mod 86400000.

Definition demo_chat_500 (attempt : Z) (prov : string) (req : Router.ProviderRequest)
    (cfg : Router.ProviderConfig) : result Router.ChatResponse * Z :=
  (Err (GatewayError (ProviderError prov "upstream failed" 500)), 25).

Definition demo_request : Router.ChatRequest :=
  {| Router.messages := [ {| Router.role := "user"; Router.content := "Hello" |} ];
     Router.model := None;
     Router.req_provider := auto;
     Router.req_allowedProviders := None;
     Router.req_allowedPriorities := None;
     Router.stream := false;
     Router.requestId := Some "req-1" |}.

Definition demo_world : Router.World :=
  {| Router.stores := stores_AB; Router.usage_log := []; Router.now := 1000 |}.

Definition demo_route :=
  Router.route ExhaustFirst 3 1000 demo_providerConfigs demo_RegExp_test
    demo_startOfDay demo_chat_500 demo_request demo_world.

Definition already_attempted : Error :=
  GatewayError (ProviderError "openai" "Key already attempted, trying next" 503).

(** What the broker does with a job whose processor threw [e]: back to
    the queue with the backoff delay while attempts are left, failed
    otherwise. *)
Definition rescheduled_or_failed (j : Queue.Job) (e : Error) : Prop :=
  let j' := fst (Queue.settle j (Worker.Throws e)) in
  if Z.ltb (Queue.attemptsMade j + 1) Queue.attempts
  then Queue.job_state j' = Queue.delayed
       /\ Queue.job_delay j' = Some (Queue.backoff_delay * 2 ^ Queue.attemptsMade j)
       /\ Queue.attemptsMade j' = Queue.attemptsMade j + 1
  else Queue.job_state j' = Queue.failed
       /\ Queue.failedReason j' = Some (error_message e).

Definition world_without_keys : Router.World :=
  {| Router.stores := {| keys_table := []; redis := ∅ |};
     Router.usage_log := []; Router.now := 1000 |}.

Definition no_key_for_demo : Error :=
  GatewayError (NoEligibleKeyError None (Some auto)).

(** A request enqueued on a fresh queue, processed to a result before
    anyone waits for it. *)
Definition fresh_broker : Queue.Broker := {| Queue.id_counter := 0; Queue.jobs := ∅ |}.

Definition demo_enqueue : string * Queue.Broker :=
  Queue.enqueueChatRequest demo_request None None "f47ac10b" 1000 fresh_broker.

Definition demo_result : Worker.QueueJobResult :=
  {| Worker.success := true; Worker.response := None; Worker.error := None;
     Worker.keyId := Some "B"; Worker.res_provider := Some "openai";
     Worker.res_model := Some "gpt-4o-mini"; Worker.latencyMs := Some 25 |}.

Definition demo_finished : Queue.Broker * option Queue.QueueEvent :=
  Queue.finish "1" (Worker.Returns demo_result) (snd demo_enqueue).

(** What is claimed of [validateModel] for an adapter [a] and a model
    [m]: some supported entry equals [m], or is a prefix of [m], or
    contains ['*'] and matches [m] as a regular expression once its first
    ['*'] is replaced by ['.*']. *)
Definition some_entry_matches (RegExp_test : string -> string -> option bool)
    (a : Providers.ProviderAdapter) (m : string) : Prop :=
  exists s,
    In s (Providers.supportedModels a)
    /\ (s = m
        \/ Js.startsWith m s = true
        \/ (Js.includesChar s "*" = true
            /\ RegExp_test (Js.replaceFirstChar s "*" ".*") m = Some true)).

(* ====================================================================== *)
(** ** Vocabulary of the further properties *)
(* ====================================================================== *)

(** What the lazy reset may do to a row: nothing, or put its count at 0
    with a new reset date. *)
Definition unchanged_or_reset (k k' : ApiKeyInfo) : Prop :=
  k' = k \/ exists today, k' = Prisma.set_reset today k.

(** A row after a request that was served with the key [keyId] at time
    [now]: lazily reset or not, and with one use more when it is the
    row of that key. *)
Definition charged (keyId : string) (now : Z) (k k' : ApiKeyInfo) : Prop :=
  if String.eqb (id k) keyId
  then exists k1, unchanged_or_reset k k1 /\ k' = Prisma.set_used now k1
  else unchanged_or_reset k k'.

(** An upstream that answers every call after 40 ms. *)
Definition demo_response : Router.ChatResponse :=
  {| Router.resp_id := "chatcmpl-1"; Router.resp_provider := "openai";
     Router.resp_model := "gpt-4o-mini";
     Router.resp_choices := [ {| Router.role := "assistant"; Router.content := "Hi" |} ];
     Router.resp_usage := Some {| Router.promptTokens := 3; Router.completionTokens := 1;
                                  Router.totalTokens := 4 |};
     Router.resp_created := 1040 |}.

Definition demo_chat_ok (attempt : Z) (prov : string) (req : Router.ProviderRequest)
    (cfg : Router.ProviderConfig) : result Router.ChatResponse * Z :=
  (Ok demo_response, 40).

Definition demo_route_ok :=
  Router.route ExhaustFirst 3 1000 demo_providerConfigs demo_RegExp_test
    demo_startOfDay demo_chat_ok demo_request demo_world.

(** The key table after a run of the router that was served with the
    key of [served], or not served at all. *)
Definition table_after (served : option Router.Metadata) (w w' : Router.World) : Prop :=
  match served with
  | Some metadata =>
      List.Forall2 (charged (Router.meta_keyId metadata) (Router.now w'))
        (keys_table (Router.stores w)) (keys_table (Router.stores w'))
  | None =>
      List.Forall2 unchanged_or_reset
        (keys_table (Router.stores w)) (keys_table (Router.stores w'))
  end.

Definition served_by {A : Type} (x : result (A * Router.Metadata)) : option Router.Metadata :=
  match x with
  | Ok (_, metadata) => Some metadata
  | Err _ => None
  end.

Definition exit_served (x : Router.LoopExit) : option Router.Metadata :=
  match x with
  | Router.Returned (_, metadata) => Some metadata
  | Router.Fell _ => None
  end.

(** What a served request leaves behind: a row of the key table for the
    key of the metadata, used at the time of the response, the model of
    the metadata being the requested one or else the default model of
    that key; and one more row in the usage log, a success row with the
    data of the metadata. *)
Definition served (reqId : string) (startTime : Z) (request : Router.ChatRequest)
    (resp : Router.ChatResponse) (metadata : Router.Metadata)
    (log : list Router.UsageLogEntry) (w' : Router.World) : Prop :=
  (exists k, In k (keys_table (Router.stores w'))
             /\ id k = Router.meta_keyId metadata
             /\ provider k = Router.meta_provider metadata
             /\ lastUsedAt k = Some (Router.now w')
             /\ Router.meta_model metadata
                = match Js.truthy (Router.model request) with
                  | Some m => m
                  | None => defaultModel k
                  end)
  /\ Router.usage_log w'
     = (log ++ [ {| Router.log_keyId := Router.meta_keyId metadata;
                    Router.log_provider := Router.meta_provider metadata;
                    Router.log_model := Router.meta_model metadata;
                    Router.log_requestedModel := Router.model request;
                    Router.log_promptTokens :=
                      option_map Router.promptTokens (Router.resp_usage resp);
                    Router.log_completionTokens :=
                      option_map Router.completionTokens (Router.resp_usage resp);
                    Router.log_totalTokens :=
                      option_map Router.totalTokens (Router.resp_usage resp);
                    Router.log_latencyMs := Router.meta_latencyMs metadata;
                    Router.log_success := true;
                    Router.log_errorMessage := None;
                    Router.log_requestId := reqId |} ])%list
  /\ Router.meta_latencyMs metadata = Router.now w' - startTime.

(** Two requests served at the same time: the second is routed while
    the first awaits its provider call; the first call comes back after
    [t1] ms and the second [t2] ms later, each with a response.  Every
    step takes the world as the step before left it.  The result is the
    metadata of the two requests and the world they leave. *)
Definition served_together (strategy : KeySelectionStrategy)
    (providerConfigs : string -> option (string * Z))
    (RegExp_test : string -> string -> option bool) (startOfDay : Z -> Date)
    (request1 request2 : Router.ChatRequest) (reqId1 reqId2 : string)
    (resp1 resp2 : Router.ChatResponse) (t1 t2 : Z) (w : Router.World)
  : option (Router.Metadata * Router.Metadata * Router.World) :=
  match Router.before_chat strategy providerConfigs RegExp_test startOfDay request1 ∅ w with
  | (Ok call1, _, w1) =>
      match Router.before_chat strategy providerConfigs RegExp_test startOfDay
              request2 ∅ w1 with
      | (Ok call2, _, w2) =>
          match Router.after_chat request1 reqId1 (Router.now w) call1 (Ok resp1)
                  (Router.pass t1 w2) with
          | (Ok (_, metadata1), w3) =>
              match Router.after_chat request2 reqId2 (Router.now w1) call2 (Ok resp2)
                      (Router.pass t2 w3) with
              | (Ok (_, metadata2), w4) => Some (metadata1, metadata2, w4)
              | (Err _, _) => None
              end
          | (Err _, _) => None
          end
      | (Err _, _, _) => None
      end
  | (Err _, _, _) => None
  end.

(** A key table with one request left for the day: key A of scenario 1
    alone, used 9 times of 10. *)
Definition world_one_left : Router.World :=
  {| Router.stores := {| keys_table := [key_A]; redis := ∅ |};
     Router.usage_log := []; Router.now := 1000 |}.

Definition demo_request_2 : Router.ChatRequest :=
  {| Router.messages := [ {| Router.role := "user"; Router.content := "Hello again" |} ];
     Router.model := None;
     Router.req_provider := auto;
     Router.req_allowedProviders := None;
     Router.req_allowedPriorities := None;
     Router.stream := false;
     Router.requestId := Some "req-2" |}.



(** A request for a provider that has no key in [stores_AB]. *)
Definition request_groq : Router.ChatRequest :=
  {| Router.messages := [ {| Router.role := "user"; Router.content := "Hello" |} ];
     Router.model := None;
     Router.req_provider := "groq";
     Router.req_allowedProviders := None;
     Router.req_allowedPriorities := None;
     Router.stream := false;
     Router.requestId := Some "req-2" |}.

(** The adapters whose alias maps name no model that their own
    [validateModel] accepts. *)
Definition aliases_unreachable (a : Providers.ProviderAdapter) : bool :=
  Prisma.in_strings (Providers.adapter_name a)
    ["anthropic"; "mistral"; "groq"; "deepseek"].

(** A status of the 4xx range other than 429: what the router does not
    retry. *)
Definition client_error (status : Z) : bool :=
  Z.leb 400 status && Z.leb status 499 && negb (Z.eqb status 429).

(** An upstream that answers 404 with a body that speaks of a rate
    limit. *)
Definition upstream_404 (request : OpenAICompatible.FetchRequest)
  : OpenAICompatible.Upstream :=
  OpenAICompatible.Replies 404 "rate limit docs: model gpt-5 not found"
    (inl OpenAICompatible.CaughtValue).

Definition demo_provider_request : Router.ProviderRequest :=
  {| Router.pr_messages := [ {| Router.role := "user"; Router.content := "Hello" |} ];
     Router.pr_model := "gpt-5";
     Router.pr_stream := true |}.

Definition demo_provider_config : Router.ProviderConfig :=
  {| Router.cfg_apiKey := "sk-a";
     Router.cfg_baseUrl := "https://upstream.example/v1";
     Router.cfg_timeout := 60000 |}.

(** The tries of [routeWithKeys] that failed, one for each key of [l]. *)
Definition failed_tries (l : list ApiKeyInfo) : list (ApiKeyInfo * bool) :=
  List.map (fun k => (k, false)) l.

(** The keys [routeWithKeys] tries, in the order it tries them. *)
Definition user_keys_in_order (request : Router.ChatRequest) (keys : list ApiKeyInfo)
  : list ApiKeyInfo :=
  Js.sort (fun a b => Js.Fin (priority a - priority b))
    (List.filter (UserRouter.eligible request) keys).

(** The routing context of a request without its two allow-lists. *)
Definition context_without_allow_lists (request : Router.ChatRequest) : RoutingContext :=
  {| requestedModel := Router.model request;
     requestedProvider := Router.req_provider request;
     allowedProviders := None;
     allowedPriorities := None |}.

(** An upstream that fails the first call and answers the second. *)
Definition demo_chat_second (n : Z) (prov : string) (req : Router.ProviderRequest)
    (cfg : Router.ProviderConfig) : result Router.ChatResponse * Z :=
  if Z.eqb n 0
  then (Err (GatewayError (ProviderError prov "upstream failed" 500)), 25)
  else (Ok demo_response, 40).

Definition demo_routeWithKeys :=
  UserRouter.routeWithKeys demo_providerConfigs demo_RegExp_test demo_chat_second
    demo_request [key_A; key_B] demo_world.

(** A waiter that is still waiting holds its two listeners and its
    timer; a settled one has let go of them. *)
Definition tidy (w : Queue.Waiter) : Prop :=
  match Queue.settled w with
  | None => Queue.listening w = true /\ Queue.timer w = true
  | Some _ => Queue.listening w = false /\ Queue.timer w = false
  end.

(** A stimulus that does not concern the waiter of [requestId]: an event
    of another job, or a lookup that finds no job or a job that has not
    finished. *)
Definition passes_by (requestId : string) (s : Queue.Stimulus) : Prop :=
  match s with
  | Queue.OnEvent (Queue.Completed jobId _) | Queue.OnEvent (Queue.FailedEv jobId _) =>
      jobId <> requestId
  | Queue.OnTimeout => False
  | Queue.OnLookup None => True
  | Queue.OnLookup (Some job) =>
      match Queue.job_state job, Queue.returnvalue job with
      | Queue.completed, Some _ => False
      | Queue.failed, _ => False
      | _, _ => True
      end
  end.

(** The rows of a group, and counting in a list. *)
Definition rows_of (groupBy : UsageTracker.GroupBy) (g : string)
    (logs : list Router.UsageLogEntry) : list Router.UsageLogEntry :=
  List.filter (fun log => String.eqb (UsageTracker.groupKey groupBy log) g) logs.

Definition how_many {A : Type} (p : A -> bool) (l : list A) : Z :=
  Z.of_nat (List.length (List.filter p l)).

(** The statistics of a group, when it has any. *)
Definition stats_of (g : string) (stats : list UsageTracker.Stats)
  : option UsageTracker.Stats :=
  List.find (fun s => String.eqb (UsageTracker.group s) g) stats.

(** The totals that counting the rows of a list, one after the other,
    arrives at. *)
Definition totals_of (rows : list Router.UsageLogEntry) : UsageTracker.Totals :=
  List.fold_left (fun t log => UsageTracker.count log t) rows UsageTracker.zero.

(** The groups of [getUsageStats] after the rows [seen]. *)
Definition grouped_rows (groupBy : UsageTracker.GroupBy)
    (seen : list Router.UsageLogEntry) (grouped : list (string * UsageTracker.Totals))
  : Prop :=
  List.NoDup (List.map fst grouped)
  /\ (forall g t, In (g, t) grouped ->
        t = totals_of (rows_of groupBy g seen) /\ rows_of groupBy g seen <> [])
  /\ (forall log, In log seen -> In (UsageTracker.groupKey groupBy log) (List.map fst grouped))
  /\ sum_Z (List.map (fun e => UsageTracker.totalRequests (snd e)) grouped)
     = Z.of_nat (List.length seen).

(** A count of a group in the statistics, 0 while the group has no
    statistics. *)
Definition count_in (field : UsageTracker.Stats -> Z) (g : string)
    (stats : list UsageTracker.Stats) : Z :=
  match stats_of g stats with
  | Some s => field s
  | None => 0
  end.

(** A key table none of whose rows is due for a daily reset at any
    instant from [lo] to [hi]. *)
Definition fresh_during (startOfDay : Z -> Date) (table : list ApiKeyInfo) (lo hi : Z)
  : Prop :=
  forall t k, lo <= t <= hi -> In k table -> startOfDay t <= resetDate k.

(** What exhaust-first selects from a table on the day [today]. *)
Definition first_choice (today : Date) (context : RoutingContext)
    (table : list ApiKeyInfo) : result KeySelectionResult :=
  fst (KeyManager.selectKey ExhaustFirst context today
         {| keys_table := table; redis := ∅ |}).

(** The error of [selectKeyWithFallback] for a key already tried. *)
Definition already_attempted_error (prov : string) : Error :=
  GatewayError (ProviderError prov "Key already attempted, trying next" 503).

(** An attempt that ended in the selection of the key, before any call
    to a provider. *)
Definition ended_in_selection (context : RoutingContext) (ev : Router.Event) : Prop :=
  match ev with
  | Router.EvAttempt _ o =>
      o = Router.Failed (KeyManager.no_eligible_key context)
      \/ exists prov, o = Router.Failed (already_attempted_error prov)
  | Router.EvSleep _ => True
  end.

(** The retry loop can select no key that it has not tried. *)
Definition blocked (today : Date) (context : RoutingContext)
    (attempted : gset string) (table : list ApiKeyInfo) : Prop :=
  match first_choice today context table with
  | Ok selection => id (key selection) ∈ attempted
  | Err _ => True
  end.

(* ====================================================================== *)
(** * Properties *)
(* ====================================================================== *)

(** ** Strings *)

Lemma startsWith_app (p suffix : string) : Js.startsWith (p +:+ suffix) p = true.
Proof.
  induction p as [|c p IH]; simpl.
  - now destruct suffix.
  - rewrite Ascii.eqb_refl. exact IH.
Qed.

Lemma startsWith_spec (m p : string) :
  Js.startsWith m p = true <-> exists suffix, m = p +:+ suffix.
Proof.
  split.
  - revert m. induction p as [|c p IH]; intros m H.
    + exists m. reflexivity.
    + destruct m as [|d m]; simpl in H; [discriminate|].
      apply andb_true_iff in H as [Hc Hm].
      apply Ascii.eqb_eq in Hc. subst d.
      destruct (IH _ Hm) as [suffix ->]. exists suffix. reflexivity.
  - intros [suffix ->]. apply startsWith_app.
Qed.

Lemma endsWithChar_slice (s : string) (c : ascii) :
  Js.endsWithChar s c = true -> s = Js.slice_0_m1 s +:+ String c EmptyString.
Proof.
  induction s as [|d s IH]; simpl; [discriminate|].
  destruct s as [|e s].
  - intros H. apply Ascii.eqb_eq in H. now subst.
  - intros H. rewrite (IH H) at 1. reflexivity.
Qed.

Lemma endsWithChar_app (p : string) (c : ascii) :
  Js.endsWithChar (p +:+ String c EmptyString) c = true.
Proof.
  induction p as [|d p IH]; simpl.
  - apply Ascii.eqb_refl.
  - destruct (p +:+ String c EmptyString) eqn:E; [now destruct p|exact IH].
Qed.

Lemma slice_app (p : string) (c : ascii) :
  Js.slice_0_m1 (p +:+ String c EmptyString) = p.
Proof.
  induction p as [|d p IH]; simpl; [reflexivity|].
  destruct (p +:+ String c EmptyString) eqn:E; [now destruct p|].
  now rewrite IH.
Qed.

(** ** Eligibility filter *)

Lemma allowed_entry_spec (m allowed : string) :
  KeyManager.allowed_entry m allowed = true <->
  allowed = m \/ allowed = "*" \/
  exists p suffix, allowed = p +:+ "*" /\ m = p +:+ suffix.
Proof.
  unfold KeyManager.allowed_entry.
  rewrite !orb_true_iff, andb_true_iff, !String.eqb_eq.
  split.
  - intros [[H|H]|[He Hs]]; auto.
    right; right. apply startsWith_spec in Hs as [suffix Hs].
    exists (Js.slice_0_m1 allowed), suffix. split; [|exact Hs].
    now apply endsWithChar_slice.
  - intros [H|[H|(p & suffix & Ha & Hm)]]; auto.
    right. subst. rewrite slice_app. split.
    + apply endsWithChar_app.
    + apply startsWith_app.
Qed.

Lemma isAllowed_spec (k : ApiKeyInfo) (m : string) :
  KeyManager.isAllowed k m = true <->
  allowedModels k = [] \/ In "*" (allowedModels k) \/ In m (allowedModels k) \/
  exists p suffix, In (p +:+ "*") (allowedModels k) /\ m = p +:+ suffix.
Proof.
  unfold KeyManager.isAllowed.
  destruct (allowedModels k) as [|a l] eqn:E.
  - split; auto.
  - rewrite existsb_exists. split.
    + intros (x & Hin & Hx). right.
      apply allowed_entry_spec in Hx as [->|[->|(p & suffix & -> & ->)]]; eauto 8.
    + intros [H|[H|[H|(p & suffix & Hin & ->)]]]; [discriminate| | |].
      * exists "*". split; [exact H|]. apply allowed_entry_spec. auto.
      * exists m. split; [exact H|]. apply allowed_entry_spec. auto.
      * exists (p +:+ "*"). split; [exact Hin|]. apply allowed_entry_spec. eauto 8.
Qed.

Lemma has_quota_spec (k : ApiKeyInfo) :
  KeyManager.has_quota k = true <->
  match dailyLimit k with Some D => usedToday k < D | None => True end.
Proof.
  unfold KeyManager.has_quota. destruct (dailyLimit k) as [D|]; [|tauto].
  rewrite negb_true_iff, Z.geb_leb, Z.leb_gt. tauto.
Qed.

Lemma eligible_spec (rm : option string) (k : ApiKeyInfo) :
  KeyManager.eligible rm k = true <->
  KeyManager.has_quota k = true /\
  forall m, Js.truthy rm = Some m -> KeyManager.isAllowed k m = true.
Proof.
  unfold KeyManager.eligible.
  destruct (KeyManager.has_quota k); simpl.
  - destruct (Js.truthy rm) as [m|].
    + destruct (KeyManager.isAllowed k m) eqn:E; simpl.
      * split; auto. intros _. split; auto. intros ? [= <-]. exact E.
      * split; [discriminate|]. intros [_ H]. rewrite (H m eq_refl) in E. discriminate.
    + split; auto. intros _. split; auto. discriminate.
  - split; [discriminate|]. intros [H _]. discriminate.
Qed.

(** C3.  [filterEligibleKeys] keeps a key exactly when it has quota left
    and, if a model is requested, its allow-list admits that model.
    Quota: [dailyLimit] is unset, or [usedToday < dailyLimit]; so a key
    with [dailyLimit = D] is dropped exactly when [usedToday >= D], and a
    key without [dailyLimit] is never dropped for quota.  Model: the
    allow-list is empty, or contains ["*"], or contains the requested
    model itself, or contains an entry [p*] with the requested model
    starting with [p].  A model is requested when [requestedModel] is a
    non-empty string (the source tests its truthiness).  The last three
    conjuncts are the example: ["gpt-4*"] admits ["gpt-4o"] and
    ["gpt-4-turbo"] and not ["gpt-3.5-turbo"]. *)
Theorem filterEligibleKeys_keeps_iff :
  (forall (keys : list ApiKeyInfo) (requested : option string) (k : ApiKeyInfo),
      In k (KeyManager.filterEligibleKeys keys requested) <->
      In k keys /\
      match dailyLimit k with Some D => usedToday k < D | None => True end /\
      forall m, Js.truthy requested = Some m ->
        allowedModels k = [] \/ In "*" (allowedModels k) \/ In m (allowedModels k) \/
        exists p suffix, In (p +:+ "*") (allowedModels k) /\ m = p +:+ suffix)
  /\ (forall k : ApiKeyInfo,
         KeyManager.has_quota k = false <->
         exists D, dailyLimit k = Some D /\ usedToday k >= D)
  /\ KeyManager.allowed_entry "gpt-4o" "gpt-4*" = true
  /\ KeyManager.allowed_entry "gpt-4-turbo" "gpt-4*" = true
  /\ KeyManager.allowed_entry "gpt-3.5-turbo" "gpt-4*" = false.
Proof.
  split; [|split; [|repeat split]].
  - intros keys requested k. unfold KeyManager.filterEligibleKeys.
    rewrite filter_In, eligible_spec, has_quota_spec.
    split.
    + intros (Hin & Hq & Hm). repeat split; auto.
      intros m Hr. apply isAllowed_spec. now apply Hm.
    + intros (Hin & Hq & Hm). repeat split; auto.
      intros m Hr. apply isAllowed_spec. now apply Hm.
  - intros k. unfold KeyManager.has_quota.
    destruct (dailyLimit k) as [D|].
    + rewrite negb_false_iff, Z.geb_leb, Z.leb_le. split.
      * intros H. exists D. split; [reflexivity|lia].
      * intros (D' & [= <-] & H). lia.
    + split; [discriminate|]. intros (D & HD & _). discriminate.
Qed.

(** ** Stable sorting *)

Section StableSort.
Context {A : Type} (cmp : A -> A -> comparison).

Lemma sort_insert_In (x y : A) (l : list A) :
  In y (Js.sort_insert cmp x l) <-> y = x \/ In y l.
Proof.
  induction l as [|z l IH]; simpl.
  - intuition auto.
  - destruct (cmp x z); simpl; try rewrite IH; intuition auto.
Qed.

Lemma stable_sort_In (y : A) (l : list A) :
  In y (Js.stable_sort cmp l) <-> In y l.
Proof.
  induction l as [|x l IH]; simpl; [tauto|].
  rewrite sort_insert_In, IH. intuition auto.
Qed.

Lemma stable_sort_nil (l : list A) :
  Js.stable_sort cmp l = [] <-> l = [].
Proof.
  split; [|now intros ->].
  destruct l as [|x l]; [reflexivity|]. intros H. exfalso.
  assert (Hin : In x (Js.stable_sort cmp (x :: l))) by (apply stable_sort_In; now left).
  rewrite H in Hin. exact Hin.
Qed.

(** The comparison is that of a total preorder: "not greater" is
    transitive, and two elements are never each greater than the
    other. *)
Hypothesis cmp_trans :
  forall x y z, cmp x y <> Gt -> cmp y z <> Gt -> cmp x z <> Gt.
Hypothesis cmp_asym :
  forall x y, cmp x y = Gt -> cmp y x <> Gt.

(** The first element of the sorted list is the FIRST of the least
    elements of the list: everything in front of it is greater,
    nothing behind it is smaller. *)
Lemma stable_sort_head (l : list A) :
  l <> [] ->
  exists k rest before after,
    Js.stable_sort cmp l = k :: rest /\
    l = (before ++ k :: after)%list /\
    Forall (fun y => cmp y k = Gt) before /\
    Forall (fun y => cmp k y <> Gt) after.
Proof.
  induction l as [|x l IH]; [congruence|]. intros _.
  destruct l as [|x' l'].
  - exists x, [], [], []. simpl. auto.
  - destruct IH as (h & rest & before & after & Hs & Hl & Hb & Ha); [discriminate|].
    change (Js.stable_sort cmp (x :: x' :: l'))
      with (Js.sort_insert cmp x (Js.stable_sort cmp (x' :: l'))).
    rewrite Hs, Hl. simpl.
    destruct (cmp x h) eqn:E.
    + exists x, (h :: rest), [], (before ++ h :: after)%list.
      repeat split; auto.
      apply List.Forall_app. split.
      * eapply List.Forall_impl; [|exact Hb]. simpl. intros y Hy.
        apply (cmp_trans x h y); [congruence|]. now apply cmp_asym.
      * constructor; [congruence|].
        eapply List.Forall_impl; [|exact Ha]. simpl. intros y Hy.
        apply (cmp_trans x h y); [congruence|exact Hy].
    + exists x, (h :: rest), [], (before ++ h :: after)%list.
      repeat split; auto.
      apply List.Forall_app. split.
      * eapply List.Forall_impl; [|exact Hb]. simpl. intros y Hy.
        apply (cmp_trans x h y); [congruence|]. now apply cmp_asym.
      * constructor; [congruence|].
        eapply List.Forall_impl; [|exact Ha]. simpl. intros y Hy.
        apply (cmp_trans x h y); [congruence|exact Hy].
    + exists h, (Js.sort_insert cmp x rest), (x :: before), after.
      repeat split; auto.
Qed.

Lemma sort_insert_sorted (x : A) (l : list A) :
  StronglySorted (fun a b => cmp a b <> Gt) l ->
  StronglySorted (fun a b => cmp a b <> Gt) (Js.sort_insert cmp x l).
Proof.
  induction 1 as [|z l Hs IH Hz]; simpl.
  - repeat constructor.
  - destruct (cmp x z) eqn:E.
    + constructor; [now constructor|]. constructor; [congruence|].
      eapply List.Forall_impl; [|exact Hz]. simpl. intros y Hy.
      apply (cmp_trans x z y); [congruence|exact Hy].
    + constructor; [now constructor|]. constructor; [congruence|].
      eapply List.Forall_impl; [|exact Hz]. simpl. intros y Hy.
      apply (cmp_trans x z y); [congruence|exact Hy].
    + constructor; [exact IH|].
      apply List.Forall_forall. intros y Hy. apply sort_insert_In in Hy as [->|Hy].
      * now apply cmp_asym.
      * rewrite List.Forall_forall in Hz. now apply Hz.
Qed.

Lemma stable_sort_sorted (l : list A) :
  StronglySorted (fun a b => cmp a b <> Gt) (Js.stable_sort cmp l).
Proof.
  induction l as [|x l IH]; simpl; [constructor|].
  now apply sort_insert_sorted.
Qed.
End StableSort.

(** ** Grouping by priority *)

Lemma map_push_keys (p : Z) (k : ApiKeyInfo) (g : list (Z * list ApiKeyInfo)) :
  (In p (List.map fst g) /\ List.map fst (KeyManager.map_push p k g) = List.map fst g)
  \/ (~ In p (List.map fst g)
      /\ List.map fst (KeyManager.map_push p k g) = (List.map fst g ++ [p])%list).
Proof.
  induction g as [|[q ks] g IH]; simpl.
  - right. split; [tauto|reflexivity].
  - destruct (Z.eqb_spec q p) as [->|Hne]; simpl.
    + left. split; [now left|reflexivity].
    + destruct IH as [[Hin E]|[Hn E]]; rewrite E.
      * left. split; [now right|reflexivity].
      * right. split; [|reflexivity]. intros [H|H]; [congruence|contradiction].
Qed.

Lemma map_push_entries (p : Z) (k : ApiKeyInfo) (g : list (Z * list ApiKeyInfo)) :
  List.NoDup (List.map fst g) ->
  forall q ks, In (q, ks) (KeyManager.map_push p k g) ->
    (q <> p /\ In (q, ks) g)
    \/ (q = p /\ exists ks0, In (p, ks0) g /\ ks = (ks0 ++ [k])%list)
    \/ (q = p /\ ~ In p (List.map fst g) /\ ks = [k]).
Proof.
  induction g as [|[q0 ks0] g IH]; simpl; intros Hnd q ks Hin.
  - destruct Hin as [[= <- <-]|[]]. right; right. auto.
  - inversion Hnd as [|? ? Hnotin Hnd']; subst.
    destruct (Z.eqb_spec q0 p) as [->|Hne].
    + destruct Hin as [[= <- <-]|Hin].
      * right; left. split; [reflexivity|]. exists ks0. auto.
      * left. split; [|now right].
        intros ->. apply Hnotin. apply (in_map fst) in Hin. exact Hin.
    + destruct Hin as [[= <- <-]|Hin].
      * left. split; [exact Hne|now left].
      * destruct (IH Hnd' q ks Hin) as [[H1 H2]|[(H1 & ks1 & H2 & H3)|(H1 & H2 & H3)]].
        -- left. auto.
        -- right; left. split; [exact H1|]. exists ks1. auto.
        -- right; right. repeat split; auto. intros [H|H]; [congruence|contradiction].
Qed.

Lemma grouped_inv_step (seen : list ApiKeyInfo) (g : list (Z * list ApiKeyInfo))
    (k : ApiKeyInfo) :
  grouped_inv seen g ->
  grouped_inv (seen ++ [k]) (KeyManager.map_push (priority k) k g).
Proof.
  intros (Hnd & Hent & Hcov). repeat split.
  - destruct (map_push_keys (priority k) k g) as [[_ E]|[Hn E]]; rewrite E; [exact Hnd|].
    apply List.NoDup_app; [exact Hnd|repeat constructor; simpl; tauto|].
    intros x Hx [<-|[]]. contradiction.
  - destruct (map_push_entries (priority k) k g Hnd q ks H)
      as [[H1 H2]|[(-> & ks0 & H2 & ->)|(-> & H2 & ->)]].
    + rewrite List.filter_app. simpl. unfold in_group at 2.
      destruct (Z.eqb_spec (priority k) q); [congruence|].
      rewrite app_nil_r. now apply Hent.
    + rewrite List.filter_app. simpl. unfold in_group at 2. rewrite Z.eqb_refl.
      f_equal. now apply Hent.
    + rewrite List.filter_app. simpl. unfold in_group at 2. rewrite Z.eqb_refl.
      replace (List.filter (in_group (priority k)) seen) with (@nil ApiKeyInfo); [reflexivity|].
      symmetry. destruct (List.filter (in_group (priority k)) seen) as [|k' l] eqn:E;
        [reflexivity|exfalso].
      assert (Hk' : In k' (List.filter (in_group (priority k)) seen)) by (rewrite E; now left).
      apply filter_In in Hk' as [Hin Hp]. unfold in_group in Hp.
      apply Z.eqb_eq in Hp. rewrite <- Hp in H2. now apply H2, Hcov.
  - destruct (map_push_entries (priority k) k g Hnd q ks H)
      as [[H1 H2]|[(-> & ks0 & H2 & ->)|(-> & H2 & ->)]].
    + exact (proj2 (Hent q ks H2)).
    + destruct ks0; discriminate.
    + discriminate.
  - intros k' Hin. apply in_app_or in Hin.
    destruct (map_push_keys (priority k) k g) as [[Hp E]|[Hn E]]; rewrite E.
    + destruct Hin as [Hin|[<-|[]]]; [now apply Hcov|exact Hp].
    + apply in_or_app. destruct Hin as [Hin|[<-|[]]]; [left; now apply Hcov|right; now left].
Qed.

Lemma grouped_inv_fold (keys seen : list ApiKeyInfo) (g : list (Z * list ApiKeyInfo)) :
  grouped_inv seen g ->
  grouped_inv (seen ++ keys)
    (List.fold_left (fun g k => KeyManager.map_push (priority k) k g) keys g).
Proof.
  revert seen g. induction keys as [|k keys IH]; intros seen g H; simpl.
  - now rewrite app_nil_r.
  - replace (seen ++ k :: keys)%list with ((seen ++ [k]) ++ keys)%list
      by (now rewrite <- app_assoc).
    apply IH. now apply grouped_inv_step.
Qed.

Lemma by_priority_Gt (a b : Z * list ApiKeyInfo) :
  by_priority a b = Gt <-> fst b < fst a.
Proof. unfold by_priority. simpl. rewrite Z.compare_gt_iff. lia. Qed.

(** The groups of a non-empty list of keys start with the keys of the
    least priority, in the order they have in the list. *)
Lemma groupKeysByPriority_head (keys : list ApiKeyInfo) :
  keys <> [] ->
  exists p ks rest,
    KeyManager.groupKeysByPriority keys = (p, ks) :: rest
    /\ ks = List.filter (in_group p) keys
    /\ ks <> []
    /\ Forall (fun k => p <= priority k) keys.
Proof.
  intros Hne. unfold KeyManager.groupKeysByPriority, Js.sort.
  set (grouped := List.fold_left _ keys []).
  assert (Hinv : grouped_inv keys grouped).
  { apply (grouped_inv_fold keys [] []). repeat split.
    - constructor.
    - destruct H.
    - destruct H.
    - intros k []. }
  destruct Hinv as (Hnd & Hent & Hcov).
  assert (Hg : grouped <> []).
  { destruct keys as [|k keys]; [congruence|].
    intros E. specialize (Hcov k (or_introl eq_refl)). now rewrite E in Hcov. }
  destruct (stable_sort_head by_priority) with (l := grouped)
    as ([p ks] & rest & before & after & Hs & Hl & Hb & Ha); auto.
  - intros x y z. rewrite !by_priority_Gt. lia.
  - intros x y. rewrite !by_priority_Gt. lia.
  - exists p, ks, rest. split; [exact Hs|].
    assert (Hin : In (p, ks) grouped) by (rewrite Hl; apply in_or_app; right; now left).
    destruct (Hent p ks Hin) as [E Hks]. repeat split; auto.
    apply List.Forall_forall. intros k Hk.
    specialize (Hcov k Hk). apply in_map_iff in Hcov as ([q ks'] & Hq & Hin').
    simpl in Hq. subst q. rewrite Hl in Hin'.
    rewrite List.Forall_forall in Hb, Ha.
    apply in_app_or in Hin' as [Hin'|[Hin'|Hin']].
    + specialize (Hb _ Hin'). apply by_priority_Gt in Hb. simpl in Hb. lia.
    + inversion Hin'. lia.
    + specialize (Ha _ Hin'). rewrite by_priority_Gt in Ha. simpl in Ha. lia.
Qed.

(** ** Exhaust-first *)

Lemma by_remaining_Gt (a b : ApiKeyInfo) :
  by_remaining a b = Gt <-> Js.lt (KeyManager.remaining a) (KeyManager.remaining b).
Proof.
  unfold by_remaining, KeyManager.remaining.
  destruct (dailyLimit a), (dailyLimit b); simpl;
    try rewrite Z.compare_gt_iff; split; try lia; try discriminate; auto.
Qed.

Lemma by_remaining_not_Gt (a b : ApiKeyInfo) :
  by_remaining a b <> Gt <-> Js.le (KeyManager.remaining b) (KeyManager.remaining a).
Proof.
  unfold by_remaining, KeyManager.remaining.
  destruct (dailyLimit a), (dailyLimit b); simpl;
    try rewrite Z.compare_gt_iff; split; try lia; try discriminate; auto.
Qed.

Lemma by_remaining_trans (x y z : ApiKeyInfo) :
  by_remaining x y <> Gt -> by_remaining y z <> Gt -> by_remaining x z <> Gt.
Proof.
  rewrite !by_remaining_not_Gt. unfold KeyManager.remaining.
  destruct (dailyLimit x), (dailyLimit y), (dailyLimit z); simpl; try lia; auto.
Qed.

Lemma by_remaining_asym (x y : ApiKeyInfo) :
  by_remaining x y = Gt -> by_remaining y x <> Gt.
Proof.
  rewrite by_remaining_not_Gt, by_remaining_Gt. unfold KeyManager.remaining.
  destruct (dailyLimit x), (dailyLimit y); simpl; try lia; auto.
Qed.

(** [selectExhaustFirst] on a non-empty group: the first key of the group
    among those with the greatest remaining quota. *)
Lemma selectExhaustFirst_first_greatest (keys : list ApiKeyInfo) :
  keys <> [] ->
  exists k before after,
    KeyManager.selectExhaustFirst keys = Some k
    /\ keys = (before ++ k :: after)%list
    /\ Forall (fun y => Js.lt (KeyManager.remaining y) (KeyManager.remaining k)) before
    /\ Forall (fun y => Js.le (KeyManager.remaining y) (KeyManager.remaining k)) after.
Proof.
  intros Hne.
  destruct (stable_sort_head by_remaining by_remaining_trans by_remaining_asym keys Hne)
    as (k & rest & before & after & Hs & Hl & Hb & Ha).
  exists k, before, after. repeat split; auto.
  - unfold KeyManager.selectExhaustFirst, Js.sort.
    change (fun a b => Js.sign (Js.sub (KeyManager.remaining b) (KeyManager.remaining a)))
      with by_remaining.
    now rewrite Hs.
  - eapply List.Forall_impl; [|exact Hb]. intros y. apply by_remaining_Gt.
  - eapply List.Forall_impl; [|exact Ha]. intros y. apply by_remaining_not_Gt.
Qed.

Lemma by_priority_usedToday_not_Gt (a b : ApiKeyInfo) :
  Prisma.by_priority_usedToday a b <> Gt <-> priority_then_usedToday a b.
Proof.
  unfold Prisma.by_priority_usedToday, priority_then_usedToday.
  destruct (Z.compare_spec (priority a) (priority b)).
  - rewrite Z.compare_gt_iff. lia.
  - split; [lia|discriminate].
  - split; [congruence|]. intros H0 _. lia.
Qed.

Lemma findMany_sorted (w : Prisma.KeyWhere) (table : list ApiKeyInfo) :
  StronglySorted priority_then_usedToday (Prisma.findMany w table).
Proof.
  unfold Prisma.findMany.
  assert (H : StronglySorted (fun a b => Prisma.by_priority_usedToday a b <> Gt)
                (Js.stable_sort Prisma.by_priority_usedToday (List.filter (Prisma.matches w) table))).
  { apply stable_sort_sorted.
    - intros x y z. rewrite !by_priority_usedToday_not_Gt.
      unfold priority_then_usedToday. lia.
    - intros x y Hx. rewrite by_priority_usedToday_not_Gt.
      assert (Hn : ~ priority_then_usedToday x y)
        by (rewrite <- by_priority_usedToday_not_Gt; tauto).
      unfold priority_then_usedToday in *. lia. }
  induction H as [|a l Hs IH Ha]; constructor; auto.
  eapply List.Forall_impl; [|exact Ha]. intros b. apply by_priority_usedToday_not_Gt.
Qed.

Lemma findMany_In (w : Prisma.KeyWhere) (table : list ApiKeyInfo) (k : ApiKeyInfo) :
  In k (Prisma.findMany w table) <-> In k table /\ Prisma.matches w k = true.
Proof. unfold Prisma.findMany. now rewrite stable_sort_In, filter_In. Qed.

Lemma resetDailyUsageIfNeeded_keys (keys : list ApiKeyInfo) (today : Date)
    (table : list ApiKeyInfo) :
  fst (KeyManager.resetDailyUsageIfNeeded keys today table) =
  List.map (fun k => if KeyManager.stale today k then Prisma.set_reset today k else k) keys.
Proof.
  unfold KeyManager.resetDailyUsageIfNeeded.
  now destruct (List.map id (List.filter (KeyManager.stale today) keys)).
Qed.

(** [selectKey] up to the choice within the groups. *)
Lemma selectKey_unfold (strategy : KeySelectionStrategy) (context : RoutingContext)
    (today : Date) (st : Stores) :
  eligible_keys context today st <> [] ->
  KeyManager.selectKey strategy context today st =
  let table' := snd (KeyManager.resetDailyUsageIfNeeded
                       (Prisma.findMany (KeyManager.whereConditions context) (keys_table st))
                       today (keys_table st)) in
  match KeyManager.select_from_groups strategy
          (KeyManager.groupKeysByPriority (eligible_keys context today st)) (redis st) with
  | (Some selectedKey, r') =>
      (Ok {| key := selectedKey;
             resolvedModel := match Js.truthy (requestedModel context) with
                              | Some m => m
                              | None => defaultModel selectedKey
                              end |},
       {| keys_table := table'; redis := r' |})
  | (None, r') =>
      (Err (KeyManager.no_eligible_key context), {| keys_table := table'; redis := r' |})
  end.
Proof.
  unfold eligible_keys, KeyManager.selectKey. intros Hne.
  destruct (Prisma.findMany (KeyManager.whereConditions context) (keys_table st))
    as [|k0 listing] eqn:El.
  - exfalso. apply Hne. reflexivity.
  - destruct (KeyManager.resetDailyUsageIfNeeded (k0 :: listing) today (keys_table st))
      as [keysWithResetUsage table'] eqn:Er.
    simpl fst in *. simpl snd. simpl redis.
    destruct (KeyManager.filterEligibleKeys keysWithResetUsage (requestedModel context))
      as [|e0 el] eqn:Ee; [congruence|].
    reflexivity.
Qed.

Lemma remaining_less (a b : ApiKeyInfo) :
  Js.lt (KeyManager.remaining a) (KeyManager.remaining b) <-> less_remaining a b.
Proof.
  unfold KeyManager.remaining, less_remaining.
  destruct (dailyLimit a), (dailyLimit b); simpl; tauto.
Qed.

Lemma remaining_at_most (a b : ApiKeyInfo) :
  Js.le (KeyManager.remaining a) (KeyManager.remaining b) <-> at_most_remaining a b.
Proof.
  unfold KeyManager.remaining, at_most_remaining.
  destruct (dailyLimit a), (dailyLimit b); simpl; tauto.
Qed.

Lemma StronglySorted_filter {A : Type} (R S : A -> A -> Prop) (f : A -> bool)
    (l : list A) :
  (forall a b, f a = true -> f b = true -> R a b -> S a b) ->
  StronglySorted R l -> StronglySorted S (List.filter f l).
Proof.
  intros H. induction 1 as [|a l Hs IH Ha]; simpl; [constructor|].
  destruct (f a) eqn:Ea; [|exact IH].
  constructor; [exact IH|].
  apply List.Forall_forall. intros b Hb. apply filter_In in Hb as [Hb Eb].
  rewrite List.Forall_forall in Ha. auto.
Qed.

(** A priority group of the eligible keys lists rows of the key table,
    each as the lazy reset leaves it, in the order of the query: by the
    [usedToday] the rows had in the table. *)
Lemma eligible_group_rows (context : RoutingContext) (today : Date) (st : Stores) (p : Z) :
  exists rows,
    List.filter (in_group p) (eligible_keys context today st)
    = List.map (lazily_reset context today) rows
    /\ StronglySorted usedToday_ascending rows
    /\ Forall (fun k => In k (keys_table st) /\ candidate context k = true /\ priority k = p)
         rows.
Proof.
  unfold eligible_keys. rewrite resetDailyUsageIfNeeded_keys.
  unfold KeyManager.filterEligibleKeys.
  set (listing := Prisma.findMany (KeyManager.whereConditions context) (keys_table st)).
  set (R := fun k => if KeyManager.stale today k then Prisma.set_reset today k else k).
  assert (HR : forall k, In k listing -> R k = lazily_reset context today k).
  { intros k Hk. apply findMany_In in Hk as [_ Hk].
    unfold R, lazily_reset, candidate. rewrite Hk. simpl.
    now destruct (KeyManager.stale today k). }
  assert (Hp : forall k, priority (R k) = priority k)
    by (intros k; unfold R; now destruct (KeyManager.stale today k)).
  rewrite !List.filter_map_swap.
  set (rows := List.filter (fun a => in_group p (R a))
                 (List.filter (fun a => KeyManager.eligible (requestedModel context) (R a))
                    listing)).
  assert (Hin : forall k, In k rows -> In k listing /\ priority k = p).
  { intros k Hk. unfold rows in Hk. apply filter_In in Hk as [Hk Hg].
    apply filter_In in Hk as [Hk _]. split; [exact Hk|].
    unfold in_group in Hg. apply Z.eqb_eq in Hg. now rewrite Hp in Hg. }
  exists rows. split; [|split].
  - apply map_ext_in. intros k Hk. apply HR. now apply Hin.
  - unfold rows.
    apply (StronglySorted_filter
             (fun a b => priority a = priority b -> usedToday a <= usedToday b)).
    + intros a b Ha Hb H. unfold in_group in Ha, Hb.
      apply Z.eqb_eq in Ha, Hb. rewrite Hp in Ha, Hb. apply H. congruence.
    + apply (StronglySorted_filter priority_then_usedToday).
      * intros a b _ _ H E. unfold priority_then_usedToday in H. lia.
      * apply findMany_sorted.
  - apply List.Forall_forall. intros k Hk. destruct (Hin k Hk) as [Hl Hpk].
    apply findMany_In in Hl as [Ht Hc]. repeat split; auto.
Qed.

(** C1, as amended.  When some key is eligible, [selectKey] under
    exhaust-first returns a key [key sel] such that: it belongs to the
    group of eligible keys with the lowest priority number; within that
    group, taken in listing order, every key listed before it has
    strictly less remaining quota ([dailyLimit - usedToday], infinite
    without [dailyLimit]) and no key listed after it has more, so a
    tie, also between two unlimited keys, goes to the key listed first.
    The listing order is that of the query: the group lists rows of the
    key table, each as the lazy reset of this call leaves it, in
    ascending order of the [usedToday] they had in the table; so the
    group itself is in ascending order of [usedToday] when none of its
    rows was due for a reset. *)
Theorem exhaust_first_selects_first_greatest_remaining
    (context : RoutingContext) (today : Date) (st : Stores) :
  eligible_keys context today st <> [] ->
  exists sel st' before after rows,
    KeyManager.selectKey ExhaustFirst context today st = (Ok sel, st')
    /\ List.filter (in_group (priority (key sel))) (eligible_keys context today st)
       = (before ++ key sel :: after)%list
    /\ Forall (fun k => priority (key sel) <= priority k) (eligible_keys context today st)
    /\ Forall (fun k => less_remaining k (key sel)) before
    /\ Forall (fun k => at_most_remaining k (key sel)) after
    /\ (before ++ key sel :: after)%list = List.map (lazily_reset context today) rows
    /\ StronglySorted usedToday_ascending rows
    /\ Forall (fun k => In k (keys_table st)) rows
    /\ (Forall (fun k => today <= resetDate k) rows ->
        StronglySorted usedToday_ascending (before ++ key sel :: after)%list).
Proof.
  intros Hne. rewrite (selectKey_unfold _ _ _ _ Hne).
  destruct (groupKeysByPriority_head _ Hne) as (p & ks & rest & Hg & Hks & Hksne & Hmin).
  rewrite Hg. simpl.
  destruct (selectExhaustFirst_first_greatest ks Hksne)
    as (k & before & after & Hsel & Hl & Hb & Ha).
  assert (Hp : priority k = p).
  { assert (Hin : In k ks) by (rewrite Hl; apply in_or_app; right; now left).
    rewrite Hks in Hin. apply filter_In in Hin as [_ Hin].
    now apply Z.eqb_eq in Hin. }
  destruct (eligible_group_rows context today st p) as (rows & Hrows & Hsorted & Hin).
  destruct ks as [|k1 ks1]; [congruence|].
  unfold KeyManager.selectKeyFromGroup. rewrite Hsel.
  eexists _, _, before, after, rows. split; [reflexivity|]. simpl key.
  rewrite Hp.
  assert (Hgroup : List.filter (in_group p) (eligible_keys context today st)
                   = (before ++ k :: after)%list) by (rewrite <- Hks; exact Hl).
  split; [exact Hgroup|]. split; [exact Hmin|].
  split; [eapply List.Forall_impl; [|exact Hb]; intros y; apply remaining_less|].
  split; [eapply List.Forall_impl; [|exact Ha]; intros y; apply remaining_at_most|].
  split; [rewrite <- Hgroup; exact Hrows|]. split; [exact Hsorted|].
  split; [eapply List.Forall_impl; [|exact Hin]; intros y Hy; apply Hy|].
  intros Hfresh. rewrite <- Hgroup, Hrows.
  replace (List.map (lazily_reset context today) rows) with rows; [exact Hsorted|].
  rewrite <- (map_id rows) at 1. apply map_ext_in. intros y Hy.
  rewrite List.Forall_forall in Hfresh. specialize (Hfresh y Hy).
  unfold lazily_reset, KeyManager.stale.
  destruct (Z.ltb_spec (resetDate y) today); [lia|]. now rewrite andb_false_r.
Qed.

(** C1 as stated fails where the lazy reset of the call changes a
    count.  In the table of [key_S] and [key_F] the query lists
    [key_F] (used 5) before [key_S] (used 7); the reset puts [key_S] at
    0, so that both keys have 5 left.  The tie goes to [key_F], the
    first in the listing, although the group as it stands is not in
    ascending order of [usedToday], in which [key_S] would be first. *)
Lemma exhaust_first_tie_after_lazy_reset :
  fst (KeyManager.selectKey ExhaustFirst context_auto 1000 stores_SF)
  = Ok {| key := key_F; resolvedModel := "gpt-4o" |}
  /\ eligible_keys context_auto 1000 stores_SF = [key_F; Prisma.set_reset 1000 key_S]
  /\ at_most_remaining key_F (Prisma.set_reset 1000 key_S)
  /\ at_most_remaining (Prisma.set_reset 1000 key_S) key_F
  /\ usedToday (Prisma.set_reset 1000 key_S) < usedToday key_F
  /\ ~ StronglySorted priority_then_usedToday (eligible_keys context_auto 1000 stores_SF).
Proof.
  split; [vm_compute; reflexivity|]. split; [vm_compute; reflexivity|].
  split; [vm_compute; discriminate|]. split; [vm_compute; discriminate|].
  split; [vm_compute; reflexivity|].
  assert (E : eligible_keys context_auto 1000 stores_SF = [key_F; Prisma.set_reset 1000 key_S])
    by (vm_compute; reflexivity).
  rewrite E. intros H. inversion H as [|a l _ Hall]; subst.
  inversion Hall as [|b l' Hab _]; subst.
  unfold priority_then_usedToday in Hab. simpl in Hab. lia.
Qed.

Example scenario_3_no_key_of_requested_provider :
  fst (KeyManager.selectKey ExhaustFirst
         {| requestedModel := None; requestedProvider := "anthropic";
            allowedProviders := None; allowedPriorities := None |}
         1000 stores_AB)
  = Err (GatewayError (NoEligibleKeyError None (Some "anthropic"))).
Proof. vm_compute. reflexivity. Qed.

Example scenario_1_selects_B :
  fst (KeyManager.selectKey ExhaustFirst context_auto 1000 stores_AB)
  = Ok {| key := key_B; resolvedModel := "gpt-4o-mini" |}.
Proof. vm_compute. reflexivity. Qed.

Lemma exhaust_first_selects_first_greatest_remaining_witness :
  exists sel st' before after rows,
    KeyManager.selectKey ExhaustFirst context_auto 1000 stores_SF = (Ok sel, st')
    /\ List.filter (in_group (priority (key sel))) (eligible_keys context_auto 1000 stores_SF)
       = (before ++ key sel :: after)%list
    /\ Forall (fun k => priority (key sel) <= priority k)
         (eligible_keys context_auto 1000 stores_SF)
    /\ Forall (fun k => less_remaining k (key sel)) before
    /\ Forall (fun k => at_most_remaining k (key sel)) after
    /\ (before ++ key sel :: after)%list = List.map (lazily_reset context_auto 1000) rows
    /\ StronglySorted usedToday_ascending rows
    /\ Forall (fun k => In k (keys_table stores_SF)) rows
    /\ (Forall (fun k => 1000 <= resetDate k) rows ->
        StronglySorted usedToday_ascending (before ++ key sel :: after)%list).
Proof.
  apply (exhaust_first_selects_first_greatest_remaining context_auto 1000 stores_SF).
  vm_compute. discriminate.
Defined.

(** ** Round-robin counter *)

Lemma getNextRoundRobinIndex_eq (prov : string) (prio n : Z) (s : gmap string Redis.entry) :
  let k := Redis.roundRobinIndex prov prio in
  Redis.getNextRoundRobinIndex prov prio n s =
  (Redis.js_rem (counter s k) n,
   <[k := {| Redis.value := counter s k + 1; Redis.ttl := Some counter_ttl |}]> s).
Proof.
  intros k. unfold Redis.getNextRoundRobinIndex, Redis.incr, Redis.expire, counter.
  fold k. destruct (s !! k) as [e|] eqn:E; simpl.
  - rewrite lookup_insert_eq. simpl. rewrite insert_insert_eq.
    f_equal. f_equal. lia.
  - rewrite lookup_insert_eq. simpl. rewrite insert_insert_eq. reflexivity.
Qed.

Lemma counter_insert (s : gmap string Redis.entry) (k k' : string) (e : Redis.entry) :
  counter (<[k := e]> s) k' = if decide (k = k') then Redis.value e else counter s k'.
Proof.
  unfold counter. rewrite lookup_insert. now destruct (decide (k = k')).
Qed.

Lemma getNextRoundRobinIndex_nonneg (prov : string) (prio n : Z)
    (s : gmap string Redis.entry) :
  counters_nonneg s ->
  counters_nonneg (snd (Redis.getNextRoundRobinIndex prov prio n s)).
Proof.
  intros H k. rewrite getNextRoundRobinIndex_eq. simpl.
  rewrite counter_insert. destruct (decide _); simpl; [|apply H].
  specialize (H (Redis.roundRobinIndex prov prio)). lia.
Qed.

Lemma js_rem_range (c n : Z) :
  0 <= c -> 0 < n -> exists i, Redis.js_rem c n = Js.Fin i /\ 0 <= i < n /\ i = c mod n.
Proof.
  intros Hc Hn. unfold Redis.js_rem.
  destruct (Z.eqb_spec n 0); [lia|].
  exists (Z.rem c n). rewrite Z.rem_mod_nonneg by lia.
  repeat split; auto; apply Z.mod_pos_bound; lia.
Qed.

Lemma index_in_range {A : Type} (l : list A) (i : Z) :
  0 <= i < Z.of_nat (List.length l) ->
  exists x, Js.index l (Js.Fin i) = Some x /\ In x l.
Proof.
  intros H. unfold Js.index. destruct (Z.ltb_spec i 0); [lia|].
  destruct (nth_error l (Z.to_nat i)) as [x|] eqn:E.
  - exists x. split; [reflexivity|]. eapply nth_error_In; eauto.
  - apply nth_error_None in E. lia.
Qed.

Lemma selectRoundRobin_some (keys : list ApiKeyInfo) (prio : Z)
    (s : gmap string Redis.entry) :
  keys <> [] -> counters_nonneg s ->
  exists k, fst (KeyManager.selectRoundRobin keys prio s) = Some k /\ In k keys.
Proof.
  intros Hne Hs. unfold KeyManager.selectRoundRobin.
  destruct keys as [|k0 keys]; [congruence|].
  rewrite getNextRoundRobinIndex_eq. cbv beta iota zeta delta [fst].
  destruct (js_rem_range (counter s (Redis.roundRobinIndex (provider k0) prio))
              (Z.of_nat (List.length (k0 :: keys)))) as (i & -> & Hi & _).
  - apply Hs.
  - simpl. lia.
  - now apply index_in_range.
Qed.

Lemma selectKeyFromGroup_some (strategy : KeySelectionStrategy) (keys : list ApiKeyInfo)
    (prio : Z) (s : gmap string Redis.entry) :
  keys <> [] -> (strategy = RoundRobin -> counters_nonneg s) ->
  exists k, fst (KeyManager.selectKeyFromGroup keys prio strategy s) = Some k /\ In k keys.
Proof.
  intros Hne Hs. unfold KeyManager.selectKeyFromGroup.
  destruct keys as [|k0 keys'] eqn:E; [congruence|]. rewrite <- E in *.
  destruct strategy.
  - destruct (selectExhaustFirst_first_greatest keys Hne) as (k & b & a & H1 & H2 & _).
    exists k. split; [exact H1|]. rewrite H2. apply in_or_app. right. now left.
  - apply selectRoundRobin_some; auto.
Qed.

(** ** Outcomes of [selectKey] *)

Lemma select_from_groups_nonneg (strategy : KeySelectionStrategy)
    (groups : list (Z * list ApiKeyInfo)) (s : gmap string Redis.entry) :
  counters_nonneg s ->
  counters_nonneg (snd (KeyManager.select_from_groups strategy groups s)).
Proof.
  revert s. induction groups as [|[prio ks] groups IH]; intros s Hs; [exact Hs|].
  cbn [KeyManager.select_from_groups].
  assert (H1 : counters_nonneg (snd (KeyManager.selectKeyFromGroup ks prio strategy s))).
  { unfold KeyManager.selectKeyFromGroup, KeyManager.selectRoundRobin.
    destruct ks as [|k0 ks]; [exact Hs|]. destruct strategy; [exact Hs|].
    pose proof (getNextRoundRobinIndex_nonneg (provider k0) prio
                  (Z.of_nat (List.length (k0 :: ks))) s Hs) as H.
    destruct (Redis.getNextRoundRobinIndex (provider k0) prio
                (Z.of_nat (List.length (k0 :: ks))) s) as [i s']. exact H. }
  destruct (KeyManager.selectKeyFromGroup ks prio strategy s) as [[k|] s']; [exact H1|].
  now apply IH.
Qed.

(** [selectKey] keeps the counters non-negative. *)
Lemma selectKey_counters_nonneg (strategy : KeySelectionStrategy)
    (context : RoutingContext) (today : Date) (st : Stores) :
  counters_nonneg (redis st) ->
  counters_nonneg (redis (snd (KeyManager.selectKey strategy context today st))).
Proof.
  intros Hs. unfold KeyManager.selectKey.
  destruct (Prisma.findMany (KeyManager.whereConditions context) (keys_table st))
    as [|k0 listing]; [exact Hs|].
  destruct (KeyManager.resetDailyUsageIfNeeded (k0 :: listing) today (keys_table st))
    as [keysWithResetUsage table'].
  destruct (KeyManager.filterEligibleKeys keysWithResetUsage (requestedModel context))
    as [|e0 el]; [exact Hs|].
  cbn [redis].
  pose proof (select_from_groups_nonneg strategy
                (KeyManager.groupKeysByPriority (e0 :: el)) (redis st) Hs) as H.
  destruct (KeyManager.select_from_groups strategy _ (redis st)) as [[k|] r']; exact H.
Qed.

Lemma selectKey_no_eligible (strategy : KeySelectionStrategy) (context : RoutingContext)
    (today : Date) (st : Stores) :
  eligible_keys context today st = [] ->
  fst (KeyManager.selectKey strategy context today st)
  = Err (KeyManager.no_eligible_key context).
Proof.
  unfold eligible_keys, KeyManager.selectKey.
  destruct (Prisma.findMany (KeyManager.whereConditions context) (keys_table st))
    as [|k0 listing]; [reflexivity|].
  destruct (KeyManager.resetDailyUsageIfNeeded (k0 :: listing) today (keys_table st))
    as [keysWithResetUsage table']. simpl fst. now intros ->.
Qed.

Lemma selectKey_some_eligible (strategy : KeySelectionStrategy) (context : RoutingContext)
    (today : Date) (st : Stores) :
  (strategy = RoundRobin -> counters_nonneg (redis st)) ->
  eligible_keys context today st <> [] ->
  exists k,
    fst (KeyManager.selectKey strategy context today st)
    = Ok {| key := k;
            resolvedModel := match Js.truthy (requestedModel context) with
                             | Some m => m
                             | None => defaultModel k
                             end |}
    /\ In k (eligible_keys context today st).
Proof.
  intros Hs Hne. rewrite (selectKey_unfold _ _ _ _ Hne).
  destruct (groupKeysByPriority_head _ Hne) as (p & ks & rest & Hg & Hks & Hksne & _).
  rewrite Hg. simpl.
  destruct (selectKeyFromGroup_some strategy ks p (redis st) Hksne Hs) as (k & Hk & Hin).
  destruct (KeyManager.selectKeyFromGroup ks p strategy (redis st)) as [o r'].
  simpl in Hk. subst o. exists k. split; [reflexivity|].
  rewrite Hks in Hin. now apply filter_In in Hin as [Hin _].
Qed.

Lemma counters_nonneg_empty : counters_nonneg ∅.
Proof. intros k. unfold counter. now rewrite lookup_empty. Qed.

(** ** The candidate set as stated and the one of the code *)

(** The query of the code and the one stated differ only where a
    provider is requested that the allow-list leaves out. *)
Lemma candidate_stated (context : RoutingContext) (k : ApiKeyInfo) :
  provider_on_allow_list context ->
  candidate context k = true <-> stated_query context k.
Proof.
  unfold provider_on_allow_list, candidate, stated_query, KeyManager.whereConditions,
    Prisma.matches, providers_allowed, priorities_allowed.
  assert (Hs : forall s l, Prisma.in_strings s l = true <-> In s l).
  { intros s l. unfold Prisma.in_strings. rewrite existsb_exists. split.
    - intros (x & Hin & Hx). apply String.eqb_eq in Hx. now subst.
    - intros H. exists s. split; [exact H|apply String.eqb_refl]. }
  assert (Hn : forall z l, Prisma.in_numbers z l = true <-> In z l).
  { intros z l. unfold Prisma.in_numbers. rewrite existsb_exists. split.
    - intros (x & Hin & Hx). apply Z.eqb_eq in Hx. now subst.
    - intros H. exists z. split; [exact H|apply Z.eqb_refl]. }
  destruct (String.eqb_spec (requestedProvider context) auto) as [Ha|Ha];
    destruct (allowedProviders context) as [[|p l]|];
    destruct (allowedPriorities context) as [[|q l']|];
    cbn [Prisma.where_enabled Prisma.where_provider Prisma.where_priority];
    rewrite ?andb_true_iff, ?andb_true_r, ?Hs, ?Hn, ?String.eqb_eq, ?Bool.eqb_true_iff.
  all: intuition (try congruence; try discriminate).
Qed.

Lemma stale_reset_stated (today : Date) (k : ApiKeyInfo) :
  (if KeyManager.stale today k then Prisma.set_reset today k else k)
  = stated_reset today k.
Proof. reflexivity. Qed.

Lemma eligible_stated (context : RoutingContext) (k : ApiKeyInfo) :
  KeyManager.eligible (requestedModel context) k = true <->
  stated_quota k /\ stated_model context k.
Proof.
  rewrite eligible_spec, has_quota_spec. unfold stated_quota, stated_model.
  split; intros [Hq Hm]; (split; [exact Hq|]); intros m Hr;
    apply isAllowed_spec; now apply Hm.
Qed.

(** The keys [selectKey] chooses from are the candidate set as stated,
    in the contexts where the two queries agree. *)
Lemma eligible_keys_stated (context : RoutingContext) (today : Date) (st : Stores)
    (k' : ApiKeyInfo) :
  provider_on_allow_list context ->
  In k' (eligible_keys context today st) <->
  stated_candidate context today (keys_table st) k'.
Proof.
  intros Hagree. unfold eligible_keys, stated_candidate.
  rewrite resetDailyUsageIfNeeded_keys. unfold KeyManager.filterEligibleKeys.
  rewrite filter_In, in_map_iff, eligible_stated. split.
  - intros [(k & <- & Hin) [Hq Hm]]. apply findMany_In in Hin as [Hin Hc].
    exists k. rewrite stale_reset_stated in *.
    split; [exact Hin|]. split; [now apply candidate_stated|].
    split; [reflexivity|]. now split.
  - intros (k & Hin & Hc & -> & Hq & Hm). split; [|now split].
    exists k. split; [apply stale_reset_stated|].
    apply findMany_In. split; [exact Hin|]. now apply candidate_stated.
Qed.

(** C2.  [selectKey] does not fail where the claim has it fail.  For a
    request that names the provider ["anthropic"] and allows only
    ["openai"], no key of the table of [key_S] (openai) and [key_N]
    (anthropic) is in the candidate set as stated: [key_S] is not of the
    requested provider, [key_N] is not of an allowed one.  Yet
    [selectKey] returns [key_N], under either strategy: in its [where]
    object the property [provider] written for the requested provider
    replaces the one written for the allow-list. *)
Theorem selectKey_selects_key_off_the_allow_list :
  (forall k',
     ~ stated_candidate context_anthropic_not_allowed 1000 (keys_table stores_SN) k')
  /\ KeyManager.whereConditions context_anthropic_not_allowed
     = {| Prisma.where_enabled := Some true;
          Prisma.where_provider := Some (Prisma.ProviderIs "anthropic");
          Prisma.where_priority := None |}
  /\ fst (KeyManager.selectKey ExhaustFirst context_anthropic_not_allowed 1000 stores_SN)
     = Ok {| key := Prisma.set_reset 1000 key_N; resolvedModel := "claude-3-opus-latest" |}
  /\ fst (KeyManager.selectKey RoundRobin context_anthropic_not_allowed 1000 stores_SN)
     = Ok {| key := Prisma.set_reset 1000 key_N; resolvedModel := "claude-3-opus-latest" |}.
Proof.
  split; [|split; [reflexivity|split; vm_compute; reflexivity]].
  intros k' (k & Hin & (_ & Hp & _ & Hr) & _).
  destruct Hin as [<-|[<-|[]]]; simpl in Hp, Hr.
  - destruct Hr as [Hr|Hr]; discriminate.
  - destruct Hp as [Hp|[Hp|[]]]; discriminate.
Qed.

(** ** Lazy reset *)

Lemma in_strings_In (s : string) (l : list string) :
  Prisma.in_strings s l = true <-> In s l.
Proof.
  unfold Prisma.in_strings. rewrite existsb_exists. split.
  - intros (x & Hin & Hx). apply String.eqb_eq in Hx. now subst.
  - intros H. exists s. split; [exact H|apply String.eqb_refl].
Qed.

Lemma NoDup_id_eq (table : list ApiKeyInfo) (a b : ApiKeyInfo) :
  List.NoDup (List.map id table) -> In a table -> In b table -> id a = id b -> a = b.
Proof.
  induction table as [|x table IH]; simpl; [tauto|].
  intros Hnd Ha Hb E. inversion Hnd as [|? ? Hx Hnd']; subst.
  destruct Ha as [<-|Ha], Hb as [<-|Hb]; auto.
  - exfalso. apply Hx. rewrite E. now apply in_map.
  - exfalso. apply Hx. rewrite <- E. now apply in_map.
Qed.

Lemma resetDailyUsageIfNeeded_table (context : RoutingContext) (today : Date)
    (table : list ApiKeyInfo) :
  List.NoDup (List.map id table) ->
  snd (KeyManager.resetDailyUsageIfNeeded
         (Prisma.findMany (KeyManager.whereConditions context) table) today table)
  = List.map (lazily_reset context today) table.
Proof.
  intros Hnd. unfold KeyManager.resetDailyUsageIfNeeded.
  set (keys := Prisma.findMany (KeyManager.whereConditions context) table).
  assert (Hids : forall k, In k table ->
            (In (id k) (List.map id (List.filter (KeyManager.stale today) keys))
             <-> candidate context k && KeyManager.stale today k = true)).
  { intros k Hk. rewrite in_map_iff, andb_true_iff. split.
    - intros (k' & E & Hin). apply filter_In in Hin as [Hin Hst].
      apply findMany_In in Hin as [Hin Hm].
      assert (k' = k) by (eapply NoDup_id_eq; eauto). subst k'. now split.
    - intros [Hm Hst]. exists k. split; [reflexivity|].
      apply filter_In. split; [|exact Hst]. apply findMany_In. now split. }
  destruct (List.map id (List.filter (KeyManager.stale today) keys)) as [|i ids] eqn:E;
    simpl snd.
  - rewrite <- (map_id table) at 1. apply map_ext_in. intros k Hk.
    unfold lazily_reset.
    destruct (candidate context k && KeyManager.stale today k) eqn:Eb; [|reflexivity].
    exfalso. now apply (Hids k Hk).
  - unfold Prisma.updateMany_reset. apply map_ext_in. intros k Hk.
    unfold lazily_reset.
    destruct (candidate context k && KeyManager.stale today k) eqn:Eb.
    + apply (Hids k Hk) in Eb. apply in_strings_In in Eb. now rewrite Eb.
    + destruct (Prisma.in_strings (id k) (i :: ids)) eqn:Ei; [|reflexivity].
      apply in_strings_In, (Hids k Hk) in Ei. congruence.
Qed.

Lemma selectKey_table (strategy : KeySelectionStrategy) (context : RoutingContext)
    (today : Date) (st : Stores) :
  keys_table (snd (KeyManager.selectKey strategy context today st)) =
  match Prisma.findMany (KeyManager.whereConditions context) (keys_table st) with
  | [] => keys_table st
  | listing =>
      snd (KeyManager.resetDailyUsageIfNeeded listing today (keys_table st))
  end.
Proof.
  unfold KeyManager.selectKey.
  destruct (Prisma.findMany (KeyManager.whereConditions context) (keys_table st))
    as [|k0 listing]; [reflexivity|].
  destruct (KeyManager.resetDailyUsageIfNeeded (k0 :: listing) today (keys_table st))
    as [keysWithResetUsage table'].
  destruct (KeyManager.filterEligibleKeys keysWithResetUsage (requestedModel context));
    [reflexivity|].
  simpl redis.
  destruct (KeyManager.select_from_groups strategy _ (redis st)) as [[k|] r']; reflexivity.
Qed.

(** C4.  Whatever [selectKey] returns, a selection or the error
    [NoEligibleKey], the key table it leaves is the table it found with
    every row that the query returned and whose [resetDate] precedes
    today given [usedToday = 0] and [resetDate = today], all other
    columns of such a row kept; every other row (a candidate that is not
    stale, a row the query did not return) is as it was.  Ids are the
    primary key of the table. *)
Theorem selectKey_lazy_reset_frame
    (strategy : KeySelectionStrategy) (context : RoutingContext)
    (today : Date) (st : Stores) :
  List.NoDup (List.map id (keys_table st)) ->
  keys_table (snd (KeyManager.selectKey strategy context today st))
  = List.map (lazily_reset context today) (keys_table st)
  /\ (forall k, In k (Prisma.findMany (KeyManager.whereConditions context) (keys_table st))
        <-> In k (keys_table st) /\ candidate context k = true)
  /\ (forall k, candidate context k = true -> resetDate k < today ->
        usedToday (lazily_reset context today k) = 0
        /\ resetDate (lazily_reset context today k) = today)
  /\ (forall k, candidate context k = false \/ today <= resetDate k ->
        lazily_reset context today k = k).
Proof.
  intros Hnd. split; [|split; [|split]].
  - rewrite selectKey_table.
    destruct (Prisma.findMany (KeyManager.whereConditions context) (keys_table st))
      as [|k0 listing] eqn:E.
    + rewrite <- (map_id (keys_table st)) at 1. apply map_ext_in. intros k Hk.
      unfold lazily_reset. destruct (candidate context k) eqn:Ec; [|reflexivity].
      exfalso. assert (Hin : In k []) by (rewrite <- E; apply findMany_In; now split).
      exact Hin.
    + rewrite <- E. now apply resetDailyUsageIfNeeded_table.
  - intros k. apply findMany_In.
  - intros k H Hlt. unfold lazily_reset, KeyManager.stale. rewrite H.
    destruct (Z.ltb_spec (resetDate k) today); [split; reflexivity|lia].
  - intros k [H|H]; unfold lazily_reset, KeyManager.stale.
    + now rewrite H.
    + destruct (Z.ltb_spec (resetDate k) today); [lia|]. now rewrite andb_false_r.
Qed.

Example lazy_reset_even_when_no_key_is_selected :
  KeyManager.selectKey ExhaustFirst context_claude 1000 stores_SN
  = (Err (GatewayError
            (NoEligibleKeyError (Some "claude-3-opus") (Some "openai"))),
     {| keys_table := [Prisma.set_reset 1000 key_S; key_N]; redis := ∅ |}).
Proof. vm_compute. reflexivity. Qed.

Lemma selectKey_lazy_reset_frame_witness :
  keys_table (snd (KeyManager.selectKey ExhaustFirst context_claude 1000 stores_SN))
  = List.map (lazily_reset context_claude 1000) (keys_table stores_SN)
  /\ (forall k,
        In k (Prisma.findMany (KeyManager.whereConditions context_claude)
                (keys_table stores_SN))
        <-> In k (keys_table stores_SN) /\ candidate context_claude k = true)
  /\ (forall k, candidate context_claude k = true -> resetDate k < 1000 ->
        usedToday (lazily_reset context_claude 1000 k) = 0
        /\ resetDate (lazily_reset context_claude 1000 k) = 1000)
  /\ (forall k, candidate context_claude k = false \/ 1000 <= resetDate k ->
        lazily_reset context_claude 1000 k = k).
Proof.
  apply (selectKey_lazy_reset_frame ExhaustFirst context_claude 1000 stores_SN).
  simpl. repeat constructor; simpl; intuition discriminate.
Defined.

(** ** Round-robin fairness *)

Lemma count_index_map (f : nat -> Z) (i : Z) (l : list nat) :
  count_index i (List.map (fun j => Js.Fin (f j)) l)
  = count_occ Z.eq_dec (List.map f l) i.
Proof.
  unfold count_index. induction l as [|j l IH]; simpl; [reflexivity|].
  destruct (Z.eqb_spec (f j) i), (Z.eq_dec (f j) i); simpl; congruence.
Qed.

(** In a window of [k] consecutive counter values every residue modulo
    [k] occurs exactly once. *)
Lemma window_count (c : Z) (k : nat) (i : Z) :
  0 <= i < Z.of_nat k ->
  count_occ Z.eq_dec
    (List.map (fun j => (c + Z.of_nat j) mod Z.of_nat k) (seq 0 k)) i = 1%nat.
Proof.
  intros Hi.
  set (f := fun j => (c + Z.of_nat j) mod Z.of_nat k).
  assert (Hnd : List.NoDup (List.map f (seq 0 k))).
  { apply NoDup_map_NoDup_ForallPairs; [|apply seq_NoDup].
    intros a b Ha Hb E. apply in_seq in Ha, Hb. unfold f in E.
    assert (Hk : 0 < Z.of_nat k) by lia.
    pose proof (Z.div_mod (c + Z.of_nat a) (Z.of_nat k) ltac:(lia)) as Da.
    pose proof (Z.div_mod (c + Z.of_nat b) (Z.of_nat k) ltac:(lia)) as Db.
    rewrite E in Da.
    assert (Hq : Z.of_nat a - Z.of_nat b
                 = Z.of_nat k * ((c + Z.of_nat a) / Z.of_nat k - (c + Z.of_nat b) / Z.of_nat k))
      by lia.
    assert ((c + Z.of_nat a) / Z.of_nat k - (c + Z.of_nat b) / Z.of_nat k = 0) by nia.
    nia. }
  apply NoDup_count_occ'; [exact Hnd|].
  apply (NoDup_length_incl Hnd (l' := List.map Z.of_nat (seq 0 k))).
  - rewrite !length_map. lia.
  - intros x Hx. apply in_map_iff in Hx as (j & <- & Hj). unfold f.
    pose proof (Z.mod_pos_bound (c + Z.of_nat j) (Z.of_nat k) ltac:(lia)) as Hb.
    apply in_map_iff. exists (Z.to_nat ((c + Z.of_nat j) mod Z.of_nat k)).
    split; [lia|]. apply in_seq. lia.
  - apply in_map_iff. exists (Z.to_nat i). split; [lia|]. apply in_seq. lia.
Qed.

Lemma seq_from (k n : nat) :
  seq k n = List.map (fun j => (k + j)%nat) (seq 0 n).
Proof.
  revert k. induction n as [|n IH]; intros k; simpl; [reflexivity|].
  f_equal; [lia|]. rewrite <- (seq_shift n 0), map_map, (IH (S k)).
  apply map_ext. intros j. lia.
Qed.

Lemma blocks_count (k m : nat) (c i : Z) :
  0 <= i < Z.of_nat k ->
  count_occ Z.eq_dec
    (List.map (fun j => (c + Z.of_nat j) mod Z.of_nat k) (seq 0 (k * m))) i = m.
Proof.
  intros Hi. revert c. induction m as [|m IH]; intros c.
  - now rewrite Nat.mul_0_r.
  - replace (k * S m)%nat with (k + k * m)%nat by lia.
    rewrite seq_app, map_app, count_occ_app, window_count by exact Hi.
    simpl. f_equal.
    rewrite (seq_from k), map_map.
    rewrite <- (IH (c + Z.of_nat k)) at 2.
    f_equal. apply map_ext. intros j. f_equal. lia.
Qed.

Lemma elapse_lookup (ms : Z) (s : gmap string Redis.entry) (k : string) :
  Redis.elapse ms s !! k = s !! k ≫= Redis.age ms.
Proof. unfold Redis.elapse. apply lookup_omap. Qed.

Lemma elapse_nonneg (ms : Z) (s : gmap string Redis.entry) :
  counters_nonneg s -> counters_nonneg (Redis.elapse ms s).
Proof.
  intros H k. specialize (H k). unfold counter in *. rewrite elapse_lookup.
  destruct (s !! k) as [e|]; simpl; [|lia].
  unfold Redis.age. destruct (Redis.ttl e) as [t|]; [|exact H].
  destruct (Z.leb t ms); simpl; [lia|exact H].
Qed.

(** A counter written by [getNextRoundRobinIndex] is still there, with
    its value, when less than its time to live has passed. *)
Lemma elapse_alive (ms c : Z) (s : gmap string Redis.entry) (k : string) :
  0 <= ms < counter_ttl ->
  s !! k = Some {| Redis.value := c; Redis.ttl := Some counter_ttl |} ->
  counter (Redis.elapse ms s) k = c.
Proof.
  intros Hms Hk. unfold counter. rewrite elapse_lookup, Hk. simpl.
  unfold Redis.age. simpl. destruct (Z.leb_spec counter_ttl ms); [lia|reflexivity].
Qed.

Lemma rr_indices_alive (pauses : list Z) (prov : string) (prio k c : Z)
    (s : gmap string Redis.entry) :
  0 < k -> 0 <= c ->
  s !! Redis.roundRobinIndex prov prio
  = Some {| Redis.value := c; Redis.ttl := Some counter_ttl |} ->
  Forall (fun pause => 0 <= pause < counter_ttl) pauses ->
  fst (rr_indices pauses prov prio k s)
  = List.map (fun j => Js.Fin ((c + Z.of_nat j) mod k)) (seq 0 (List.length pauses)).
Proof.
  intros Hk. revert c s.
  induction pauses as [|pause pauses IH]; intros c s Hc Hs Hp; [reflexivity|].
  inversion Hp as [|? ? Hpause Hp']; subst.
  cbn [rr_indices]. rewrite getNextRoundRobinIndex_eq.
  set (key := Redis.roundRobinIndex prov prio) in *.
  rewrite (elapse_alive pause c s key Hpause Hs).
  set (s1 := <[key := {| Redis.value := c + 1; Redis.ttl := Some counter_ttl |}]>
               (Redis.elapse pause s)).
  specialize (IH (c + 1) s1 ltac:(lia) ltac:(apply lookup_insert_eq) Hp').
  destruct (rr_indices pauses prov prio k s1) as [l s2]. simpl in IH. subst l.
  cbn [fst List.length seq List.map].
  destruct (js_rem_range c k Hc Hk) as (i & -> & _ & ->).
  f_equal; [f_equal; f_equal; lia|].
  rewrite <- seq_shift, map_map. apply map_ext. intros j. f_equal. f_equal. lia.
Qed.

Lemma rr_indices_eq (pause : Z) (pauses : list Z) (prov : string) (prio k : Z)
    (s : gmap string Redis.entry) :
  0 < k -> counters_nonneg s ->
  Forall (fun p => 0 <= p < counter_ttl) pauses ->
  fst (rr_indices (pause :: pauses) prov prio k s)
  = List.map
      (fun j => Js.Fin ((counter (Redis.elapse pause s) (Redis.roundRobinIndex prov prio)
                         + Z.of_nat j) mod k))
      (seq 0 (S (List.length pauses))).
Proof.
  intros Hk Hs Hp. cbn [rr_indices]. rewrite getNextRoundRobinIndex_eq.
  set (key := Redis.roundRobinIndex prov prio) in *.
  set (c := counter (Redis.elapse pause s) key).
  assert (Hc : 0 <= c) by (apply elapse_nonneg; exact Hs).
  set (s1 := <[key := {| Redis.value := c + 1; Redis.ttl := Some counter_ttl |}]>
               (Redis.elapse pause s)).
  pose proof (rr_indices_alive pauses prov prio k (c + 1) s1 Hk ltac:(lia)
                ltac:(apply lookup_insert_eq) Hp) as H.
  destruct (rr_indices pauses prov prio k s1) as [l s2]. simpl in H. subst l.
  cbn [fst List.length seq List.map].
  destruct (js_rem_range c k Hc Hk) as (i & -> & _ & ->).
  f_equal; [f_equal; f_equal; lia|].
  rewrite <- seq_shift, map_map. apply map_ext. intros j. f_equal. f_equal. lia.
Qed.

Lemma rr_selections_eq (pauses : list Z) (k0 : ApiKeyInfo) (rest : list ApiKeyInfo)
    (prio : Z) (s : gmap string Redis.entry) :
  rr_selections pauses (k0 :: rest) prio s
  = (List.map (Js.index (k0 :: rest))
       (fst (rr_indices pauses (provider k0) prio (Z.of_nat (List.length (k0 :: rest))) s)),
     snd (rr_indices pauses (provider k0) prio (Z.of_nat (List.length (k0 :: rest))) s)).
Proof.
  revert s. induction pauses as [|pause pauses IH]; intros s; [reflexivity|].
  cbn [rr_selections rr_indices]. unfold KeyManager.selectRoundRobin.
  destruct (Redis.getNextRoundRobinIndex (provider k0) prio
              (Z.of_nat (List.length (k0 :: rest))) (Redis.elapse pause s)) as [i s1].
  rewrite IH.
  destruct (rr_indices pauses (provider k0) prio (Z.of_nat (List.length (k0 :: rest))) s1)
    as [l s2].
  reflexivity.
Qed.

(** C5, amended.  One round-robin selection on a group increments the
    counter of (provider of the group's first key, priority) and returns
    the key at index (new value - 1) mod (group size) of the group.  So
    [k * m] consecutive selections on an unchanged group of [k] keys,
    from any counter value, return every index of the group exactly [m]
    times, provided each selection after the first comes before the
    counter's time to live (3600 seconds, renewed by every selection) has
    run out.  The counter is what [INCR] made it, never negative. *)
Theorem round_robin_selects_each_index_equally
    (k0 : ApiKeyInfo) (rest : list ApiKeyInfo) (prio : Z) (m : nat)
    (pauses : list Z) (s : gmap string Redis.entry) :
  counters_nonneg s ->
  let keys := k0 :: rest in
  let k := List.length keys in
  let rr := Redis.roundRobinIndex (provider k0) prio in
  let indices := fst (rr_indices pauses (provider k0) prio (Z.of_nat k) s) in
  List.length pauses = (k * m)%nat ->
  Forall (fun pause => 0 <= pause < counter_ttl) (List.tl pauses) ->
  (let '(selected, s') := KeyManager.selectRoundRobin keys prio s in
   counter s' rr = counter s rr + 1
   /\ selected = nth_error keys (Z.to_nat ((counter s' rr - 1) mod Z.of_nat k))
   /\ 0 <= (counter s' rr - 1) mod Z.of_nat k < Z.of_nat k)
  /\ fst (rr_selections pauses keys prio s) = List.map (Js.index keys) indices
  /\ forall i : nat, (i < k)%nat -> count_index (Z.of_nat i) indices = m.
Proof.
  intros Hs keys k rr indices Hlen Hp.
  assert (Hk : 0 < Z.of_nat k) by (unfold k, keys; simpl; lia).
  split; [|split].
  - unfold KeyManager.selectRoundRobin, keys at 1.
    fold keys. fold k. rewrite getNextRoundRobinIndex_eq. fold rr.
    rewrite counter_insert. destruct (decide (rr = rr)) as [_|]; [|congruence].
    cbn [Redis.value].
    replace (counter s rr + 1 - 1) with (counter s rr) by lia.
    destruct (js_rem_range (counter s rr) (Z.of_nat k) (Hs rr) Hk) as (i & -> & Hi & Ei).
    subst i. split; [reflexivity|]. split; [|exact Hi].
    unfold Js.index. destruct (Z.ltb_spec (counter s rr mod Z.of_nat k) 0); [lia|reflexivity].
  - unfold indices, keys, k. now rewrite rr_selections_eq.
  - intros i Hi. unfold indices.
    destruct pauses as [|pause pauses].
    + simpl in Hlen. assert (m = 0%nat) by nia. subst m. reflexivity.
    + assert (Hlen' : S (List.length pauses) = (k * m)%nat) by exact Hlen.
      change (List.tl (pause :: pauses)) with pauses in Hp.
      rewrite (rr_indices_eq _ _ _ _ _ _ Hk Hs Hp).
      rewrite Hlen', count_index_map. apply blocks_count. lia.
Qed.

Lemma round_robin_selects_each_index_equally_witness :
  count_index 0 (fst (rr_indices [0; 1000; 3599999; 5; 60000; 0] "openai" 1 2 ∅)) = 3%nat
  /\ count_index 1 (fst (rr_indices [0; 1000; 3599999; 5; 60000; 0] "openai" 1 2 ∅))
     = 3%nat.
Proof.
  pose proof (proj2 (proj2
    (round_robin_selects_each_index_equally key_A [key_B] 1 3
       [0; 1000; 3599999; 5; 60000; 0] ∅ counters_nonneg_empty eq_refl
       ltac:(repeat constructor; unfold counter_ttl; lia)))) as H.
  split; [apply (H 0%nat)|apply (H 1%nat)]; simpl; lia.
Defined.

Example round_robin_alternates :
  fst (rr_selections [0; 10; 10; 10] [key_A; key_B] 1 ∅)
  = [Some key_A; Some key_B; Some key_A; Some key_B].
Proof. vm_compute. reflexivity. Qed.

(** C5 as stated fails when the counter expires between two selections:
    on a group of three keys, a second selection made an hour after the
    first starts the counter again, and the three selections return the
    indices 0, 0, 1: index 0 twice, index 2 never. *)
Lemma round_robin_restarts_after_expiry :
  fst (rr_selections [0; 3600000; 0] [key_A; key_B; key_S] 1 ∅)
  = [Some key_A; Some key_A; Some key_B]
  /\ ~ (forall i : nat, (i < 3)%nat ->
          count_index (Z.of_nat i) (fst (rr_indices [0; 3600000; 0] "openai" 1 3 ∅))
          = 1%nat).
Proof.
  split; [vm_compute; reflexivity|].
  intros H. specialize (H 2%nat ltac:(lia)). vm_compute in H. discriminate H.
Qed.

(** ** Numbers of the retry configuration *)

Lemma ltQ_lt (a b : Q) : Js.ltQ a b = true <-> (a < b)%Q.
Proof.
  unfold Js.ltQ. rewrite negb_true_iff. split.
  - intros H. apply Qnot_le_lt. intros Hle. apply Qle_bool_iff in Hle. congruence.
  - intros H. destruct (Qle_bool b a) eqn:E; [|reflexivity].
    apply Qle_bool_iff in E. exfalso. exact (Qlt_not_le _ _ H E).
Qed.

Lemma ltQ_ge (a b : Q) : Js.ltQ a b = false <-> ~ (a < b)%Q.
Proof.
  rewrite <- ltQ_lt. destruct (Js.ltQ a b); split; congruence.
Qed.

Lemma below_ceiling (i : Z) (m : Q) : (inject_Z i < m)%Q <-> i < Qceiling m.
Proof.
  split.
  - intros H. rewrite Zlt_Qlt. eapply Qlt_le_trans; [exact H|apply Qle_ceiling].
  - intros H. assert (H1 : i <= Qceiling m - 1) by lia.
    rewrite Zle_Qle in H1. eapply Qle_lt_trans; [exact H1|apply Qceiling_lt].
Qed.

Lemma below_pred (i : Z) (m : Q) : (inject_Z i < m - 1)%Q <-> (inject_Z (i + 1) < m)%Q.
Proof. rewrite inject_Z_plus. change (inject_Z 1) with 1%Q. split; intros H; lra. Qed.

Lemma setTimeout_delay_lasts (ms : Q) : sleep_lasts ms (Js.setTimeout_delay ms).
Proof.
  unfold sleep_lasts, Js.setTimeout_delay, Js.TIMEOUT_MAX.
  destruct (Qle_bool 1 ms && Qle_bool ms (inject_Z 2147483647)) eqn:E.
  - split; [|intros H; exfalso; apply H].
    + intros _. split; [apply Qfloor_le|apply Qlt_floor].
    + apply andb_true_iff in E as [E1 E2].
      apply Qle_bool_iff in E1, E2. split; [exact E1|exact E2].
  - split; [|reflexivity].
    intros [H1 H2]. apply Qle_bool_iff in H1, H2.
    change (inject_Z 2147483647) with 2147483647%Q in E.
    rewrite H1, H2 in E. discriminate.
Qed.

Lemma setTimeout_delay_pos (ms : Q) : 1 <= Js.setTimeout_delay ms.
Proof.
  unfold Js.setTimeout_delay.
  destruct (Qle_bool 1 ms && Qle_bool ms (inject_Z Js.TIMEOUT_MAX)) eqn:E; [|lia].
  apply andb_true_iff in E as [E1 _]. apply Qle_bool_iff in E1.
  exact (Qfloor_resp_le 1 ms E1).
Qed.

(** ** Traces of the retry loop *)

Lemma scheduled_attempts (maxRetries retryDelayMs : Q) (i : Z) (tr : list Router.Event) :
  scheduled maxRetries retryDelayMs i tr ->
  attempts_of tr
  = List.map (fun j => i + Z.of_nat j) (seq 0 (List.length (attempts_of tr)))
  /\ i + Z.of_nat (List.length (attempts_of tr)) <= Z.max i (Qceiling maxRetries).
Proof.
  induction 1 as [i Hi|i Hi|i e Hi He|i e Hi Hl He|i e o tr Hi He Hs IH]; simpl.
  - split; [reflexivity|lia].
  - apply below_ceiling in Hi. split; [f_equal; lia|lia].
  - apply below_ceiling in Hi. split; [f_equal; lia|lia].
  - apply below_ceiling in Hi. split; [f_equal; lia|lia].
  - simpl in IH. destruct IH as [IH1 IH2]. split; [|lia].
    f_equal; [lia|]. rewrite IH1 at 1. simpl. f_equal; [lia|].
    rewrite <- (seq_shift _ 1), <- (seq_shift _ 0), !map_map.
    apply map_ext. intros j. lia.
Qed.

Lemma scheduled_after_attempt (maxRetries retryDelayMs : Q) (i : Z)
    (tr : list Router.Event) :
  scheduled maxRetries retryDelayMs i tr ->
  forall pre j o post,
    tr = (pre ++ Router.EvAttempt j o :: post)%list ->
    after_attempt maxRetries retryDelayMs j o post.
Proof.
  induction 1 as [i Hi|i Hi|i e Hi He|i e Hi Hl He|i e o tr Hi He Hs IH];
    intros pre j o' post E.
  - now destruct pre.
  - destruct pre as [|x [|y pre]]; inversion E; subst. reflexivity.
  - destruct pre as [|x [|y pre]]; inversion E; subst. simpl. tauto.
  - destruct pre as [|x [|y pre]]; inversion E; subst. simpl. tauto.
  - destruct pre as [|x pre].
    + inversion E; subst. simpl. split; [tauto|]. intros _. split; [eauto|tauto].
    + destruct pre as [|y pre]; [inversion E|].
      inversion E as [[Ex Ey H2]]. exact (IH pre j o' post H2).
Qed.

Lemma scheduled_first (maxRetries retryDelayMs : Q) (tr : list Router.Event) :
  scheduled maxRetries retryDelayMs 0 tr -> (0 < maxRetries)%Q ->
  exists o post, tr = Router.EvAttempt 0 o :: post.
Proof.
  intros H Hpos. inversion H; subst; eauto.
  exfalso. change (inject_Z 0) with 0%Q in *. lra.
Qed.

Lemma isNonRetryableError_spec (e : Error) :
  Router.isNonRetryableError e = true <-> not_retried e.
Proof.
  unfold not_retried. destruct e as [g|m]; simpl.
  - destruct (Z.geb_spec (statusCode g) 400), (Z.ltb_spec (statusCode g) 500); simpl;
      try (split; [discriminate|intros (g' & [= <-] & H1 & H2); lia]).
    rewrite negb_true_iff, Z.eqb_neq. split.
    + intros H1. exists g. repeat split; auto; lia.
    + intros (g' & [= <-] & H1 & H2). exact H2.
  - split; [discriminate|]. intros (g & H & _). discriminate.
Qed.

Lemma isNonRetryableError_retried (e : Error) :
  Router.isNonRetryableError e = false <-> ~ not_retried e.
Proof.
  rewrite <- isNonRetryableError_spec.
  destruct (Router.isNonRetryableError e); split; congruence.
Qed.

Lemma last_failure_cons_attempt (i : Z) (e : Error) (tr : list Router.Event) :
  last_failure (Router.EvAttempt i (Router.Failed e) :: tr)
  = Some match last_failure tr with Some e' => e' | None => e end.
Proof. simpl. now destruct (last_failure tr). Qed.

Lemma last_failure_cons_sleep (d : Q) (tr : list Router.Event) :
  last_failure (Router.EvSleep d :: tr) = last_failure tr.
Proof. simpl. now destruct (last_failure tr). Qed.

(** ** The key table keeps its ids *)

Lemma selectKey_ids (strategy : KeySelectionStrategy) (context : RoutingContext)
    (today : Date) (st : Stores) :
  List.map id (keys_table (snd (KeyManager.selectKey strategy context today st)))
  = List.map id (keys_table st).
Proof.
  rewrite selectKey_table.
  destruct (Prisma.findMany (KeyManager.whereConditions context) (keys_table st))
    as [|k0 listing]; [reflexivity|].
  unfold KeyManager.resetDailyUsageIfNeeded.
  destruct (List.map id (List.filter (KeyManager.stale today) (k0 :: listing)));
    [reflexivity|].
  simpl snd. unfold Prisma.updateMany_reset. rewrite map_map. apply map_ext.
  intros k. now destruct (Prisma.in_strings (id k) _).
Qed.

Lemma update_increment_ids (keyId : string) (now : Date) (table : list ApiKeyInfo) :
  List.map id (Prisma.update_increment keyId now table) = List.map id table.
Proof.
  unfold Prisma.update_increment. rewrite map_map. apply map_ext.
  intros k. now destruct (String.eqb (id k) keyId).
Qed.

Lemma logUsage_stores (entry : Router.UsageLogEntry) (w : Router.World) :
  Router.stores (Router.logUsage entry w) = Router.stores w
  /\ Router.now (Router.logUsage entry w) = Router.now w.
Proof.
  unfold Router.logUsage.
  now destruct (Router.usageLog_create entry _ _).
Qed.

Lemma existsb_map_id (p : string -> bool) (table : list ApiKeyInfo) :
  List.existsb (fun k => p (id k)) table = List.existsb p (List.map id table).
Proof. induction table as [|k table IH]; simpl; congruence. Qed.

Lemma usageLog_create_ids (entry : Router.UsageLogEntry) (table table' : list ApiKeyInfo)
    (log : list Router.UsageLogEntry) :
  List.map id table' = List.map id table ->
  Router.usageLog_create entry table' log = Router.usageLog_create entry table log.
Proof.
  intros E. unfold Router.usageLog_create.
  rewrite (existsb_map_id (fun i => String.eqb i (Router.log_keyId entry)) table').
  rewrite (existsb_map_id (fun i => String.eqb i (Router.log_keyId entry)) table).
  now rewrite E.
Qed.

Lemma usageLog_create_refused (entry : Router.UsageLogEntry) (table : list ApiKeyInfo)
    (log : list Router.UsageLogEntry) :
  ~ In (Router.log_keyId entry) (List.map id table) ->
  exists e, Router.usageLog_create entry table log = Err e.
Proof.
  intros H. unfold Router.usageLog_create.
  destruct (List.existsb _ table) eqn:E; [|eauto].
  exfalso. apply H. apply existsb_exists in E as (k & Hk & E).
  apply String.eqb_eq in E. rewrite <- E. now apply in_map.
Qed.

Lemma usageLog_create_taken (entry : Router.UsageLogEntry) (table : list ApiKeyInfo)
    (log : list Router.UsageLogEntry) :
  In (Router.log_keyId entry) (List.map id table) ->
  Router.usageLog_create entry table log = Ok (log ++ [entry])%list.
Proof.
  intros H. unfold Router.usageLog_create.
  destruct (List.existsb _ table) eqn:E; [reflexivity|].
  exfalso. apply in_map_iff in H as (k & Hk & Hin).
  assert (H : List.existsb (fun k => String.eqb (id k) (Router.log_keyId entry)) table = true).
  { apply existsb_exists. exists k. split; [exact Hin|]. rewrite Hk. apply String.eqb_refl. }
  congruence.
Qed.

(** ** Retry loop of the router *)

Section RouteProperties.
Variable strategy : KeySelectionStrategy.
Variable maxRetries : Q.
Variable retryDelayMs : Q.
Variable providerConfigs : string -> option (string * Z).
Variable RegExp_test : string -> string -> option bool.
Variable startOfDay : Z -> Date.
Variable chat :
  Z -> string -> Router.ProviderRequest -> Router.ProviderConfig ->
  result Router.ChatResponse * Z.

Let route_loop :=
  Router.route_loop strategy maxRetries retryDelayMs providerConfigs
    RegExp_test startOfDay chat.
Let try_attempt :=
  Router.try_attempt strategy providerConfigs RegExp_test startOfDay chat.

Lemma route_loop_scheduled (request : Router.ChatRequest) (reqId : string)
    (startTime : Z) (left : nat) (i : Z) (attempted : gset string)
    (lastError : option Error) (w : Router.World) :
  0 <= i -> Z.of_nat left = Z.max 0 (Qceiling maxRetries - i) ->
  scheduled maxRetries retryDelayMs i
    (snd (route_loop request reqId startTime left i attempted lastError w)).
Proof.
  revert i attempted lastError w.
  induction left as [|left IH]; intros i attempted lastError w Hi Hleft.
  - simpl. constructor.
    destruct (Qlt_le_dec (inject_Z i) maxRetries) as [H|H]; [|exact H].
    apply below_ceiling in H. lia.
  - assert (Hlt : (inject_Z i < maxRetries)%Q) by (apply below_ceiling; lia).
    unfold route_loop. cbn [Router.route_loop].
    fold try_attempt.
    destruct (try_attempt request reqId startTime i attempted w)
      as [[[r|e] attempted'] w1].
    + simpl. apply sched_success. exact Hlt.
    + destruct (Router.isNonRetryableError e) eqn:En.
      * simpl. apply sched_abort; [exact Hlt|now apply isNonRetryableError_spec].
      * apply isNonRetryableError_retried in En.
        destruct (Js.ltQ (inject_Z i) (maxRetries - 1)) eqn:El.
        -- apply ltQ_lt in El.
           assert (Hnext : i + 1 < Qceiling maxRetries)
             by (apply below_ceiling, below_pred; exact El).
           specialize (IH (i + 1) attempted' (Some e)
                         (Router.sleep (retryDelayMs * inject_Z (2 ^ i)) w1)
                         ltac:(lia) ltac:(lia)).
           unfold route_loop in IH.
           destruct (Router.route_loop strategy maxRetries retryDelayMs providerConfigs
                       RegExp_test startOfDay chat request reqId startTime left (i + 1)
                       attempted' (Some e)
                       (Router.sleep (retryDelayMs * inject_Z (2 ^ i)) w1))
             as [[x w2] tr].
           simpl in *.
           assert (Hn : (inject_Z (i + 1) < maxRetries)%Q) by (apply below_pred; exact El).
           inversion IH; subst;
             try (exfalso; eapply Qlt_not_le; [exact Hn|eassumption]);
             apply sched_retry; auto; rewrite <- ?H; try (constructor; auto; fail).
        -- apply ltQ_ge in El.
           assert (left = 0%nat).
           { destruct left as [|left']; [reflexivity|]. exfalso. apply El.
             apply below_pred, below_ceiling. lia. }
           subst left. simpl.
           apply sched_last; [exact Hlt|exact El|exact En].
Qed.

(** What one attempt leaves alone: the ids of the key table, the world
    but for the two stores when it fails before the provider call, and
    the usage log when it fails. *)
Lemma try_attempt_frame (request : Router.ChatRequest) (reqId : string)
    (startTime i : Z) (attempted attempted' : gset string) (w w1 : Router.World)
    (r : result (Router.ChatResponse * Router.Metadata)) :
  try_attempt request reqId startTime i attempted w = (r, attempted', w1) ->
  List.map id (keys_table (Router.stores w1))
  = List.map id (keys_table (Router.stores w))
  /\ (forall e, r = Err e -> Router.usage_log w1 = Router.usage_log w).
Proof.
  unfold try_attempt, Router.try_attempt, Router.selectKeyWithFallback.
  pose proof (selectKey_ids strategy (Router.context_of request)
                (startOfDay (Router.now w)) (Router.stores w)) as Hids.
  destruct (KeyManager.selectKey strategy (Router.context_of request)
              (startOfDay (Router.now w)) (Router.stores w)) as [[sel|e0] st];
    simpl snd in Hids.
  - destruct (decide (id (key sel) ∈ attempted)).
    + intros [= <- _ <-]. simpl. auto.
    + destruct (Providers.getProviderAdapter RegExp_test (provider (key sel))) as [adapter|].
      * destruct (Providers.validateModel adapter (resolvedModel sel)) as [[|]|].
        -- destruct (Router.buildProviderConfig providerConfigs (key sel)) as [cfg|e1].
           ++ destruct (chat i (provider (key sel)) _ cfg) as [[resp|e2] elapsed].
              ** intros [= <- _ <-].
                 match goal with
                 | |- context [Router.logUsage ?row ?w3] =>
                     destruct (logUsage_stores row w3) as [Hst _]
                 end.
                 rewrite Hst. simpl. rewrite update_increment_ids.
                 split; [exact Hids|]. intros e. discriminate.
              ** intros [= <- _ <-]. simpl. auto.
           ++ intros [= <- _ <-]. simpl. auto.
        -- intros [= <- _ <-]. simpl. auto.
        -- intros [= <- _ <-]. simpl. auto.
      * intros [= <- _ <-]. simpl. auto.
  - intros [= <- _ <-]. simpl. auto.
Qed.

(** The clock does not run backwards when no provider call does. *)
Lemma try_attempt_later (request : Router.ChatRequest) (reqId : string)
    (startTime i : Z) (attempted attempted' : gset string) (w w1 : Router.World)
    (r : result (Router.ChatResponse * Router.Metadata)) :
  (forall a p q c, 0 <= snd (chat a p q c)) ->
  try_attempt request reqId startTime i attempted w = (r, attempted', w1) ->
  Router.now w <= Router.now w1.
Proof.
  intros Hchat.
  unfold try_attempt, Router.try_attempt, Router.selectKeyWithFallback.
  destruct (KeyManager.selectKey strategy (Router.context_of request)
              (startOfDay (Router.now w)) (Router.stores w)) as [[sel|e0] st].
  - destruct (decide (id (key sel) ∈ attempted)).
    + intros [= _ _ <-]. simpl. lia.
    + destruct (Providers.getProviderAdapter RegExp_test (provider (key sel))) as [adapter|].
      * destruct (Providers.validateModel adapter (resolvedModel sel)) as [[|]|].
        -- destruct (Router.buildProviderConfig providerConfigs (key sel)) as [cfg|e1].
           ++ match goal with
              | |- context [chat i ?p ?q cfg] =>
                  pose proof (Hchat i p q cfg) as Hel;
                  destruct (chat i p q cfg) as [[resp|e2] elapsed]
              end; simpl snd in Hel.
              ** intros [= _ _ <-].
                 match goal with
                 | |- context [Router.logUsage ?row ?w3] =>
                     destruct (logUsage_stores row w3) as [_ Hnow]
                 end.
                 rewrite Hnow. simpl. lia.
              ** intros [= _ _ <-]. simpl. lia.
           ++ intros [= _ _ <-]. simpl. lia.
        -- intros [= _ _ <-]. simpl. lia.
        -- intros [= _ _ <-]. simpl. lia.
      * intros [= _ _ <-]. simpl. lia.
  - intros [= _ _ <-]. simpl. lia.
Qed.

Lemma sleep_world (ms : Q) (w : Router.World) :
  Router.now (Router.sleep ms w) = Router.now w + Js.setTimeout_delay ms
  /\ keys_table (Router.stores (Router.sleep ms w)) = keys_table (Router.stores w)
  /\ Router.usage_log (Router.sleep ms w) = Router.usage_log w.
Proof. repeat split. Qed.

(** The run of the loop as a whole: its key table, and how the way it
    ended shows in its trace. *)
Lemma route_loop_frame (request : Router.ChatRequest) (reqId : string)
    (startTime : Z) (left : nat) (i : Z) (attempted : gset string)
    (lastError : option Error) (w w1 : Router.World) (x : Router.LoopExit)
    (tr : list Router.Event) :
  route_loop request reqId startTime left i attempted lastError w = (x, w1, tr) ->
  List.map id (keys_table (Router.stores w1))
  = List.map id (keys_table (Router.stores w))
  /\ match x with
     | Router.Returned _ =>
         exists pre j, tr = (pre ++ [Router.EvAttempt j Router.Succeeded])%list
     | Router.Fell le =>
         List.Forall (fun ev => forall j, ev <> Router.EvAttempt j Router.Succeeded) tr
         /\ Router.usage_log w1 = Router.usage_log w
         /\ le = match last_failure tr with Some e => Some e | None => lastError end
     end.
Proof.
  revert i attempted lastError w x w1 tr.
  induction left as [|left IH]; intros i attempted lastError w x w1 tr.
  - simpl. intros [= <- <- <-]. simpl. repeat split; auto.
  - unfold route_loop. cbn [Router.route_loop]. fold try_attempt.
    destruct (try_attempt request reqId startTime i attempted w)
      as [[[r|e] attempted'] w0] eqn:Et;
      destruct (try_attempt_frame _ _ _ _ _ _ _ _ _ Et) as (Hids & Hlog).
    + intros [= <- <- <-]. simpl. split; [exact Hids|].
      exists [], i. reflexivity.
    + specialize (Hlog e eq_refl).
      destruct (Router.isNonRetryableError e).
      * intros [= <- <- <-]. simpl. split; [exact Hids|].
        split; [|split; [exact Hlog|reflexivity]].
        constructor; [intros j; discriminate|constructor].
      * destruct (Js.ltQ (inject_Z i) (maxRetries - 1)).
        -- destruct (Router.route_loop strategy maxRetries retryDelayMs providerConfigs
                       RegExp_test startOfDay chat request reqId startTime left (i + 1)
                       attempted' (Some e)
                       (Router.sleep (retryDelayMs * inject_Z (2 ^ i)) w0))
             as [[x2 w2] tr2] eqn:El.
           intros [= <- <- <-]. apply IH in El as (Hi2 & Hx).
           destruct (sleep_world (retryDelayMs * inject_Z (2 ^ i)) w0) as (Sn & St & Sl).
           rewrite St in Hi2.
           split; [congruence|].
           destruct x2 as [r2|le2].
           ++ destruct Hx as (pre & j & ->).
              exists (Router.EvAttempt i (Router.Failed e)
                      :: Router.EvSleep (retryDelayMs * inject_Z (2 ^ i)) :: pre), j.
              reflexivity.
           ++ destruct Hx as (Hf & Hl2 & Hle). rewrite Sl in Hl2.
              split; [|split; [congruence|]].
              ** constructor; [intros j; discriminate|].
                 constructor; [intros j; discriminate|exact Hf].
              ** rewrite last_failure_cons_attempt, last_failure_cons_sleep.
                 rewrite Hle. now destruct (last_failure tr2).
        -- destruct (Router.route_loop strategy maxRetries retryDelayMs providerConfigs
                       RegExp_test startOfDay chat request reqId startTime left (i + 1)
                       attempted' (Some e) w0)
             as [[x2 w2] tr2] eqn:El.
           intros [= <- <- <-]. apply IH in El as (Hi2 & Hx).
           split; [congruence|].
           destruct x2 as [r2|le2].
           ++ destruct Hx as (pre & j & ->).
              exists (Router.EvAttempt i (Router.Failed e) :: pre), j. reflexivity.
           ++ destruct Hx as (Hf & Hl2 & Hle).
              split; [|split; [congruence|]].
              ** constructor; [intros j; discriminate|exact Hf].
              ** rewrite last_failure_cons_attempt.
                 rewrite Hle. now destruct (last_failure tr2).
Qed.

(** The clock of the loop: it ends no earlier than the sleeps
    together. *)
Lemma route_loop_clock (request : Router.ChatRequest) (reqId : string)
    (startTime : Z) (left : nat) (i : Z) (attempted : gset string)
    (lastError : option Error) (w w1 : Router.World) (x : Router.LoopExit)
    (tr : list Router.Event) :
  (forall a p q c, 0 <= snd (chat a p q c)) ->
  route_loop request reqId startTime left i attempted lastError w = (x, w1, tr) ->
  Router.now w + sum_Z (List.map Js.setTimeout_delay (sleeps_of tr)) <= Router.now w1.
Proof.
  intros Hchat. revert i attempted lastError w x w1 tr.
  induction left as [|left IH]; intros i attempted lastError w x w1 tr.
  - simpl. intros [= <- <- <-]. simpl. lia.
  - unfold route_loop. cbn [Router.route_loop]. fold try_attempt.
    destruct (try_attempt request reqId startTime i attempted w)
      as [[[r|e] attempted'] w0] eqn:Et;
      pose proof (try_attempt_later _ _ _ _ _ _ _ _ _ Hchat Et) as Hnow.
    + intros [= <- <- <-]. simpl. lia.
    + destruct (Router.isNonRetryableError e).
      * intros [= <- <- <-]. simpl. lia.
      * destruct (Js.ltQ (inject_Z i) (maxRetries - 1)).
        -- destruct (Router.route_loop strategy maxRetries retryDelayMs providerConfigs
                       RegExp_test startOfDay chat request reqId startTime left (i + 1)
                       attempted' (Some e)
                       (Router.sleep (retryDelayMs * inject_Z (2 ^ i)) w0))
             as [[x2 w2] tr2] eqn:El.
           intros [= <- <- <-]. apply IH in El as Hn2.
           destruct (sleep_world (retryDelayMs * inject_Z (2 ^ i)) w0) as (Sn & _).
           rewrite Sn in Hn2. simpl. unfold sum_Z in *. simpl. lia.
        -- destruct (Router.route_loop strategy maxRetries retryDelayMs providerConfigs
                       RegExp_test startOfDay chat request reqId startTime left (i + 1)
                       attempted' (Some e) w0)
             as [[x2 w2] tr2] eqn:El.
           intros [= <- <- <-]. apply IH in El as Hn2. simpl. lia.
Qed.

Lemma sum_delays_nonneg (l : list Q) : 0 <= sum_Z (List.map Js.setTimeout_delay l).
Proof.
  unfold sum_Z. induction l as [|ms l IH]; cbn [List.map fold_right]; [lia|].
  pose proof (setTimeout_delay_pos ms). lia.
Qed.

Lemma route_loop_later (request : Router.ChatRequest) (reqId : string)
    (startTime : Z) (left : nat) (i : Z) (attempted : gset string)
    (lastError : option Error) (w w1 : Router.World) (x : Router.LoopExit)
    (tr : list Router.Event) :
  (forall a p q c, 0 <= snd (chat a p q c)) ->
  route_loop request reqId startTime left i attempted lastError w = (x, w1, tr) ->
  Router.now w <= Router.now w1.
Proof.
  intros Hchat El. pose proof (route_loop_clock _ _ _ _ _ _ _ _ _ _ _ Hchat El).
  pose proof (sum_delays_nonneg (sleeps_of tr)). lia.
Qed.

Lemma sleeps_last_map (l : list Q) :
  List.Forall2 sleep_lasts l (List.map Js.setTimeout_delay l).
Proof.
  induction l as [|ms l IH]; simpl; constructor; auto. apply setTimeout_delay_lasts.
Qed.

(** What [route] makes of the way its loop ended. *)
Lemma route_unfold (request : Router.ChatRequest) (w : Router.World) :
  let reqId := match Js.truthy (Router.requestId request) with
               | Some r => r
               | None => "req_" +:+ Js.number_to_string (Router.now w)
               end in
  let run := Router.route strategy maxRetries retryDelayMs providerConfigs
               RegExp_test startOfDay chat request w in
  exists x w1,
    route_loop request reqId (Router.now w) (Z.to_nat (Qceiling maxRetries)) 0 ∅ None w
    = (x, w1, snd run)
    /\ Router.now (snd (fst run)) = Router.now w1
    /\ Router.stores (snd (fst run)) = Router.stores w1
    /\ match x with
       | Router.Returned r => fst (fst run) = Ok r /\ snd (fst run) = w1
       | Router.Fell lastError =>
           fst (fst run)
           = Err match lastError with
                 | Some (GatewayError g) => GatewayError g
                 | _ => GatewayError
                          (NoEligibleKeyError (Router.model request)
                             (Some (Router.req_provider request)))
                 end
           /\ exists row,
                snd (fst run) = Router.logUsage row w1
                /\ Router.log_keyId row = "unknown"
                /\ Router.log_success row = false
                /\ Router.log_errorMessage row = option_map error_message lastError
       end.
Proof.
  intros reqId run. unfold run, Router.route. fold reqId. unfold route_loop.
  destruct (Router.route_loop strategy maxRetries retryDelayMs providerConfigs
              RegExp_test startOfDay chat request reqId (Router.now w)
              (Z.to_nat (Qceiling maxRetries)) 0 ∅ None w) as [[x w1] tr].
  exists x, w1. destruct x as [r|lastError].
  - simpl. repeat split.
  - match goal with
    | |- context [Router.logUsage ?row w1] =>
        destruct (logUsage_stores row w1) as [Hst Hnow];
        set (w2 := Router.logUsage row w1) in *
    end.
    destruct lastError as [[g|m]|]; simpl; repeat split; auto;
      eexists; (split; [reflexivity|]); repeat split.
Qed.

(** C6, as amended.  The events of one [route] call, attempts and
    sleeps in order.  The attempts are numbered 0, 1, 2, ... and there
    are no more of them than any whole number that [maxRetries] does
    not exceed (so at most [maxRetries] when that is a whole number);
    with [maxRetries] positive the first attempt is made.  The call
    returns exactly when its last event is an attempt that succeeded.
    An attempt that succeeds is the last event; an attempt that fails
    with a gateway error of status 400..499 other than 429 is the last
    event; an attempt [i] that fails with any other error (5xx, 429,
    an error that is no gateway error) is followed, when
    [i < maxRetries - 1], by a call of [sleep] with
    [retryDelayMs * 2^i] and then attempt [i + 1], and is the last
    event otherwise.  Each sleep lasts the whole milliseconds of its
    delay when that lies between 1 and [2^31 - 1], and one millisecond
    otherwise: when no provider call takes a negative time, the clock
    ends no earlier than the time of the call plus the sleeps. *)
Theorem route_retry_policy (request : Router.ChatRequest) (w : Router.World) :
  let run := Router.route strategy maxRetries retryDelayMs providerConfigs
               RegExp_test startOfDay chat request w in
  let tr := snd run in
  let n := Z.of_nat (List.length (attempts_of tr)) in
  (forall m : Z, 0 <= m -> (maxRetries <= inject_Z m)%Q -> n <= m)
  /\ attempts_of tr = List.map Z.of_nat (seq 0 (List.length (attempts_of tr)))
  /\ ((0 < maxRetries)%Q -> exists o post, tr = Router.EvAttempt 0 o :: post)
  /\ ((exists r, fst (fst run) = Ok r)
      <-> exists pre i, tr = (pre ++ [Router.EvAttempt i Router.Succeeded])%list)
  /\ (forall pre i o post,
        tr = (pre ++ Router.EvAttempt i o :: post)%list ->
        after_attempt maxRetries retryDelayMs i o post)
  /\ exists ds,
       List.Forall2 sleep_lasts (sleeps_of tr) ds
       /\ ((forall a p q c, 0 <= snd (chat a p q c)) ->
           Router.now w + sum_Z ds <= Router.now (snd (fst run))).
Proof.
  intros run tr n.
  destruct (route_unfold request w) as (x & w1 & El & Hnow & _ & Hx).
  fold run in El, Hnow, Hx. fold tr in El.
  match type of El with
  | route_loop _ ?reqId _ _ _ _ _ _ = _ =>
      pose proof (route_loop_scheduled request reqId (Router.now w)
                    (Z.to_nat (Qceiling maxRetries)) 0 ∅ None w ltac:(lia) ltac:(lia)) as Hs
  end.
  rewrite El in Hs. simpl snd in Hs.
  destruct (scheduled_attempts _ _ _ _ Hs) as [H1 H2].
  destruct (route_loop_frame _ _ _ _ _ _ _ _ _ _ _ El) as [_ Hend].
  split; [|split; [|split; [|split; [|split]]]].
  - intros m Hm Hle. apply Qceiling_resp_le in Hle. rewrite Qceiling_Z in Hle.
    unfold n. lia.
  - rewrite H1 at 1. apply map_ext. intros j. lia.
  - intros Hpos. exact (scheduled_first _ _ _ Hs Hpos).
  - destruct x as [r|lastError].
    + destruct Hx as [Hr _]. split; [intros _; exact Hend|intros _; eauto].
    + destruct Hx as [Hr _]. destruct Hend as (Hf & _).
      split; [intros [r Hr']; congruence|].
      intros (pre & i & E). exfalso. rewrite E in Hf.
      apply List.Forall_app in Hf as [_ Hf]. inversion Hf as [|? ? Hh _]; subst.
      exact (Hh i eq_refl).
  - intros pre i o post E. exact (scheduled_after_attempt _ _ _ _ Hs pre i o post E).
  - exists (List.map Js.setTimeout_delay (sleeps_of tr)).
    split; [apply sleeps_last_map|].
    intros Hchat. rewrite Hnow.
    exact (route_loop_clock _ _ _ _ _ _ _ _ _ _ _ Hchat El).
Qed.

(** C7.  When [route] fails, the error it throws is the error of the
    last failed attempt when that is a gateway error, and a fresh
    [NoEligibleKey] error otherwise (another kind of error, or no
    attempt at all).  Before that it hands [logUsage] one failure row,
    whose key id is the sentinel ["unknown"] whether or not a key had
    been selected.  The usage log takes the row only if some key row
    has the id ["unknown"]; where none has (ids are UUIDs), the row is
    refused, the refusal is swallowed, and the usage log is left as it
    was. *)
Theorem route_failure_row_is_refused (request : Router.ChatRequest) (w : Router.World)
    (e : Error) :
  let run := Router.route strategy maxRetries retryDelayMs providerConfigs
               RegExp_test startOfDay chat request w in
  fst (fst run) = Err e ->
  e = match last_failure (snd run) with
      | Some (GatewayError g) => GatewayError g
      | _ => GatewayError
               (NoEligibleKeyError (Router.model request)
                  (Some (Router.req_provider request)))
      end
  /\ (~ In "unknown" (List.map id (keys_table (Router.stores w))) ->
      Router.usage_log (snd (fst run)) = Router.usage_log w)
  /\ (In "unknown" (List.map id (keys_table (Router.stores w))) ->
      exists entry,
        Router.usage_log (snd (fst run)) = (Router.usage_log w ++ [entry])%list
        /\ Router.log_success entry = false
        /\ Router.log_keyId entry = "unknown"
        /\ Router.log_errorMessage entry
           = option_map error_message (last_failure (snd run))).
Proof.
  intros run He.
  destruct (route_unfold request w) as (x & w1 & El & _ & _ & Hx).
  fold run in El, Hx.
  destruct (route_loop_frame _ _ _ _ _ _ _ _ _ _ _ El) as [Hids Hend].
  destruct x as [r|lastError]; [destruct Hx as [Hr _]; congruence|].
  destruct Hx as (Hr & row & Hw & Hkey & Hsucc & Hmsg).
  destruct Hend as (_ & Hlog & Hle).
  assert (Hle' : lastError = last_failure (snd run))
    by (rewrite Hle; now destruct (last_failure (snd run))).
  rewrite Hle' in Hr, Hmsg. clear Hle Hle' El.
  split; [congruence|].
  rewrite Hw. unfold Router.logUsage.
  rewrite (usageLog_create_ids row _ _ (Router.usage_log w1) Hids).
  split.
  - intros Hno. rewrite <- Hkey in Hno.
    destruct (usageLog_create_refused row _ (Router.usage_log w1) Hno) as [e' ->].
    exact Hlog.
  - intros Hyes. rewrite <- Hkey in Hyes.
    rewrite (usageLog_create_taken row _ (Router.usage_log w1) Hyes). simpl.
    exists row. rewrite Hlog. repeat split; auto.
Qed.
End RouteProperties.

Example demo_route_trace :
  snd demo_route
  = [ Router.EvAttempt 0
        (Router.Failed (GatewayError (ProviderError "openai" "upstream failed" 500)));
      Router.EvSleep (1000 * inject_Z (2 ^ 0));
      Router.EvAttempt 1 (Router.Failed already_attempted);
      Router.EvSleep (1000 * inject_Z (2 ^ 1));
      Router.EvAttempt 2 (Router.Failed already_attempted) ].
Proof. vm_compute. reflexivity. Qed.

(** The same run on the clock: 25 ms for the one provider call, then
    the two sleeps. *)
Example demo_route_clock :
  Router.now (snd (fst demo_route)) = Router.now demo_world + 25 + 1000 + 2000.
Proof. vm_compute. reflexivity. Qed.

(** C6 as stated fails on two counts.  With [maxRetries = 2.5], a
    number the configuration takes, the router makes three attempts.
    With [retryDelayMs = 3000000000] the sleep after attempt 0 is a timer
    beyond its range, which runs one millisecond: the run is over 26 ms
    after it began. *)
Lemma route_makes_three_attempts_of_two_and_a_half :
  (let run := Router.route ExhaustFirst 2.5 1000 demo_providerConfigs demo_RegExp_test
                demo_startOfDay demo_chat_500 demo_request demo_world in
   attempts_of (snd run) = [0; 1; 2]
   /\ ~ (inject_Z (Z.of_nat (List.length (attempts_of (snd run)))) <= 2.5)%Q)
  /\ (let run := Router.route ExhaustFirst 2 3000000000 demo_providerConfigs
                   demo_RegExp_test demo_startOfDay demo_chat_500 demo_request
                   demo_world in
      attempts_of (snd run) = [0; 1]
      /\ sleeps_of (snd run) = [(3000000000 * inject_Z (2 ^ 0))%Q]
      /\ Router.now (snd (fst run)) = Router.now demo_world + 26
      /\ ~ (Router.now demo_world + 3000000000 * 2 ^ 0 <= Router.now (snd (fst run)))).
Proof.
  split.
  - split; [vm_compute; reflexivity|]. vm_compute. intros H. apply H. reflexivity.
  - split; [vm_compute; reflexivity|]. split; [vm_compute; reflexivity|].
    split; [vm_compute; reflexivity|]. vm_compute. intros H. apply H. reflexivity.
Qed.

(** The failing run of above leaves the usage log empty. *)
Example demo_route_logs_nothing :
  fst (fst demo_route) = Err already_attempted
  /\ Router.usage_log (snd (fst demo_route)) = [].
Proof. vm_compute. split; reflexivity. Qed.

Lemma route_failure_row_is_refused_witness :
  already_attempted
  = match last_failure (snd demo_route) with
    | Some (GatewayError g) => GatewayError g
    | _ => GatewayError
             (NoEligibleKeyError (Router.model demo_request)
                (Some (Router.req_provider demo_request)))
    end
  /\ (~ In "unknown" (List.map id (keys_table (Router.stores demo_world))) ->
      Router.usage_log (snd (fst demo_route)) = Router.usage_log demo_world)
  /\ (In "unknown" (List.map id (keys_table (Router.stores demo_world))) ->
      exists entry,
        Router.usage_log (snd (fst demo_route))
        = (Router.usage_log demo_world ++ [entry])%list
        /\ Router.log_success entry = false
        /\ Router.log_keyId entry = "unknown"
        /\ Router.log_errorMessage entry
           = option_map error_message (last_failure (snd demo_route))).
Proof.
  apply (route_failure_row_is_refused ExhaustFirst 3 1000 demo_providerConfigs
           demo_RegExp_test demo_startOfDay demo_chat_500 demo_request demo_world
           already_attempted).
  vm_compute. reflexivity.
Defined.

(** ** Queue worker *)

Section WorkerProperties.
Variable strategy : KeySelectionStrategy.
Variable maxRetries : Q.
Variable retryDelayMs : Q.
Variable providerConfigs : string -> option (string * Z).
Variable RegExp_test : string -> string -> option bool.
Variable startOfDay : Z -> Date.
Variable chat :
  Z -> string -> Router.ProviderRequest -> Router.ProviderConfig ->
  result Router.ChatResponse * Z.

Lemma settle_throws (j : Queue.Job) (e : Error) : rescheduled_or_failed j e.
Proof.
  unfold rescheduled_or_failed, Queue.settle.
  destruct (Z.ltb (Queue.attemptsMade j + 1) Queue.attempts);
    cbn [fst Queue.job_state Queue.job_delay Queue.attemptsMade Queue.failedReason
         Queue.with_outcome].
  - replace (Queue.attemptsMade j + 1 - 1) with (Queue.attemptsMade j) by lia.
    repeat split.
  - split; reflexivity.
Qed.

(** C8.  When the router fails on a job's request with a gateway error
    of status below 500, [processChatJob] returns a result with
    [success = false] and the error's message, and the broker, given
    a returned value, completes the job: no further attempt.  On any
    other error [processChatJob] throws that error again, and the
    broker sends the job back with its backoff delay while the job has
    attempts left, and fails it after the last. *)
Theorem worker_completes_on_client_error (request : Router.ChatRequest)
    (w : Router.World) (e : Error) :
  fst (fst (Router.route strategy maxRetries retryDelayMs providerConfigs
              RegExp_test startOfDay chat request w)) = Err e ->
  let outcome := fst (Worker.processChatJob strategy maxRetries retryDelayMs
                        providerConfigs RegExp_test startOfDay chat request w) in
  match e with
  | GatewayError g =>
      if Z.ltb (statusCode g) 500
      then exists r,
             outcome = Worker.Returns r
             /\ Worker.success r = false
             /\ Worker.error r = Some (message g)
             /\ Worker.response r = None
             /\ forall j,
                  Queue.job_state (fst (Queue.settle j outcome)) = Queue.completed
                  /\ Queue.returnvalue (fst (Queue.settle j outcome)) = Some r
                  /\ snd (Queue.settle j outcome)
                     = Some (Queue.Completed (Queue.job_id j) (Some r))
      else outcome = Worker.Throws e /\ forall j, rescheduled_or_failed j e
  | OtherError _ => outcome = Worker.Throws e /\ forall j, rescheduled_or_failed j e
  end.
Proof.
  unfold Worker.processChatJob.
  destruct (Router.route strategy maxRetries retryDelayMs providerConfigs
              RegExp_test startOfDay chat request w) as [[[[resp md]|e'] w'] tr].
  - discriminate.
  - simpl. intros [= ->]. destruct e as [g|m].
    + destruct (Z.ltb (statusCode g) 500); simpl.
      * eexists. repeat split.
      * split; [reflexivity|]. intros j. apply settle_throws.
    + simpl. split; [reflexivity|]. intros j. apply settle_throws.
Qed.
End WorkerProperties.

Example demo_worker_rethrows_503 :
  fst (Worker.processChatJob ExhaustFirst 3 1000 demo_providerConfigs demo_RegExp_test
         demo_startOfDay demo_chat_500 demo_request demo_world)
  = Worker.Throws already_attempted.
Proof. vm_compute. reflexivity. Qed.

Lemma worker_completes_on_client_error_witness :
  exists r,
    fst (Worker.processChatJob ExhaustFirst 3 1000 demo_providerConfigs demo_RegExp_test
           demo_startOfDay demo_chat_500 demo_request world_without_keys)
    = Worker.Returns r
    /\ Worker.success r = false
    /\ Worker.error r = Some "No eligible API key found with provider: auto"
    /\ Worker.response r = None
    /\ forall j,
         Queue.job_state (fst (Queue.settle j (Worker.Returns r))) = Queue.completed.
Proof.
  destruct (worker_completes_on_client_error ExhaustFirst 3 1000 demo_providerConfigs
              demo_RegExp_test demo_startOfDay demo_chat_500 demo_request
              world_without_keys no_key_for_demo) as (r & Hr & Hs & He & Hn & Hj).
  - vm_compute. reflexivity.
  - exists r. repeat split; auto.
Defined.

(** ** The waiter of [waitForJob] *)

Lemma react_other_job (w : Queue.Waiter) (ev : Queue.QueueEvent) :
  match ev with
  | Queue.Completed jobId _ | Queue.FailedEv jobId _ => jobId <> Queue.w_requestId w
  end ->
  Queue.react w (Queue.OnEvent ev) = w.
Proof.
  destruct ev as [jobId rv|jobId reason]; simpl; intros H;
    (destruct (String.eqb_spec jobId (Queue.w_requestId w)); [contradiction|]);
    now rewrite andb_false_r.
Qed.

Lemma react_settled (w : Queue.Waiter) (s : Queue.Stimulus) (x : Queue.Settlement) :
  Queue.settled w = Some x -> Queue.settled (Queue.react w s) = Some x.
Proof.
  intros H. destruct s as [[jobId rv|jobId reason]| |[job|]]; simpl.
  - destruct (Queue.listening w && String.eqb jobId (Queue.w_requestId w)); [|exact H].
    destruct rv; unfold Queue.settle_promise; simpl; rewrite H; exact H.
  - destruct (Queue.listening w && String.eqb jobId (Queue.w_requestId w)); [|exact H].
    unfold Queue.settle_promise; simpl; rewrite H; exact H.
  - destruct (Queue.timer w); [|exact H].
    unfold Queue.settle_promise; simpl; rewrite H; exact H.
  - destruct (Queue.job_state job), (Queue.returnvalue job);
      unfold Queue.settle_promise; simpl; try rewrite H; auto.
  - exact H.
Qed.

(** A waiter settles once: what it settled with stays. *)
Lemma run_settled (l : list Queue.Stimulus) (w : Queue.Waiter) (x : Queue.Settlement) :
  Queue.settled w = Some x -> Queue.settled (Queue.run w l) = Some x.
Proof.
  revert w. induction l as [|s l IH]; intros w H; [exact H|].
  apply IH. now apply react_settled.
Qed.

(** The completion event of the awaited id resolves a pending waiter
    with the job's result. *)
Lemma react_completed (requestId : string) (timeoutMs : Z) (r : Worker.QueueJobResult) :
  Queue.settled
    (Queue.react (Queue.waitForJob requestId timeoutMs)
       (Queue.OnEvent (Queue.Completed requestId (Some r))))
  = Some (Queue.Resolved r).
Proof. simpl. now rewrite String.eqb_refl. Qed.

(** The id of a job added without [jobId] is the next counter value, and
    its name is the request id. *)
Lemma enqueueChatRequest_job_id (request : Router.ChatRequest) (prio dly : option Z)
    (uuid : string) (timestamp : Z) (b : Queue.Broker) :
  let '(requestId, b') := Queue.enqueueChatRequest request prio dly uuid timestamp b in
  exists job,
    Queue.getJob (Js.number_to_string (Queue.id_counter b + 1)) b' = Some job
    /\ Queue.job_name job = requestId
    /\ Queue.job_id job = Js.number_to_string (Queue.id_counter b + 1)
    /\ Queue.data_requestId (Queue.job_data job) = requestId.
Proof.
  unfold Queue.enqueueChatRequest, Queue.add, Queue.getJob. simpl.
  eexists. rewrite lookup_insert_eq. repeat split.
Qed.

(** C9, at the input where the code departs from it.  The queue of
    [enqueueChatRequest] keys its job by the counter, not by the request
    id.  A request enqueued as ["req-1"] on a fresh queue is
    job ["1"]; the job completes with a result and the broker publishes
    the completion of ["1"]; a waiter on ["req-1"], whether it hears that
    event or looks the job up afterwards, stays pending, and settles
    with the timeout error when its timer fires. *)
Theorem waitForJob_misses_job_enqueued_by_name :
  fst demo_enqueue = "req-1"
  /\ Queue.getJob "req-1" (snd demo_enqueue) = None
  /\ option_map Queue.job_name (Queue.getJob "1" (snd demo_enqueue)) = Some "req-1"
  /\ option_map Queue.job_state (Queue.getJob "1" (fst demo_finished))
     = Some Queue.completed
  /\ snd demo_finished = Some (Queue.Completed "1" (Some demo_result))
  /\ Queue.settled
       (Queue.run (Queue.waitForJob "req-1" 120000)
          [Queue.OnEvent (Queue.Completed "1" (Some demo_result));
           Queue.OnLookup (Queue.getJob "req-1" (fst demo_finished))])
     = None
  /\ Queue.settled
       (Queue.run (Queue.waitForJob "req-1" 120000)
          [Queue.OnEvent (Queue.Completed "1" (Some demo_result));
           Queue.OnLookup (Queue.getJob "req-1" (fst demo_finished));
           Queue.OnTimeout])
     = Some (Queue.Rejected "Job req-1 timed out after 120000ms").
Proof. vm_compute. repeat split; reflexivity. Qed.

(** ** Model validation by the adapters *)

Section ValidateModel.
Variable RegExp_test : string -> string -> option bool.

Lemma base_matches_true (m s : string) :
  Providers.base_matches RegExp_test m s = Some true <->
  s = m \/ Js.startsWith m s = true
  \/ (Js.includesChar s "*" = true
      /\ RegExp_test (Js.replaceFirstChar s "*" ".*") m = Some true).
Proof.
  unfold Providers.base_matches.
  destruct (String.eqb_spec s m) as [->|Hne]; [tauto|].
  destruct (Js.startsWith m s); [tauto|].
  destruct (Js.includesChar s "*").
  - split; [tauto|]. intros [H|[H|[_ H]]]; [contradiction|discriminate|exact H].
  - split; [discriminate|]. intros [H|[H|[H _]]]; [contradiction|discriminate|discriminate].
Qed.

Lemma some_true {A : Type} (f : A -> option bool) (l : list A) :
  Providers.some f l = Some true -> exists x, In x l /\ f x = Some true.
Proof.
  induction l as [|x l IH]; simpl; [discriminate|].
  destruct (f x) as [[|]|] eqn:E; [eauto| |discriminate].
  intros H. destruct (IH H) as (y & Hy & Hf). eauto.
Qed.

Lemma some_true_intro {A : Type} (f : A -> option bool) (l : list A) (x : A) :
  (forall y, In y l -> f y <> None) -> In x l -> f x = Some true ->
  Providers.some f l = Some true.
Proof.
  induction l as [|y l IH]; simpl; [tauto|]. intros Hv [->|Hin] Hx.
  - now rewrite Hx.
  - destruct (f y) as [[|]|] eqn:E; [reflexivity| |].
    + apply IH; auto.
    + exfalso. apply (Hv y); auto.
Qed.

(** The base [validateModel] over any list of supported models, when
    no pattern it has to try is rejected by the regular-expression
    engine. *)
Lemma base_validateModel_iff (supported : list string) (m : string) :
  (forall s, In s supported -> Providers.base_matches RegExp_test m s <> None) ->
  Providers.base_validateModel RegExp_test supported m = Some true <->
  exists s, In s supported /\ Providers.base_matches RegExp_test m s = Some true.
Proof.
  intros Hv. split.
  - apply some_true.
  - intros (s & Hin & Hs). eapply some_true_intro; eauto.
Qed.

Lemma base_matches_no_star (m s : string) :
  Js.includesChar s "*" = false -> Providers.base_matches RegExp_test m s <> None.
Proof.
  unfold Providers.base_matches. intros ->.
  destruct (String.eqb s m); [discriminate|].
  destruct (Js.startsWith m s); discriminate.
Qed.

Lemma inheriting_adapters (a : Providers.ProviderAdapter) :
  In a (Providers.adapters RegExp_test) ->
  Providers.inherits_validateModel a = true ->
  Providers.validateModel a
  = Providers.base_validateModel RegExp_test (Providers.supportedModels a)
  /\ forall s, In s (Providers.supportedModels a) -> Js.includesChar s "*" = false.
Proof.
  intros Hin Hinh.
  assert (Hstar : forall l : list string,
             forallb (fun s => negb (Js.includesChar s "*")) l = true ->
             forall s, In s l -> Js.includesChar s "*" = false).
  { intros l H s Hs. rewrite forallb_forall in H. apply negb_true_iff. now apply H. }
  simpl in Hin.
  destruct Hin as [<-|[<-|[<-|[<-|[<-|[<-|[<-|[<-|[<-|[]]]]]]]]]];
    try discriminate Hinh;
    (split; [reflexivity|]; apply Hstar; vm_compute; reflexivity).
Qed.

(** C10, amended.  For the adapters that inherit [validateModel] from
    the base class (anthropic, gemini, mistral, groq, deepseek):
    [validateModel(m)] returns true exactly when some supported entry
    equals [m], or is a prefix of [m], or contains ['*'] and matches
    [m] as a regular expression after its first ['*'] is replaced by
    ['.*'].  So these adapters accept every name that extends a
    supported name by a suffix, never reject it, and the router does
    not raise [ModelNotSupported] for it. *)
Theorem inherited_validateModel_accepts_prefix_matches
    (a : Providers.ProviderAdapter) (m : string) :
  In a (Providers.adapters RegExp_test) ->
  Providers.inherits_validateModel a = true ->
  (Providers.validateModel a m = Some true <-> some_entry_matches RegExp_test a m)
  /\ (forall s suffix,
        In s (Providers.supportedModels a) ->
        Providers.validateModel a (s +:+ suffix) = Some true).
Proof.
  intros Hin Hinh.
  destruct (inheriting_adapters a Hin Hinh) as [Hv Hstar].
  rewrite Hv. split.
  - rewrite base_validateModel_iff.
    + unfold some_entry_matches. split.
      * intros (s & Hs & H). exists s. split; [exact Hs|]. now apply base_matches_true.
      * intros (s & Hs & H). exists s. split; [exact Hs|]. now apply base_matches_true.
    + intros s Hs. apply base_matches_no_star. now apply Hstar.
  - intros s suffix Hs. apply base_validateModel_iff.
    + intros s' Hs'. apply base_matches_no_star. now apply Hstar.
    + exists s. split; [exact Hs|]. apply base_matches_true.
      right; left. apply startsWith_app.
Qed.
End ValidateModel.

Lemma inherited_validateModel_accepts_prefix_matches_witness :
  (Providers.validateModel (Providers.GroqAdapter demo_RegExp_test) "llama3-8b-8192-v2"
   = Some true
   <-> some_entry_matches demo_RegExp_test (Providers.GroqAdapter demo_RegExp_test)
         "llama3-8b-8192-v2")
  /\ (forall s suffix,
        In s (Providers.supportedModels (Providers.GroqAdapter demo_RegExp_test)) ->
        Providers.validateModel (Providers.GroqAdapter demo_RegExp_test) (s +:+ suffix)
        = Some true).
Proof.
  apply (inherited_validateModel_accepts_prefix_matches demo_RegExp_test
           (Providers.GroqAdapter demo_RegExp_test) "llama3-8b-8192-v2").
  - simpl. tauto.
  - reflexivity.
Defined.

(** C10 as stated fails for an adapter that overrides [validateModel]:
    Together rejects ["databricks/dbrx-instruct-v2"], which extends the
    supported name ["databricks/dbrx-instruct"]. *)
Lemma validateModel_together_rejects_suffix :
  ~ (Providers.validateModel Providers.TogetherAdapter "databricks/dbrx-instruct-v2"
     = Some true
     <-> some_entry_matches demo_RegExp_test Providers.TogetherAdapter
           "databricks/dbrx-instruct-v2").
Proof.
  intros [_ H].
  assert (Hm : some_entry_matches demo_RegExp_test Providers.TogetherAdapter
                 "databricks/dbrx-instruct-v2").
  { exists "databricks/dbrx-instruct". split.
    - simpl. tauto.
    - right; left. reflexivity. }
  specialize (H Hm). vm_compute in H. discriminate H.
Qed.

Example scenario_2_prefix_wildcard :
  KeyManager.isAllowed key_S "gpt-4o-mini" = true
  /\ KeyManager.isAllowed key_S "gpt-3.5-turbo" = false.
Proof. split; reflexivity. Qed.

Example together_supported_names_only :
  Providers.validateModel Providers.TogetherAdapter "databricks/dbrx-instruct" = Some true
  /\ Providers.validateModel Providers.TogetherAdapter "databricks/dbrx-instruct-v2"
     = Some false
  /\ Providers.validateModel Providers.OpenRouterAdapter "no-such-model" = Some true.
Proof. vm_compute. repeat split; reflexivity. Qed.

(* ====================================================================== *)
(** * Further properties *)
(* ====================================================================== *)

(** ** Candidates of a routing context *)

Lemma in_numbers_In (z : Z) (l : list Z) :
  Prisma.in_numbers z l = true <-> In z l.
Proof.
  unfold Prisma.in_numbers. rewrite existsb_exists. split.
  - intros (x & Hin & Hx). apply Z.eqb_eq in Hx. now subst.
  - intros H. exists z. split; [exact H|apply Z.eqb_refl].
Qed.


(** X1.  The rows the query of [selectKey] returns are the enabled rows
    that pass the priority allow-list (when it is not empty) and one
    provider condition: the requested provider when it is not ['auto'],
    and only otherwise the provider allow-list (when it is not empty).  A
    requested provider replaces the provider allow-list; the two are not
    combined. *)
Theorem candidates_of_context (context : RoutingContext) (k : ApiKeyInfo) :
  candidate context k = true <->
  enabled k = true
  /\ (requestedProvider context <> auto -> provider k = requestedProvider context)
  /\ (requestedProvider context = auto ->
      providers_allowed context = [] \/ In (provider k) (providers_allowed context))
  /\ (priorities_allowed context = [] \/ In (priority k) (priorities_allowed context)).
Proof.
  unfold candidate, KeyManager.whereConditions, Prisma.matches,
    providers_allowed, priorities_allowed.
  destruct (String.eqb_spec (requestedProvider context) auto) as [Ha|Ha];
    destruct (allowedProviders context) as [[|p l]|];
    destruct (allowedPriorities context) as [[|q l']|];
    cbn [Prisma.where_enabled Prisma.where_provider Prisma.where_priority];
    rewrite ?andb_true_iff, ?andb_true_r, ?in_strings_In, ?in_numbers_In,
      ?String.eqb_eq, ?Bool.eqb_true_iff.
  all: intuition (try congruence; try discriminate).
Qed.

Example requested_provider_replaces_allow_list :
  candidate
    {| requestedModel := None; requestedProvider := "anthropic";
       allowedProviders := Some ["openai"]; allowedPriorities := None |}
    key_N = true.
Proof. reflexivity. Qed.

(** ** What [selectKey] returns *)

Lemma index_In {A : Type} (l : list A) (i : Js.number) (x : A) :
  Js.index l i = Some x -> In x l.
Proof.
  unfold Js.index. destruct i as [z| | |]; try discriminate.
  destruct (Z.ltb z 0); [discriminate|]. apply nth_error_In.
Qed.

Lemma selectKeyFromGroup_In (strategy : KeySelectionStrategy) (ks : list ApiKeyInfo)
    (prio : Z) (s s' : gmap string Redis.entry) (k : ApiKeyInfo) :
  KeyManager.selectKeyFromGroup ks prio strategy s = (Some k, s') -> In k ks.
Proof.
  unfold KeyManager.selectKeyFromGroup.
  destruct ks as [|k0 ks0] eqn:E; [discriminate|]. rewrite <- E. clear E.
  destruct strategy.
  - intros [= H _]. unfold KeyManager.selectExhaustFirst in H.
    apply index_In in H. unfold Js.sort in H. now apply stable_sort_In in H.
  - unfold KeyManager.selectRoundRobin. destruct ks as [|k1 ks1]; [discriminate|].
    destruct (Redis.getNextRoundRobinIndex _ _ _ _) as [i s1].
    intros [= H _]. now apply index_In in H.
Qed.

Lemma select_from_groups_In (strategy : KeySelectionStrategy)
    (groups : list (Z * list ApiKeyInfo)) (s s' : gmap string Redis.entry)
    (k : ApiKeyInfo) :
  KeyManager.select_from_groups strategy groups s = (Some k, s') ->
  exists p ks, In (p, ks) groups /\ In k ks.
Proof.
  revert s. induction groups as [|[p ks] groups IH]; intros s; [discriminate|].
  cbn [KeyManager.select_from_groups].
  destruct (KeyManager.selectKeyFromGroup ks p strategy s) as [[k1|] s1] eqn:E.
  - intros [= <- _]. apply selectKeyFromGroup_In in E. exists p, ks. split; [now left|exact E].
  - intros H. destruct (IH _ H) as (p' & ks' & Hin & Hk). exists p', ks'. split; [now right|exact Hk].
Qed.

Lemma groupKeysByPriority_entries (keys : list ApiKeyInfo) (p : Z) (ks : list ApiKeyInfo) :
  In (p, ks) (KeyManager.groupKeysByPriority keys) ->
  ks = List.filter (in_group p) keys /\ ks <> [].
Proof.
  unfold KeyManager.groupKeysByPriority, Js.sort. rewrite stable_sort_In.
  assert (Hinv : grouped_inv keys
            (List.fold_left (fun g k => KeyManager.map_push (priority k) k g) keys [])).
  { apply (grouped_inv_fold keys [] []). repeat split.
    - constructor.
    - destruct H.
    - destruct H.
    - intros k []. }
  destruct Hinv as (_ & Hent & _). apply Hent.
Qed.

Lemma selectKey_Ok_eligible (strategy : KeySelectionStrategy) (context : RoutingContext)
    (today : Date) (st st' : Stores) (sel : KeySelectionResult) :
  KeyManager.selectKey strategy context today st = (Ok sel, st') ->
  In (key sel) (eligible_keys context today st)
  /\ resolvedModel sel = match Js.truthy (requestedModel context) with
                         | Some m => m
                         | None => defaultModel (key sel)
                         end.
Proof.
  intros H.
  assert (Hdec : eligible_keys context today st = [] \/ eligible_keys context today st <> [])
    by (destruct (eligible_keys context today st); [now left|now right]).
  destruct Hdec as [Ee|Hne].
  - pose proof (selectKey_no_eligible strategy context today st Ee) as Hn.
    rewrite H in Hn. discriminate.
  - rewrite (selectKey_unfold _ _ _ _ Hne) in H. cbv zeta in H.
    destruct (KeyManager.select_from_groups strategy _ (redis st)) as [[k|] r'] eqn:Es;
      [|discriminate].
    injection H as <- _. simpl. split; [|reflexivity].
    apply select_from_groups_In in Es as (p & ks & Hin & Hk).
    apply groupKeysByPriority_entries in Hin as [-> _].
    now apply filter_In in Hk as [Hk _].
Qed.

Lemma eligible_keys_In (context : RoutingContext) (today : Date) (st : Stores)
    (k : ApiKeyInfo) :
  In k (eligible_keys context today st) <->
  exists k0, In k0 (keys_table st) /\ candidate context k0 = true
             /\ k = lazily_reset context today k0
             /\ KeyManager.eligible (requestedModel context) k = true.
Proof.
  unfold eligible_keys, KeyManager.filterEligibleKeys.
  rewrite filter_In, resetDailyUsageIfNeeded_keys, in_map_iff. split.
  - intros ((k0 & E & Hin) & He). apply findMany_In in Hin as [Hin Hc].
    exists k0. repeat split; auto. unfold lazily_reset, candidate. rewrite Hc. simpl.
    subst k. now destruct (KeyManager.stale today k0).
  - intros (k0 & Hin & Hc & E & He). split; [|exact He].
    exists k0. split; [|apply findMany_In; now split].
    subst k. unfold lazily_reset. rewrite Hc. simpl.
    now destruct (KeyManager.stale today k0).
Qed.

Lemma candidate_lazily_reset (context context' : RoutingContext) (today : Date)
    (k : ApiKeyInfo) :
  candidate context' (lazily_reset context today k) = candidate context' k.
Proof.
  unfold lazily_reset. destruct (candidate context k && KeyManager.stale today k);
    reflexivity.
Qed.

Lemma id_lazily_reset (context : RoutingContext) (today : Date) (k : ApiKeyInfo) :
  id (lazily_reset context today k) = id k.
Proof.
  unfold lazily_reset. now destruct (candidate context k && KeyManager.stale today k).
Qed.

Lemma selectKey_table_eq (strategy : KeySelectionStrategy) (context : RoutingContext)
    (today : Date) (st : Stores) :
  List.NoDup (List.map id (keys_table st)) ->
  keys_table (snd (KeyManager.selectKey strategy context today st))
  = List.map (lazily_reset context today) (keys_table st).
Proof.
  intros Hnd. rewrite selectKey_table.
  destruct (Prisma.findMany (KeyManager.whereConditions context) (keys_table st))
    as [|k0 listing] eqn:E.
  - rewrite <- (map_id (keys_table st)) at 1. apply map_ext_in. intros k Hk.
    unfold lazily_reset. destruct (candidate context k) eqn:Ec; [|reflexivity].
    exfalso. assert (Hin : In k []) by (rewrite <- E; apply findMany_In; now split).
    exact Hin.
  - rewrite <- E. now apply resetDailyUsageIfNeeded_table.
Qed.





(** X3.  Under both strategies the key [selectKey] returns belongs to
    the eligible group of the lowest priority number: no eligible key
    has a lower one.  A group of higher number is used only when no key
    of a lower number is eligible.  (Round-robin counters are never
    negative.) *)
Theorem selectKey_uses_lowest_priority_group
    (strategy : KeySelectionStrategy) (context : RoutingContext)
    (today : Date) (st st' : Stores) (sel : KeySelectionResult) :
  (strategy = RoundRobin -> counters_nonneg (redis st)) ->
  KeyManager.selectKey strategy context today st = (Ok sel, st') ->
  In (key sel) (eligible_keys context today st)
  /\ Forall (fun k => priority (key sel) <= priority k) (eligible_keys context today st).
Proof.
  intros Hs H.
  pose proof (selectKey_Ok_eligible _ _ _ _ _ _ H) as [Hin _].
  split; [exact Hin|].
  assert (Hne : eligible_keys context today st <> [])
    by (intros E; rewrite E in Hin; exact Hin).
  rewrite (selectKey_unfold _ _ _ _ Hne) in H. cbv zeta in H.
  destruct (groupKeysByPriority_head _ Hne) as (p & ks & rest & Hg & Hks & Hksne & Hmin).
  rewrite Hg in H. cbn [KeyManager.select_from_groups] in H.
  destruct (selectKeyFromGroup_some strategy ks p (redis st) Hksne Hs) as (k & Hk & Hkin).
  destruct (KeyManager.selectKeyFromGroup ks p strategy (redis st)) as [o r'].
  simpl in Hk. subst o. injection H as <- _. simpl.
  rewrite Hks in Hkin. apply filter_In in Hkin as [_ Hp].
  unfold in_group in Hp. apply Z.eqb_eq in Hp. now rewrite Hp.
Qed.

Lemma selectKey_uses_lowest_priority_group_witness :
  In key_B (eligible_keys context_auto 1000 stores_AB)
  /\ Forall (fun k => priority key_B <= priority k) (eligible_keys context_auto 1000 stores_AB).
Proof.
  apply (selectKey_uses_lowest_priority_group RoundRobin context_auto 1000 stores_AB
           (snd (KeyManager.selectKey RoundRobin context_auto 1000 stores_AB))
           {| key := key_B; resolvedModel := "gpt-4o-mini" |}).
  - intros _. exact counters_nonneg_empty.
  - vm_compute. reflexivity.
Defined.

(** ** Sorting and grouping lose nothing *)

Lemma sort_insert_perm {A : Type} (cmp : A -> A -> comparison) (x : A) (l : list A) :
  Permutation (Js.sort_insert cmp x l) (x :: l).
Proof.
  induction l as [|y l IH]; simpl; [reflexivity|].
  destruct (cmp x y); try reflexivity.
  rewrite IH. apply perm_swap.
Qed.

Lemma stable_sort_perm {A : Type} (cmp : A -> A -> comparison) (l : list A) :
  Permutation (Js.stable_sort cmp l) l.
Proof.
  induction l as [|x l IH]; simpl; [reflexivity|].
  rewrite sort_insert_perm. now apply perm_skip.
Qed.

Lemma map_push_perm (p : Z) (k : ApiKeyInfo) (g : list (Z * list ApiKeyInfo)) :
  Permutation (List.flat_map snd (KeyManager.map_push p k g)) (k :: List.flat_map snd g).
Proof.
  induction g as [|[q ks] g IH]; simpl; [reflexivity|].
  destruct (Z.eqb q p); simpl.
  - rewrite <- app_assoc. simpl. symmetry. apply Permutation_middle.
  - rewrite IH. symmetry. apply Permutation_middle.
Qed.

Lemma fold_map_push_perm (keys : list ApiKeyInfo) (g : list (Z * list ApiKeyInfo)) :
  Permutation
    (List.flat_map snd
       (List.fold_left (fun g k => KeyManager.map_push (priority k) k g) keys g))
    (keys ++ List.flat_map snd g)%list.
Proof.
  revert g. induction keys as [|k keys IH]; intros g; simpl; [reflexivity|].
  rewrite IH, map_push_perm. symmetry. apply Permutation_middle.
Qed.

Lemma sorted_strict (l : list (Z * list ApiKeyInfo)) :
  List.NoDup (List.map fst l) ->
  StronglySorted (fun a b => by_priority a b <> Gt) l ->
  StronglySorted (fun a b => fst a < fst b) l.
Proof.
  induction 2 as [|a l Hs IH Ha]; [constructor|].
  simpl in H. inversion H as [|? ? Hn Hnd]; subst.
  constructor; [now apply IH|].
  apply List.Forall_forall. intros b Hb.
  rewrite List.Forall_forall in Ha. specialize (Ha b Hb).
  rewrite by_priority_Gt in Ha.
  assert (fst a <> fst b) by (intros E; apply Hn; rewrite E; now apply in_map).
  lia.
Qed.

(** X4.  [groupKeysByPriority] partitions its keys: the groups come in
    strictly ascending priority, each group holds exactly the keys of its
    priority, in the order they had, and is not empty; taken together the
    groups hold every key once, none lost and none repeated. *)
Theorem groupKeysByPriority_partitions (keys : list ApiKeyInfo) :
  StronglySorted (fun a b => fst a < fst b) (KeyManager.groupKeysByPriority keys)
  /\ (forall p ks, In (p, ks) (KeyManager.groupKeysByPriority keys) ->
        ks = List.filter (fun k => Z.eqb (priority k) p) keys /\ ks <> [])
  /\ (forall k, In k keys ->
        exists ks, In (priority k, ks) (KeyManager.groupKeysByPriority keys) /\ In k ks)
  /\ Permutation (List.flat_map snd (KeyManager.groupKeysByPriority keys)) keys.
Proof.
  assert (Hinv : grouped_inv keys
            (List.fold_left (fun g k => KeyManager.map_push (priority k) k g) keys [])).
  { apply (grouped_inv_fold keys [] []). repeat split.
    - constructor.
    - destruct H.
    - destruct H.
    - intros k []. }
  destruct Hinv as (Hnd & Hent & Hcov).
  split; [|split; [|split]].
  - unfold KeyManager.groupKeysByPriority, Js.sort. apply sorted_strict.
    + eapply Permutation_NoDup; [|exact Hnd].
      apply Permutation_map. symmetry. apply stable_sort_perm.
    + apply (stable_sort_sorted by_priority).
      * intros x y z. rewrite !by_priority_Gt. lia.
      * intros x y. rewrite !by_priority_Gt. lia.
  - intros p ks. apply groupKeysByPriority_entries.
  - intros k Hk. specialize (Hcov k Hk).
    apply in_map_iff in Hcov as ([q ks] & Hq & Hin). simpl in Hq. subst q.
    exists ks. split.
    + unfold KeyManager.groupKeysByPriority, Js.sort. now apply stable_sort_In.
    + destruct (Hent _ _ Hin) as [-> _]. apply filter_In. split; [exact Hk|].
      unfold in_group. apply Z.eqb_refl.
  - unfold KeyManager.groupKeysByPriority, Js.sort.
    rewrite (Permutation_flat_map snd (stable_sort_perm _ _)).
    rewrite fold_map_push_perm. simpl. now rewrite app_nil_r.
Qed.

(** ** Lazy reset, again *)

Lemma lazily_reset_twice (context : RoutingContext) (today today' : Date) (k : ApiKeyInfo) :
  today' <= today ->
  lazily_reset context today' (lazily_reset context today k) = lazily_reset context today k.
Proof.
  intros Hle.
  assert (Hs : candidate context (lazily_reset context today k)
               && KeyManager.stale today' (lazily_reset context today k) = false).
  { rewrite candidate_lazily_reset.
    destruct (candidate context k) eqn:Hc; [simpl|reflexivity].
    unfold lazily_reset. rewrite Hc. simpl.
    destruct (KeyManager.stale today k) eqn:E; unfold KeyManager.stale in *; simpl.
    - apply Z.ltb_ge. exact Hle.
    - apply Z.ltb_ge in E. apply Z.ltb_ge. lia. }
  unfold lazily_reset at 1. now rewrite Hs.
Qed.

(** X5.  The lazy reset is idempotent within a day: once [selectKey] has
    run for a context, running it again for the same context on the same
    day (or an earlier one), under any strategy, leaves the key table as
    it is.  The ids of the table are never changed. *)
Theorem selectKey_lazy_reset_idempotent
    (strategy strategy' : KeySelectionStrategy) (context : RoutingContext)
    (today today' : Date) (st : Stores) :
  List.NoDup (List.map id (keys_table st)) ->
  today' <= today ->
  let st1 := snd (KeyManager.selectKey strategy context today st) in
  keys_table (snd (KeyManager.selectKey strategy' context today' st1)) = keys_table st1
  /\ List.map id (keys_table st1) = List.map id (keys_table st).
Proof.
  intros Hnd Hle st1.
  assert (Hids : List.map id (keys_table st1) = List.map id (keys_table st)).
  { unfold st1. rewrite selectKey_table_eq by exact Hnd.
    rewrite map_map. apply map_ext. intros k. apply id_lazily_reset. }
  split; [|exact Hids].
  rewrite selectKey_table_eq by (rewrite Hids; exact Hnd).
  unfold st1. rewrite selectKey_table_eq by exact Hnd.
  rewrite map_map. apply map_ext. intros k. now apply lazily_reset_twice.
Qed.

Lemma selectKey_lazy_reset_idempotent_witness :
  let st1 := snd (KeyManager.selectKey ExhaustFirst context_claude 1000 stores_SN) in
  keys_table (snd (KeyManager.selectKey RoundRobin context_claude 1000 st1)) = keys_table st1
  /\ List.map id (keys_table st1) = List.map id (keys_table stores_SN).
Proof.
  apply (selectKey_lazy_reset_idempotent ExhaustFirst RoundRobin context_claude 1000 1000
           stores_SN).
  - simpl. repeat constructor; simpl; intuition discriminate.
  - lia.
Defined.

(** ** Reading the key table *)

(** X6.  [getKeysByProvider] returns the enabled rows of the provider
    and nothing else, each row once, ordered by priority and then by
    [usedToday]. *)
Theorem getKeysByProvider_enabled_of_provider (prov : string) (table : list ApiKeyInfo) :
  Permutation (KeyManager.getKeysByProvider prov table)
    (List.filter (fun k => enabled k && String.eqb (provider k) prov) table)
  /\ StronglySorted priority_then_usedToday (KeyManager.getKeysByProvider prov table)
  /\ forall k, In k (KeyManager.getKeysByProvider prov table) ->
       enabled k = true /\ provider k = prov.
Proof.
  unfold KeyManager.getKeysByProvider. split; [|split].
  - unfold Prisma.findMany. rewrite stable_sort_perm.
    erewrite filter_ext; [reflexivity|].
    intros k. unfold Prisma.matches. simpl.
    rewrite andb_true_r. now destruct (enabled k).
  - apply findMany_sorted.
  - intros k Hk. apply findMany_In in Hk as [_ Hm].
    unfold Prisma.matches in Hm. simpl in Hm. rewrite andb_true_r in Hm.
    apply andb_true_iff in Hm as [He Hp].
    split; [now destruct (enabled k)|now apply String.eqb_eq].
Qed.

(** ** What a request does to the key table *)

Lemma unchanged_or_reset_refl (k : ApiKeyInfo) : unchanged_or_reset k k.
Proof. now left. Qed.

Lemma unchanged_or_reset_trans (k k1 k2 : ApiKeyInfo) :
  unchanged_or_reset k k1 -> unchanged_or_reset k1 k2 -> unchanged_or_reset k k2.
Proof.
  intros [->|[d1 ->]] [->|[d2 ->]].
  - now left.
  - right. now exists d2.
  - right. now exists d1.
  - right. now exists d2.
Qed.

Lemma unchanged_or_reset_id (k k' : ApiKeyInfo) : unchanged_or_reset k k' -> id k' = id k.
Proof. now intros [->|[d ->]]. Qed.

Lemma charged_id (keyId : string) (now : Z) (k k' : ApiKeyInfo) :
  charged keyId now k k' -> id k' = id k.
Proof.
  unfold charged. destruct (String.eqb (id k) keyId).
  - intros (k1 & H & ->). simpl. now apply unchanged_or_reset_id.
  - apply unchanged_or_reset_id.
Qed.

Lemma charged_after_reset (keyId : string) (now : Z) (k k1 k2 : ApiKeyInfo) :
  unchanged_or_reset k k1 -> charged keyId now k1 k2 -> charged keyId now k k2.
Proof.
  intros H. unfold charged. rewrite (unchanged_or_reset_id _ _ H).
  destruct (String.eqb (id k) keyId).
  - intros (k' & H' & ->). exists k'. split; [|reflexivity].
    now apply unchanged_or_reset_trans with k1.
  - now apply unchanged_or_reset_trans.
Qed.

Lemma Forall2_compose {A : Type} (R S T : A -> A -> Prop) (l1 l2 l3 : list A) :
  (forall a b c, R a b -> S b c -> T a c) ->
  List.Forall2 R l1 l2 -> List.Forall2 S l2 l3 -> List.Forall2 T l1 l3.
Proof.
  intros H H1. revert l3. induction H1 as [|a b l1 l2 Hab H1 IH]; intros l3 H2.
  - inversion H2. constructor.
  - inversion H2 as [|? c ? l3' Hbc H2']; subst. constructor; eauto.
Qed.

Lemma Forall2_map_self {A : Type} (R : A -> A -> Prop) (f : A -> A) (l : list A) :
  (forall a, R a (f a)) -> List.Forall2 R l (List.map f l).
Proof. intros H. induction l; simpl; constructor; auto. Qed.

Lemma Forall2_ids (R : ApiKeyInfo -> ApiKeyInfo -> Prop) (l l' : list ApiKeyInfo) :
  (forall k k', R k k' -> id k' = id k) ->
  List.Forall2 R l l' -> List.map id l' = List.map id l.
Proof.
  intros H. induction 1 as [|k k' l l' Hk Hl IH]; simpl; [reflexivity|].
  now rewrite (H _ _ Hk), IH.
Qed.

Lemma Forall2_unchanged (l : list ApiKeyInfo) : List.Forall2 unchanged_or_reset l l.
Proof. induction l; constructor; auto using unchanged_or_reset_refl. Qed.

Lemma selectKey_resets_only (strategy : KeySelectionStrategy) (context : RoutingContext)
    (today : Date) (st : Stores) :
  List.Forall2 unchanged_or_reset (keys_table st)
    (keys_table (snd (KeyManager.selectKey strategy context today st))).
Proof.
  rewrite selectKey_table.
  destruct (Prisma.findMany (KeyManager.whereConditions context) (keys_table st))
    as [|k0 listing].
  - apply Forall2_unchanged.
  - unfold KeyManager.resetDailyUsageIfNeeded.
    destruct (List.map id (List.filter (KeyManager.stale today) (k0 :: listing)))
      as [|i ids]; cbn [snd].
    + apply Forall2_unchanged.
    + unfold Prisma.updateMany_reset. apply Forall2_map_self. intros k.
      destruct (Prisma.in_strings (id k) (i :: ids)); [right; now exists today|now left].
Qed.

Lemma update_increment_charged (keyId : string) (now : Z) (table : list ApiKeyInfo) :
  List.Forall2 (charged keyId now) table (Prisma.update_increment keyId now table).
Proof.
  unfold Prisma.update_increment. apply Forall2_map_self. intros k.
  unfold charged. destruct (String.eqb (id k) keyId).
  - exists k. split; [apply unchanged_or_reset_refl|reflexivity].
  - apply unchanged_or_reset_refl.
Qed.

Section RouteAccounting.
Variable strategy : KeySelectionStrategy.
Variable maxRetries : Q.
Variable retryDelayMs : Q.
Variable providerConfigs : string -> option (string * Z).
Variable RegExp_test : string -> string -> option bool.
Variable startOfDay : Z -> Date.
Variable chat :
  Z -> string -> Router.ProviderRequest -> Router.ProviderConfig ->
  result Router.ChatResponse * Z.

Let route_loop :=
  Router.route_loop strategy maxRetries retryDelayMs providerConfigs
    RegExp_test startOfDay chat.
Let try_attempt :=
  Router.try_attempt strategy providerConfigs RegExp_test startOfDay chat.

Lemma try_attempt_table (request : Router.ChatRequest) (reqId : string)
    (startTime i : Z) (attempted attempted' : gset string) (w w1 : Router.World)
    (x : result (Router.ChatResponse * Router.Metadata)) :
  try_attempt request reqId startTime i attempted w = (x, attempted', w1) ->
  table_after (served_by x) w w1.
Proof.
  unfold try_attempt, Router.try_attempt, Router.selectKeyWithFallback.
  pose proof (selectKey_resets_only strategy (Router.context_of request)
                (startOfDay (Router.now w)) (Router.stores w)) as Hr.
  destruct (KeyManager.selectKey strategy (Router.context_of request)
              (startOfDay (Router.now w)) (Router.stores w)) as [[sel|e0] st].
  - cbn [snd] in Hr. destruct (decide (id (key sel) ∈ attempted)).
    + intros [= <- _ <-]. exact Hr.
    + destruct (Providers.getProviderAdapter RegExp_test (provider (key sel))) as [adapter|].
      * destruct (Providers.validateModel adapter (resolvedModel sel)) as [[|]|].
        -- destruct (Router.buildProviderConfig providerConfigs (key sel)) as [cfg|e1].
           ++ destruct (chat i (provider (key sel)) _ cfg) as [[resp|e2] elapsed].
              ** intros [= <- _ <-]. cbn [served_by table_after].
                 match goal with
                 | |- context [Router.logUsage ?row ?w3] =>
                     destruct (logUsage_stores row w3) as [Hst Hnow]
                 end.
                 rewrite Hst, Hnow. cbn.
                 eapply Forall2_compose; [|exact Hr|apply update_increment_charged].
                 intros a b c. apply charged_after_reset.
              ** intros [= <- _ <-]. exact Hr.
           ++ intros [= <- _ <-]. exact Hr.
        -- intros [= <- _ <-]. exact Hr.
        -- intros [= <- _ <-]. exact Hr.
      * intros [= <- _ <-]. exact Hr.
  - intros [= <- _ <-]. exact Hr.
Qed.

Lemma table_after_failed_attempt (x : option Router.Metadata) (w w1 w2 : Router.World) :
  table_after None w w1 -> table_after x w1 w2 -> table_after x w w2.
Proof.
  unfold table_after. intros H1. destruct x as [metadata|].
  - apply Forall2_compose with (2 := H1). intros a b c. apply charged_after_reset.
  - apply Forall2_compose with (2 := H1). intros a b c. apply unchanged_or_reset_trans.
Qed.

Lemma route_loop_table (request : Router.ChatRequest) (reqId : string)
    (startTime : Z) (left : nat) (i : Z) (attempted : gset string)
    (lastError : option Error) (w w1 : Router.World) (x : Router.LoopExit)
    (tr : list Router.Event) :
  route_loop request reqId startTime left i attempted lastError w = (x, w1, tr) ->
  table_after (exit_served x) w w1.
Proof.
  revert i attempted lastError w x w1 tr.
  induction left as [|left IH]; intros i attempted lastError w x w1 tr.
  - simpl. intros [= <- <- <-]. simpl. apply Forall2_unchanged.
  - unfold route_loop. cbn [Router.route_loop]. fold try_attempt.
    destruct (try_attempt request reqId startTime i attempted w)
      as [[[r|e] attempted'] w0] eqn:Et; apply try_attempt_table in Et.
    + intros [= <- <- <-]. exact Et.
    + destruct (Router.isNonRetryableError e).
      * intros [= <- <- <-]. exact Et.
      * destruct (Js.ltQ (inject_Z i) (maxRetries - 1)).
        -- destruct (Router.route_loop strategy maxRetries retryDelayMs providerConfigs
                       RegExp_test startOfDay chat request reqId startTime left (i + 1)
                       attempted' (Some e) (Router.sleep (retryDelayMs * inject_Z (2 ^ i)) w0))
             as [[x2 w2] tr2] eqn:El.
           intros [= <- <- <-]. apply IH in El.
           apply table_after_failed_attempt with (w1 := w0); [exact Et|].
           exact El.
        -- destruct (Router.route_loop strategy maxRetries retryDelayMs providerConfigs
                       RegExp_test startOfDay chat request reqId startTime left (i + 1)
                       attempted' (Some e) w0)
             as [[x2 w2] tr2] eqn:El.
           intros [= <- <- <-]. apply IH in El.
           now apply table_after_failed_attempt with (w1 := w0).
Qed.

(** X7.  All that [route] does to the key table: a run that fails
    leaves every row as it was or lazily reset (count 0, a new reset
    date), so a failed request uses up no quota whatever keys it tried;
    a run that succeeds adds one use, and the time of the response as
    [lastUsedAt], to the row of the key its metadata names, and to no
    other row.  Rows are neither added nor removed nor reordered. *)
Theorem route_charges_only_the_served_key (request : Router.ChatRequest)
    (w : Router.World) :
  let run := Router.route strategy maxRetries retryDelayMs providerConfigs
               RegExp_test startOfDay chat request w in
  let w' := snd (fst run) in
  match fst (fst run) with
  | Ok (_, metadata) =>
      List.Forall2 (charged (Router.meta_keyId metadata) (Router.now w'))
        (keys_table (Router.stores w)) (keys_table (Router.stores w'))
  | Err _ =>
      List.Forall2 unchanged_or_reset
        (keys_table (Router.stores w)) (keys_table (Router.stores w'))
  end.
Proof.
  intros run w'.
  destruct (route_unfold strategy maxRetries retryDelayMs providerConfigs RegExp_test
              startOfDay chat request w) as (x & w1 & El & Hnow & Hst & Hx).
  fold run in El, Hnow, Hst, Hx. apply route_loop_table in El.
  destruct x as [[resp metadata]|lastError].
  - destruct Hx as [Hr Hw]. rewrite Hr. unfold w'. rewrite Hw. exact El.
  - destruct Hx as [Hr _]. rewrite Hr. unfold w'. rewrite Hst. exact El.
Qed.

(** ** A served request *)

Lemma try_attempt_served (request : Router.ChatRequest) (reqId : string)
    (startTime i : Z) (attempted attempted' : gset string) (w w1 : Router.World)
    (resp : Router.ChatResponse) (metadata : Router.Metadata) :
  List.NoDup (List.map id (keys_table (Router.stores w))) ->
  try_attempt request reqId startTime i attempted w = (Ok (resp, metadata), attempted', w1) ->
  served reqId startTime request resp metadata (Router.usage_log w) w1.
Proof.
  intros Hnd. unfold try_attempt, Router.try_attempt, Router.selectKeyWithFallback.
  pose proof (selectKey_table_eq strategy (Router.context_of request)
                (startOfDay (Router.now w)) (Router.stores w) Hnd) as Ht.
  destruct (KeyManager.selectKey strategy (Router.context_of request)
              (startOfDay (Router.now w)) (Router.stores w)) as [[sel|e0] st] eqn:Es;
    [|discriminate].
  cbn [snd] in Ht.
  destruct (selectKey_Ok_eligible _ _ _ _ _ _ Es) as [Hin Hm].
  apply eligible_keys_In in Hin as (k0 & Hk0 & Hc & Hk & He).
  assert (Hin : In (key sel) (keys_table st)).
  { rewrite Ht, Hk. now apply in_map. }
  destruct (decide (id (key sel) ∈ attempted)); [discriminate|].
  destruct (Providers.getProviderAdapter RegExp_test (provider (key sel))) as [adapter|];
    [|discriminate].
  destruct (Providers.validateModel adapter (resolvedModel sel)) as [[|]|]; try discriminate.
  destruct (Router.buildProviderConfig providerConfigs (key sel)) as [cfg|e1];
    [|discriminate].
  destruct (chat i (provider (key sel)) _ cfg) as [[resp'|e2] elapsed]; [|discriminate].
  intros [= <- <- _ <-].
  unfold Router.logUsage. rewrite usageLog_create_taken.
  - unfold served. cbn. split; [|split; reflexivity].
    exists (Prisma.set_used (Router.now w + elapsed) (key sel)).
    split; [|split; [|split; [|split]]]; try reflexivity.
    + unfold Prisma.update_increment. apply in_map_iff. exists (key sel).
      split; [|exact Hin]. now rewrite String.eqb_refl.
    + simpl. exact Hm.
  - cbn [Router.log_keyId Router.stores keys_table KeyManager.incrementUsage Router.pass].
    rewrite update_increment_ids. now apply in_map.
Qed.

Lemma route_loop_served (request : Router.ChatRequest) (reqId : string)
    (startTime : Z) (left : nat) (i : Z) (attempted : gset string)
    (lastError : option Error) (w w1 : Router.World) (x : Router.LoopExit)
    (tr : list Router.Event) :
  List.NoDup (List.map id (keys_table (Router.stores w))) ->
  route_loop request reqId startTime left i attempted lastError w = (x, w1, tr) ->
  match x with
  | Router.Returned (resp, metadata) =>
      served reqId startTime request resp metadata (Router.usage_log w) w1
  | Router.Fell _ => True
  end.
Proof.
  revert i attempted lastError w x w1 tr.
  induction left as [|left IH]; intros i attempted lastError w x w1 tr Hnd.
  - simpl. intros [= <- <- <-]. auto.
  - unfold route_loop. cbn [Router.route_loop]. fold try_attempt.
    destruct (try_attempt request reqId startTime i attempted w)
      as [[[[resp metadata]|e] attempted'] w0] eqn:Et.
    + intros [= <- <- <-]. now apply try_attempt_served in Et.
    + destruct (try_attempt_frame strategy providerConfigs RegExp_test startOfDay chat
                  _ _ _ _ _ _ _ _ _ Et) as (Hids & Hlog).
      specialize (Hlog e eq_refl).
      destruct (Router.isNonRetryableError e).
      * intros [= <- <- <-]. auto.
      * destruct (Js.ltQ (inject_Z i) (maxRetries - 1)).
        -- destruct (Router.route_loop strategy maxRetries retryDelayMs providerConfigs
                       RegExp_test startOfDay chat request reqId startTime left (i + 1)
                       attempted' (Some e)
                       (Router.sleep (retryDelayMs * inject_Z (2 ^ i)) w0))
             as [[x2 w2] tr2] eqn:El.
           intros [= <- <- <-]. apply IH in El as Hs2.
           ++ simpl in Hs2. now rewrite Hlog in Hs2.
           ++ simpl. now rewrite Hids.
        -- destruct (Router.route_loop strategy maxRetries retryDelayMs providerConfigs
                       RegExp_test startOfDay chat request reqId startTime left (i + 1)
                       attempted' (Some e) w0)
             as [[x2 w2] tr2] eqn:El.
           intros [= <- <- <-]. apply IH in El as Hs2.
           ++ now rewrite Hlog in Hs2.
           ++ now rewrite Hids.
Qed.

(** X8.  A request that [route] serves is accounted for once: with the
    ids of the key table distinct, the key named in the metadata is a
    row of the table, of the provider named there and last used at the
    time of the response; the model of the metadata is the requested
    model, or the default model of that key when none was requested;
    and the usage log has grown by exactly one row, a success row with
    the key, provider, model and latency of the metadata (the key table
    holds its key, so the row is taken), whatever attempts failed
    before. *)
Theorem route_accounts_for_served_request (request : Router.ChatRequest)
    (w w' : Router.World) (resp : Router.ChatResponse) (metadata : Router.Metadata)
    (tr : list Router.Event) :
  List.NoDup (List.map id (keys_table (Router.stores w))) ->
  Router.route strategy maxRetries retryDelayMs providerConfigs
    RegExp_test startOfDay chat request w = (Ok (resp, metadata), w', tr) ->
  served match Js.truthy (Router.requestId request) with
         | Some r => r
         | None => "req_" +:+ Js.number_to_string (Router.now w)
         end
    (Router.now w) request resp metadata (Router.usage_log w) w'.
Proof.
  intros Hnd. unfold Router.route.
  destruct (Router.route_loop strategy maxRetries retryDelayMs providerConfigs
              RegExp_test startOfDay chat request _ (Router.now w)
              (Z.to_nat (Qceiling maxRetries)) 0 ∅ None w)
    as [[[[resp' metadata']|lastError] w1] tr1] eqn:El.
  - apply route_loop_served in El; [|exact Hnd].
    intros [= <- <- <- _]. exact El.
  - destruct lastError as [[g|m]|]; discriminate.
Qed.
End RouteAccounting.

Lemma route_accounts_for_served_request_witness :
  served "req-1" 1000 demo_request demo_response
    {| Router.meta_keyId := "B"; Router.meta_provider := "openai";
       Router.meta_model := "gpt-4o-mini"; Router.meta_latencyMs := 40 |}
    [] (snd (fst demo_route_ok)).
Proof.
  apply (route_accounts_for_served_request ExhaustFirst 3 1000 demo_providerConfigs
           demo_RegExp_test demo_startOfDay demo_chat_ok demo_request demo_world
           (snd (fst demo_route_ok)) demo_response _ (snd demo_route_ok)).
  - simpl. repeat constructor; simpl; intuition discriminate.
  - vm_compute. reflexivity.
Defined.

(** ** Requests served at the same time *)

(** X9.  Nothing keeps two requests from using up the same last
    request of a key.  The [try] block of an attempt is two steps, the
    selection and the work after the provider call, with the call
    awaited in between: run one after the other with nothing in
    between they are [try_attempt].  Run for two requests at the same
    time, on a table whose only key has one request of 10 left, both
    steps of selection pick that key (the count is read before either
    request is charged), both requests are served, and the key ends
    with 11 uses of 10: the key statistics report a remaining quota
    of -1.  Routed one after the other, the second request fails with
    the no-eligible-key error and the count stays at 10. *)
Theorem overlapping_requests_overrun_the_daily_limit :
  (forall strategy providerConfigs RegExp_test startOfDay chat request reqId startTime
          attempt attempted w,
      Router.try_attempt strategy providerConfigs RegExp_test startOfDay chat
        request reqId startTime attempt attempted w
      = match Router.before_chat strategy providerConfigs RegExp_test startOfDay
                request attempted w with
        | (Err e, attempted', w1) => (Err e, attempted', w1)
        | (Ok call, attempted', w1) =>
            let '(r, elapsed) :=
              chat attempt (provider (key (Router.pending_selection call)))
                (Router.pending_request call) (Router.pending_config call) in
            let '(x, w') :=
              Router.after_chat request reqId startTime call r (Router.pass elapsed w1) in
            (x, attempted', w')
        end)
  /\ (exists metadata1 metadata2 w',
        served_together ExhaustFirst demo_providerConfigs demo_RegExp_test demo_startOfDay
          demo_request demo_request_2 "req-1" "req-2" demo_response demo_response 40 5
          world_one_left
        = Some (metadata1, metadata2, w')
        /\ Router.meta_keyId metadata1 = "A"
        /\ Router.meta_keyId metadata2 = "A"
        /\ List.map (fun k => (id k, dailyLimit k, usedToday k))
             (keys_table (Router.stores world_one_left)) = [("A", Some 10, 9)]
        /\ List.map (fun k => (id k, dailyLimit k, usedToday k))
             (keys_table (Router.stores w')) = [("A", Some 10, 11)]
        /\ List.map KeyManager.remainingQuota
             (KeyManager.getUsageStats (keys_table (Router.stores w'))) = [Some (-1)]
        /\ List.map Router.log_success (Router.usage_log w') = [true; true])
  /\ (let first := Router.route ExhaustFirst 3 1000 demo_providerConfigs demo_RegExp_test
                     demo_startOfDay demo_chat_ok demo_request world_one_left in
      let second := Router.route ExhaustFirst 3 1000 demo_providerConfigs demo_RegExp_test
                      demo_startOfDay demo_chat_ok demo_request_2 (snd (fst first)) in
      (exists r, fst (fst first) = Ok r)
      /\ fst (fst second) = Err (GatewayError (NoEligibleKeyError None (Some auto)))
      /\ List.map usedToday (keys_table (Router.stores (snd (fst second)))) = [10]).
Proof.
  split; [|split].
  - intros. unfold Router.try_attempt, Router.before_chat.
    destruct (Router.selectKeyWithFallback strategy startOfDay
                (Router.context_of request) attempted w) as [[selection|e] w1];
      [|reflexivity].
    destruct (Providers.getProviderAdapter RegExp_test (provider (key selection)))
      as [adapter|]; [|reflexivity].
    destruct (Providers.validateModel adapter (resolvedModel selection)) as [[|]|];
      try reflexivity.
    destruct (Router.buildProviderConfig providerConfigs (key selection)) as [cfg|e];
      [|reflexivity].
    cbn [Router.pending_selection Router.pending_request Router.pending_config].
    destruct (chat attempt (provider (key selection)) _ cfg) as [[response|e] elapsed];
      reflexivity.
  - eexists _, _, _. split; [vm_compute; reflexivity|].
    repeat split; vm_compute; reflexivity.
  - cbv zeta. split; [eexists; vm_compute; reflexivity|].
    split; vm_compute; reflexivity.
Qed.



(** ** A request that no key can serve *)



Section NoUsableKey.
Variable strategy : KeySelectionStrategy.
Variable maxRetries : Q.
Variable retryDelayMs : Q.
Variable providerConfigs : string -> option (string * Z).
Variable RegExp_test : string -> string -> option bool.
Variable startOfDay : Z -> Date.
Variable chat :
  Z -> string -> Router.ProviderRequest -> Router.ProviderConfig ->
  result Router.ChatResponse * Z.

Let route_loop :=
  Router.route_loop strategy maxRetries retryDelayMs providerConfigs
    RegExp_test startOfDay chat.
Let try_attempt :=
  Router.try_attempt strategy providerConfigs RegExp_test startOfDay chat.







End NoUsableKey.


(** The run of the witness on the clock: sleeps of one and of two
    seconds. *)
Example route_without_usable_key_clock :
  Router.now (snd (fst (Router.route ExhaustFirst 3 1000 demo_providerConfigs
                          demo_RegExp_test demo_startOfDay demo_chat_ok request_groq
                          demo_world)))
  = Router.now demo_world + 1000 * (2 ^ (3 - 1) - 1).
Proof. vm_compute. reflexivity. Qed.

(** ** What the worker throws *)

Section WorkerThrows.
Variable strategy : KeySelectionStrategy.
Variable maxRetries : Q.
Variable retryDelayMs : Q.
Variable providerConfigs : string -> option (string * Z).
Variable RegExp_test : string -> string -> option bool.
Variable startOfDay : Z -> Date.
Variable chat :
  Z -> string -> Router.ProviderRequest -> Router.ProviderConfig ->
  result Router.ChatResponse * Z.

Lemma route_throws_gateway_error (request : Router.ChatRequest) (w : Router.World)
    (e : Error) :
  let run := Router.route strategy maxRetries retryDelayMs providerConfigs
               RegExp_test startOfDay chat request w in
  fst (fst run) = Err e ->
  exists g, e = GatewayError g
            /\ (last_failure (snd run) = Some e \/ statusCode g = 429).
Proof.
  intros run He.
  destruct (route_unfold strategy maxRetries retryDelayMs providerConfigs RegExp_test
              startOfDay chat request w) as (x & w1 & El & _ & _ & Hx).
  fold run in El, Hx.
  destruct (route_loop_frame _ _ _ _ _ _ _ _ _ _ _ _ _ _ _ _ _ _ El) as [_ Hend].
  destruct x as [r|lastError]; [destruct Hx as [Hr _]; congruence|].
  destruct Hx as [Hr _]. destruct Hend as (_ & _ & Hle).
  rewrite Hr in He. injection He as <-.
  destruct lastError as [[g|m]|]; eexists;
    (split; [reflexivity|]); try (right; reflexivity).
  left. destruct (last_failure (snd run)); congruence.
Qed.

(** X11.  [processChatJob] throws, and so has the broker run the job
    again, exactly when [route] failed with a gateway error of status
    500 or more, and that error is then the error of the last attempt
    of the router.  It never throws anything else: an attempt that ends
    with an error that is no gateway error (a network failure, a
    TypeError) reaches the worker as the 429 no-eligible-key error, on
    which the job is completed as failed and not run again. *)
Theorem processChatJob_throws_only_server_errors (request : Router.ChatRequest)
    (w : Router.World) (e : Error) :
  let run := Router.route strategy maxRetries retryDelayMs providerConfigs
               RegExp_test startOfDay chat request w in
  fst (Worker.processChatJob strategy maxRetries retryDelayMs providerConfigs
         RegExp_test startOfDay chat request w) = Worker.Throws e
  <-> (exists g, e = GatewayError g /\ 500 <= statusCode g)
      /\ fst (fst run) = Err e
      /\ last_failure (snd run) = Some e.
Proof.
  intros run. pose proof (route_throws_gateway_error request w) as Hg.
  cbv zeta in Hg. fold run in Hg.
  unfold Worker.processChatJob. fold run.
  destruct run as [[[[resp metadata]|e0] w1] tr]; cbn [fst snd] in *.
  - split; [discriminate|]. intros (_ & H & _). discriminate.
  - destruct (Hg e0 eq_refl) as (g & -> & Hlast).
    destruct (Z.ltb_spec (statusCode g) 500) as [Hlt|Hge]; cbn [fst].
    + split; [discriminate|]. intros ((g' & -> & Hs) & [= <-] & _). lia.
    + split.
      * intros [= <-]. split; [now exists g|]. split; [reflexivity|].
        destruct Hlast as [H|H]; [exact H|lia].
      * intros (_ & [= <-] & _). reflexivity.
Qed.
End WorkerThrows.

(** ** The key locks *)

Lemma keyLock_inj (a b : string) : Redis.keyLock a = Redis.keyLock b -> a = b.
Proof.
  unfold Redis.keyLock, Redis.KEY_PREFIX. intros H. injection H as H. exact H.
Qed.

Lemma keyLock_not_counter (keyId prov : string) (prio : Z) :
  Redis.keyLock keyId <> Redis.roundRobinIndex prov prio.
Proof. unfold Redis.keyLock, Redis.roundRobinIndex, Redis.KEY_PREFIX. simpl. discriminate. Qed.

(** X12.  A key lock excludes until it expires or is released: after
    [acquireKeyLock] has answered [true] for a key id, with a time to
    live of [ttl] ms (5000 when none is given), a further call for the
    same id answers [false] and changes nothing as long as less than
    [ttl] ms have passed, and answers [true] and takes the lock anew
    from then on.  [releaseKeyLock] frees the lock at once, whoever calls
    it: the next [acquireKeyLock] answers [true]. *)
Theorem key_lock_excludes_until_expiry (keyId : string) (ttlMs ttlMs' : option Z)
    (ms : Z) (s s1 : gmap string Redis.entry) :
  let ttl := match ttlMs with Some t => t | None => 5000 end in
  let ttl' := match ttlMs' with Some t => t | None => 5000 end in
  0 < ttl' -> 0 <= ms ->
  Redis.acquireKeyLock keyId ttlMs s = (Ok true, s1) ->
  Redis.acquireKeyLock keyId ttlMs' (Redis.elapse ms s1)
  = (if Z.ltb ms ttl
     then (Ok false, Redis.elapse ms s1)
     else (Ok true,
           <[Redis.keyLock keyId := {| Redis.value := 1; Redis.ttl := Some ttl' |}]>
             (Redis.elapse ms s1)))
  /\ fst (Redis.acquireKeyLock keyId ttlMs' (Redis.releaseKeyLock keyId s1)) = Ok true.
Proof.
  intros ttl ttl' Httl' Hms. unfold Redis.acquireKeyLock, Redis.set_px_nx.
  fold ttl ttl'.
  destruct (Z.leb_spec ttl 0) as [H0|H0]; [discriminate|].
  destruct (s !! Redis.keyLock keyId) eqn:E; [discriminate|].
  intros [= <-].
  destruct (Z.leb_spec ttl' 0) as [H0'|_]; [lia|].
  rewrite elapse_lookup, lookup_insert_eq. simpl. unfold Redis.age. simpl.
  unfold Redis.releaseKeyLock, Redis.del. rewrite lookup_delete_eq.
  destruct (Z.leb_spec ttl ms); destruct (Z.ltb_spec ms ttl); try lia; simpl.
  - split; reflexivity.
  - split; reflexivity.
Qed.

Lemma key_lock_excludes_until_expiry_witness :
  let s1 := <[Redis.keyLock "A" := {| Redis.value := 1; Redis.ttl := Some 5000 |}]>
              (∅ : gmap string Redis.entry) in
  Redis.acquireKeyLock "A" (Some 200) (Redis.elapse 4999 s1)
  = (if Z.ltb 4999 5000
     then (Ok false, Redis.elapse 4999 s1)
     else (Ok true,
           <[Redis.keyLock "A" := {| Redis.value := 1; Redis.ttl := Some 200 |}]>
             (Redis.elapse 4999 s1)))
  /\ fst (Redis.acquireKeyLock "A" (Some 200) (Redis.releaseKeyLock "A" s1)) = Ok true.
Proof.
  apply (key_lock_excludes_until_expiry "A" None (Some 200) 4999 ∅); try lia.
  reflexivity.
Defined.

(** X13.  The locks and the round-robin counters do not touch each
    other: the keys of [redisKeys.keyLock] are distinct for distinct
    key ids and never a key of [redisKeys.roundRobinIndex].  So
    releasing the lock of another key id, or a round-robin selection,
    does not change what [acquireKeyLock] answers, and taking or
    releasing a lock does not change the index that
    [getNextRoundRobinIndex] returns. *)
Theorem key_locks_are_independent (keyId other prov : string) (prio n : Z)
    (ttlMs : option Z) (s : gmap string Redis.entry) :
  keyId <> other ->
  fst (Redis.acquireKeyLock keyId ttlMs (Redis.releaseKeyLock other s))
  = fst (Redis.acquireKeyLock keyId ttlMs s)
  /\ fst (Redis.acquireKeyLock keyId ttlMs
            (snd (Redis.getNextRoundRobinIndex prov prio n s)))
     = fst (Redis.acquireKeyLock keyId ttlMs s)
  /\ fst (Redis.getNextRoundRobinIndex prov prio n
            (snd (Redis.acquireKeyLock keyId ttlMs s)))
     = fst (Redis.getNextRoundRobinIndex prov prio n s)
  /\ fst (Redis.getNextRoundRobinIndex prov prio n (Redis.releaseKeyLock keyId s))
     = fst (Redis.getNextRoundRobinIndex prov prio n s).
Proof.
  intros Hid. pose proof (keyLock_not_counter keyId prov prio) as Hne.
  split; [|split; [|split]].
  - unfold Redis.acquireKeyLock, Redis.set_px_nx, Redis.releaseKeyLock,
      Redis.del.
    rewrite lookup_delete_ne by (intros E; apply keyLock_inj in E; congruence).
    destruct (Z.leb _ 0); [reflexivity|].
    now destruct (s !! Redis.keyLock keyId).
  - rewrite getNextRoundRobinIndex_eq. cbn [snd].
    unfold Redis.acquireKeyLock, Redis.set_px_nx.
    rewrite lookup_insert_ne by congruence.
    destruct (Z.leb _ 0); [reflexivity|].
    now destruct (s !! Redis.keyLock keyId).
  - rewrite !getNextRoundRobinIndex_eq. cbn [fst]. f_equal. unfold counter.
    unfold Redis.acquireKeyLock, Redis.set_px_nx.
    destruct (Z.leb _ 0); [reflexivity|].
    destruct (s !! Redis.keyLock keyId); [reflexivity|]. cbn [snd].
    now rewrite lookup_insert_ne by congruence.
  - rewrite !getNextRoundRobinIndex_eq. cbn [fst]. f_equal. unfold counter.
    unfold Redis.releaseKeyLock, Redis.del.
    now rewrite lookup_delete_ne by congruence.
Qed.

Lemma key_locks_are_independent_witness :
  let s := <[Redis.keyLock "A" := {| Redis.value := 1; Redis.ttl := Some 5000 |}]>
             (∅ : gmap string Redis.entry) in
  fst (Redis.acquireKeyLock "A" None (Redis.releaseKeyLock "B" s))
  = fst (Redis.acquireKeyLock "A" None s)
  /\ fst (Redis.acquireKeyLock "A" None
            (snd (Redis.getNextRoundRobinIndex "openai" 1 2 s)))
     = fst (Redis.acquireKeyLock "A" None s)
  /\ fst (Redis.getNextRoundRobinIndex "openai" 1 2
            (snd (Redis.acquireKeyLock "A" None s)))
     = fst (Redis.getNextRoundRobinIndex "openai" 1 2 s)
  /\ fst (Redis.getNextRoundRobinIndex "openai" 1 2 (Redis.releaseKeyLock "A" s))
     = fst (Redis.getNextRoundRobinIndex "openai" 1 2 s).
Proof.
  apply (key_locks_are_independent "A" "B" "openai" 1 2 None). discriminate.
Defined.

(** ** The provider registry *)

Lemma some_total {A : Type} (f : A -> option bool) (l : list A) :
  (forall x, In x l -> f x <> None) -> Providers.some f l <> None.
Proof.
  induction l as [|x l IH]; intros H; simpl; [discriminate|].
  destruct (f x) as [[|]|] eqn:E.
  - discriminate.
  - apply IH. intros y Hy. apply H. now right.
  - exfalso. apply (H x); [now left|exact E].
Qed.

Lemma some_existsb {A : Type} (g : A -> bool) (l : list A) :
  Providers.some (fun x => Some (g x)) l = Some (List.existsb g l).
Proof.
  induction l as [|x l IH]; simpl; [reflexivity|].
  destruct (g x); [reflexivity|exact IH].
Qed.

Section Registry.
Variable RegExp_test : string -> string -> option bool.

Lemma registered_validateModel_total (a : Providers.ProviderAdapter) (m : string) :
  In a (Providers.adapters RegExp_test) -> Providers.validateModel a m <> None.
Proof.
  intros Hin.
  destruct (Providers.inherits_validateModel a) eqn:Hinh.
  - destruct (inheriting_adapters RegExp_test a Hin Hinh) as [-> Hstar].
    apply some_total. intros s Hs. apply base_matches_no_star. now apply Hstar.
  - simpl in Hin.
    destruct Hin as [<-|[<-|[<-|[<-|[<-|[<-|[<-|[<-|[<-|[]]]]]]]]]];
      try discriminate Hinh; simpl.
    + unfold Providers.openai_validateModel. now rewrite some_existsb.
    + discriminate.
    + unfold Providers.together_validateModel. now rewrite some_existsb.
    + unfold Providers.fireworks_validateModel.
      destruct (Js.startsWith m "accounts/"); [discriminate|]. now rewrite some_existsb.
Qed.

Lemma findProvidersForModel_fold (m : string) (l : list Providers.ProviderAdapter)
    (ps : list string) :
  (forall a, In a l -> Providers.validateModel a m <> None) ->
  List.fold_left
    (fun supportingProviders a =>
       match supportingProviders with
       | None => None
       | Some ps =>
           match Providers.validateModel a m with
           | None => None
           | Some true => Some (ps ++ [Providers.adapter_name a])%list
           | Some false => Some ps
           end
       end) l (Some ps)
  = Some (ps ++ List.map Providers.adapter_name
                  (List.filter (fun a => match Providers.validateModel a m with
                                         | Some true => true
                                         | _ => false
                                         end) l))%list.
Proof.
  revert ps. induction l as [|a l IH]; intros ps H; simpl.
  - now rewrite app_nil_r.
  - destruct (Providers.validateModel a m) as [[|]|] eqn:E.
    + rewrite IH by (intros; apply H; now right). simpl. now rewrite <- app_assoc.
    + apply IH. intros; apply H; now right.
    + exfalso. apply (H a); [now left|exact E].
Qed.

Lemma getProviderAdapter_registered (p : string) (a : Providers.ProviderAdapter) :
  Providers.getProviderAdapter RegExp_test p = Some a <->
  In a (Providers.adapters RegExp_test) /\ Providers.adapter_name a = p.
Proof.
  unfold Providers.getProviderAdapter. split.
  - intros H. apply find_some in H as [Hin He]. split; [exact Hin|].
    now apply String.eqb_eq.
  - intros [Hin <-]. simpl in Hin.
    destruct Hin as [<-|[<-|[<-|[<-|[<-|[<-|[<-|[<-|[<-|[]]]]]]]]]]; reflexivity.
Qed.

Lemma NoDup_map_filter {A B : Type} (f : A -> B) (p : A -> bool) (l : list A) :
  List.NoDup (List.map f l) -> List.NoDup (List.map f (List.filter p l)).
Proof.
  induction l as [|a l IH]; simpl; [auto|]. intros H. inversion H as [|? ? Hn Hnd]; subst.
  destruct (p a); [|now apply IH]. simpl. constructor; [|now apply IH].
  intros Hin. apply Hn. apply in_map_iff in Hin as (x & <- & Hx).
  apply filter_In in Hx as [Hx _]. now apply in_map.
Qed.

(** X14.  No [validateModel] of a registered adapter throws, whatever
    the model and whatever the regular-expression engine does: no entry
    of a [supportedModels] list contains ['*'], so the pattern branch of
    the inherited [validateModel] is never taken.  Hence
    [findProvidersForModel] returns for every model, a list that holds
    ["openrouter"], which accepts every model, and only names of
    registered adapters.  For a model name of ASCII characters the list
    is told in full: the names of the registered adapters whose
    [validateModel] accepts the model, in registration order and each
    once, each being the adapter that [getProviderAdapter] finds under
    that name.  (Two adapters compare names in lower case, which is
    modelled for ASCII only.) *)
Theorem findProvidersForModel_never_throws (m : string) :
  (forall a, In a (Providers.adapters RegExp_test) -> Providers.validateModel a m <> None)
  /\ exists ps,
       Providers.findProvidersForModel RegExp_test m = Some ps
       /\ In "openrouter" ps
       /\ incl ps (Providers.getAllProviders RegExp_test)
       /\ (Js.ascii_only m = true ->
           ps = List.map Providers.adapter_name
                  (List.filter (fun a => match Providers.validateModel a m with
                                         | Some true => true
                                         | _ => false
                                         end) (Providers.adapters RegExp_test))
           /\ List.NoDup ps
           /\ forall p, In p ps <->
                exists a, Providers.getProviderAdapter RegExp_test p = Some a
                          /\ Providers.validateModel a m = Some true).
Proof.
  split; [intros a; apply registered_validateModel_total|].
  unfold Providers.findProvidersForModel.
  rewrite findProvidersForModel_fold
    by (intros a; apply registered_validateModel_total).
  eexists. split; [reflexivity|]. cbn [app].
  assert (Hp : forall p,
             In p (List.map Providers.adapter_name
                     (List.filter (fun a => match Providers.validateModel a m with
                                            | Some true => true
                                            | _ => false
                                            end) (Providers.adapters RegExp_test)))
             <-> exists a, Providers.getProviderAdapter RegExp_test p = Some a
                           /\ Providers.validateModel a m = Some true).
  { intros p. rewrite in_map_iff. split.
    - intros (a & <- & Ha). apply filter_In in Ha as [Hin Hv]. exists a. split.
      + now apply getProviderAdapter_registered.
      + now destruct (Providers.validateModel a m) as [[|]|].
    - intros (a & Hg & Hv). apply getProviderAdapter_registered in Hg as [Hin <-].
      exists a. split; [reflexivity|]. apply filter_In. split; [exact Hin|].
      now rewrite Hv. }
  split; [|split].
  - apply Hp. exists (Providers.OpenRouterAdapter). split; reflexivity.
  - intros p Hin. apply in_map_iff in Hin as (a & <- & Ha).
    apply filter_In in Ha as [Hin _]. unfold Providers.getAllProviders.
    now apply in_map.
  - intros _. split; [reflexivity|]. split; [|exact Hp].
    apply NoDup_map_filter. simpl.
    repeat (constructor; [simpl; intuition discriminate|]). constructor.
Qed.

(** X15.  [OpenAIAdapter.validateModel] accepts exactly the model
    names that begin with ["gpt"] or ["o1"]: every supported name
    begins with one of the two, and the prefix that the callback tests
    is the part of a supported name before its first ['-']. *)
Theorem openai_validateModel_accepts_gpt_and_o1_names (m : string) :
  Providers.openai_validateModel m
  = Some (Js.startsWith m "gpt" || Js.startsWith m "o1").
Proof.
  unfold Providers.openai_validateModel. rewrite some_existsb. f_equal.
  apply eq_true_iff_eq. rewrite existsb_exists, orb_true_iff. split.
  - intros (s & Hin & Hs). apply orb_true_iff in Hs as [Hs|Hs].
    + apply String.eqb_eq in Hs as ->.
      assert (H : forallb (fun s => Js.startsWith s "gpt" || Js.startsWith s "o1")
                    Providers.openai_supportedModels = true) by (vm_compute; reflexivity).
      rewrite forallb_forall in H. apply orb_true_iff. now apply H.
    + assert (H : forallb (fun s => String.eqb (Js.split_first s "-") "gpt"
                                    || String.eqb (Js.split_first s "-") "o1")
                    Providers.openai_supportedModels = true) by (vm_compute; reflexivity).
      rewrite forallb_forall in H. specialize (H s Hin).
      apply orb_true_iff in H as [H|H]; apply String.eqb_eq in H; rewrite H in Hs; auto.
  - intros [H|H].
    + exists "gpt-4". split; [simpl; tauto|]. apply orb_true_iff. right. exact H.
    + exists "o1". split; [simpl; tauto|]. apply orb_true_iff. right. exact H.
Qed.

Lemma lookup_alias_fixed (validate : string -> option bool)
    (modelMap : list (string * string)) (m : string) :
  forallb (fun entry => match validate (fst entry) with
                        | Some false => true
                        | _ => false
                        end) modelMap = true ->
  validate m = Some true ->
  Providers.lookup_alias modelMap m = m.
Proof.
  intros Hall Hm. induction modelMap as [|[k full] rest IH]; simpl; [reflexivity|].
  simpl in Hall. apply andb_true_iff in Hall as [Hk Hrest].
  destruct (String.eqb_spec k m) as [->|_]; [|now apply IH].
  rewrite Hm in Hk. discriminate.
Qed.

(** X16.  For the adapters of anthropic, mistral, groq and deepseek,
    [mapModelName] changes no model that [validateModel] accepts: each
    short name of their alias maps is rejected by [validateModel].
    The router calls [validateModel] first, on the unmapped name, so
    its mapping step changes nothing for these providers. *)
Theorem aliases_rejected_before_mapping (a : Providers.ProviderAdapter) (m : string) :
  In a (Providers.adapters RegExp_test) ->
  aliases_unreachable a = true ->
  Providers.validateModel a m = Some true ->
  Providers.mapModelName a m = m.
Proof.
  intros Hin Hal. simpl in Hin.
  destruct Hin as [<-|[<-|[<-|[<-|[<-|[<-|[<-|[<-|[<-|[]]]]]]]]]];
    try discriminate Hal; intros Hv;
    refine (lookup_alias_fixed _ _ m _ Hv); vm_compute; reflexivity.
Qed.
End Registry.

Lemma aliases_rejected_before_mapping_witness :
  Providers.mapModelName (Providers.AnthropicAdapter demo_RegExp_test)
    "claude-3-opus-20240229-v2" = "claude-3-opus-20240229-v2".
Proof.
  apply (aliases_rejected_before_mapping demo_RegExp_test
           (Providers.AnthropicAdapter demo_RegExp_test) "claude-3-opus-20240229-v2").
  - simpl. tauto.
  - reflexivity.
  - vm_compute. reflexivity.
Defined.

(** The short name of the same model is rejected, although the alias
    map knows it. *)
Example anthropic_alias_rejected :
  Providers.validateModel (Providers.AnthropicAdapter demo_RegExp_test) "claude-3-opus"
  = Some false
  /\ Providers.mapModelName (Providers.AnthropicAdapter demo_RegExp_test) "claude-3-opus"
     = "claude-3-opus-20240229".
Proof. split; vm_compute; reflexivity. Qed.

(** ** Upstream failures and the retry loop *)

Lemma isNonRetryableError_client_error (g : LLMGatewayError) :
  Router.isNonRetryableError (GatewayError g) = client_error (statusCode g).
Proof.
  unfold Router.isNonRetryableError, client_error.
  rewrite Z.geb_leb.
  destruct (Z.leb_spec 400 (statusCode g)), (Z.ltb_spec (statusCode g) 500),
    (Z.leb_spec (statusCode g) 499); simpl; try reflexivity; lia.
Qed.

(** X17.  The status of an upstream reply outside 200..299 passes
    through [OpenAICompatibleAdapter.chat] unchanged: [chat] throws a
    provider error with that status and the reply's text in its
    message, whatever the text says ([handleError] does not look at the
    message of a [ProviderError]).  So the router's retry loop goes on
    after such a reply unless the status is a 4xx other than 429. *)
Theorem chat_passes_upstream_status_on (name baseUrl : string)
    (mapModelName : string -> string)
    (fetch : OpenAICompatible.FetchRequest -> OpenAICompatible.Upstream)
    (request : Router.ProviderRequest) (config : Router.ProviderConfig)
    (status : Z) (text : string)
    (json : OpenAICompatible.Caught + OpenAICompatible.OpenAIResponse) :
  (forall q', fetch q' = OpenAICompatible.Replies status text json) ->
  status < 200 \/ 299 < status ->
  exists g,
    OpenAICompatible.chat name baseUrl mapModelName fetch request config
    = Err (GatewayError g)
    /\ statusCode g = status
    /\ code g = "PROVIDER_ERROR"
    /\ message g = "Provider " +:+ name +:+ " error: "
                   +:+ ("HTTP " +:+ Js.number_to_string status +:+ ": " +:+ text)
    /\ Router.isNonRetryableError (GatewayError g) = client_error status.
Proof.
  intros Hf Hs. unfold OpenAICompatible.chat. rewrite Hf.
  assert (Hok : OpenAICompatible.ok status = false).
  { unfold OpenAICompatible.ok.
    destruct (Z.leb_spec 200 status), (Z.leb_spec status 299); simpl; auto; lia. }
  rewrite Hok. cbn [negb OpenAICompatible.handleError].
  eexists. split; [reflexivity|].
  rewrite isNonRetryableError_client_error. repeat split.
Qed.

Lemma chat_passes_upstream_status_on_witness :
  exists g,
    OpenAICompatible.chat "openai" "https://api.openai.com/v1" (fun m => m)
      upstream_404 demo_provider_request demo_provider_config
    = Err (GatewayError g)
    /\ statusCode g = 404
    /\ code g = "PROVIDER_ERROR"
    /\ message g = "Provider " +:+ "openai" +:+ " error: "
                   +:+ ("HTTP " +:+ Js.number_to_string 404 +:+ ": "
                        +:+ "rate limit docs: model gpt-5 not found")
    /\ Router.isNonRetryableError (GatewayError g) = client_error 404.
Proof.
  apply (chat_passes_upstream_status_on "openai" "https://api.openai.com/v1"
           (fun m => m) upstream_404 demo_provider_request demo_provider_config
           404 "rate limit docs: model gpt-5 not found"
           (inl OpenAICompatible.CaughtValue)).
  - intros q'. reflexivity.
  - right. lia.
Defined.

(** X18.  What [handleError] makes of an error decides whether the
    router tries again.  A [ProviderError] keeps its status.  Any other
    [Error] is classified by its message alone, in this order: a
    message that contains "rate limit" or "429" gives status 429 and is
    retried; otherwise one that contains "unauthorized", "401",
    "not found" or "404" gives 401 or the 400 of a model-not-supported
    error and ends the retry loop; every other message, and a thrown
    value that is no [Error], gives 500 and is retried. *)
Theorem handleError_decides_retry (name model : string)
    (error : OpenAICompatible.Caught) :
  let g := OpenAICompatible.handleError name error model in
  Router.isNonRetryableError (GatewayError g)
  = match error with
    | OpenAICompatible.CaughtProviderError e => client_error (statusCode e)
    | OpenAICompatible.CaughtError msg =>
        negb (Js.includes msg "rate limit" || Js.includes msg "429")
        && (Js.includes msg "unauthorized" || Js.includes msg "401"
            || Js.includes msg "not found" || Js.includes msg "404")
    | OpenAICompatible.CaughtValue => false
    end
  /\ statusCode g
     = match error with
       | OpenAICompatible.CaughtProviderError e => statusCode e
       | OpenAICompatible.CaughtError msg =>
           if Js.includes msg "rate limit" || Js.includes msg "429" then 429
           else if Js.includes msg "unauthorized" || Js.includes msg "401" then 401
           else if Js.includes msg "not found" || Js.includes msg "404" then 400
           else 500
       | OpenAICompatible.CaughtValue => 500
       end.
Proof.
  intros g. unfold g. rewrite isNonRetryableError_client_error.
  destruct error as [e|msg|]; cbn [OpenAICompatible.handleError].
  - split; reflexivity.
  - destruct (Js.includes msg "rate limit"), (Js.includes msg "429"),
      (Js.includes msg "unauthorized"), (Js.includes msg "401"),
      (Js.includes msg "not found"), (Js.includes msg "404"); split; reflexivity.
  - split; reflexivity.
Qed.

(** ** The user router *)

Lemma StronglySorted_weaken {A : Type} (R S : A -> A -> Prop) (l : list A) :
  (forall a b, R a b -> S a b) -> StronglySorted R l -> StronglySorted S l.
Proof.
  intros H. induction 1 as [|a l Hs IH Ha]; constructor; auto.
  eapply List.Forall_impl; [|exact Ha]. intros b. apply H.
Qed.

Lemma user_keys_sorted (request : Router.ChatRequest) (keys : list ApiKeyInfo) :
  StronglySorted (fun a b => priority a <= priority b) (user_keys_in_order request keys)
  /\ Permutation (user_keys_in_order request keys)
       (List.filter (UserRouter.eligible request) keys).
Proof.
  unfold user_keys_in_order, Js.sort. split; [|apply stable_sort_perm].
  assert (Hgt : forall a b : ApiKeyInfo,
             Js.sign (Js.Fin (priority a - priority b)) = Gt <-> priority b < priority a).
  { intros a b. simpl. rewrite Z.compare_gt_iff. lia. }
  eapply StronglySorted_weaken;
    [|apply (stable_sort_sorted (fun a b => Js.sign (Js.Fin (priority a - priority b))))].
  - intros a b H. cbv beta in H.
    destruct (Z_lt_le_dec (priority b) (priority a)) as [Hlt|Hle]; [|exact Hle].
    exfalso. apply H. now apply Hgt.
  - intros x y z. rewrite !Hgt. lia.
  - intros x y. rewrite !Hgt. lia.
Qed.

Section UserRouting.
Variable providerConfigs : string -> option (string * Z).
Variable RegExp_test : string -> string -> option bool.
Variable chat :
  Z -> string -> Router.ProviderRequest -> Router.ProviderConfig ->
  result Router.ChatResponse * Z.

Lemma tryKeyRequest_table (request : Router.ChatRequest) (n : Z) (key : ApiKeyInfo)
    (w : Router.World) :
  keys_table (Router.stores
                (snd (UserRouter.tryKeyRequest providerConfigs RegExp_test chat
                        request n key w)))
  = keys_table (Router.stores w).
Proof.
  unfold UserRouter.tryKeyRequest.
  destruct (Providers.getProviderAdapter RegExp_test (provider key)); [|reflexivity].
  destruct (providerConfigs (provider key)) as [[baseUrl timeout]|]; [|reflexivity].
  destruct (chat n (provider key) _ _) as [[resp|e] elapsed]; reflexivity.
Qed.

Lemma try_keys_outcome (request : Router.ChatRequest) (startTime : Z)
    (keys : list ApiKeyInfo) (n : Z) (w : Router.World) :
  let run := UserRouter.try_keys providerConfigs RegExp_test chat request startTime
               keys n w in
  let res := fst (fst run) in
  let w' := snd (fst run) in
  if UserRouter.success res
  then exists failed key rest,
         keys = (failed ++ key :: rest)%list
         /\ snd run = (failed_tries failed ++ [(key, true)])%list
         /\ option_map Router.meta_keyId (UserRouter.metadata res) = Some (id key)
         /\ option_map Router.meta_provider (UserRouter.metadata res) = Some (provider key)
         /\ option_map Router.meta_latencyMs (UserRouter.metadata res)
            = Some (Router.now w' - startTime)
         /\ keys_table (Router.stores w')
            = Prisma.update_increment (id key) (Router.now w') (keys_table (Router.stores w))
  else UserRouter.errorCode res = Some "ALL_KEYS_FAILED"
       /\ UserRouter.statusCode res = Some 502
       /\ snd run = failed_tries keys
       /\ keys_table (Router.stores w') = keys_table (Router.stores w).
Proof.
  revert n w. induction keys as [|key rest IH]; intros n w; cbn zeta.
  - simpl. auto.
  - cbn [UserRouter.try_keys].
    pose proof (tryKeyRequest_table request n key w) as Ht.
    destruct (UserRouter.tryKeyRequest providerConfigs RegExp_test chat request n key w)
      as [[resp resolved|err] w1]; cbn [snd] in Ht.
    + cbn [fst snd UserRouter.success]. exists [], key, rest.
      cbn. rewrite Ht. auto 10.
    + specialize (IH (n + 1) w1). cbn zeta in IH.
      destruct (UserRouter.try_keys providerConfigs RegExp_test chat request startTime
                  rest (n + 1) w1) as [[x w2] tried].
      cbn [fst snd] in *. destruct (UserRouter.success x).
      * destruct IH as (failed & k & rest' & -> & -> & H1 & H2 & H3 & H4).
        exists (key :: failed), k, rest'. rewrite H4, Ht. auto 10.
      * destruct IH as (H1 & H2 & -> & H4). rewrite H4, Ht. auto.
Qed.

(** X19.  [routeWithKeys] tries the eligible keys one after the other
    in ascending priority, keys of equal priority in the order given,
    and stops at the first that answers.  It ends in one of three
    ways: with no eligible key, at once and without a try, code
    NO_ELIGIBLE_KEY and status 400; served by a key, every eligible
    key before it in that order having been tried once and failed, none
    after it tried, and the use counted on the row of that key and on
    no other; or, every eligible key having been tried once and failed,
    code ALL_KEYS_FAILED and status 502, the key table as it was. *)
Theorem routeWithKeys_tries_keys_in_priority_order (request : Router.ChatRequest)
    (keys : list ApiKeyInfo) (w : Router.World) :
  let run := UserRouter.routeWithKeys providerConfigs RegExp_test chat request keys w in
  let res := fst (fst run) in
  let w' := snd (fst run) in
  let ordered := user_keys_in_order request keys in
  StronglySorted (fun a b => priority a <= priority b) ordered
  /\ Permutation ordered (List.filter (UserRouter.eligible request) keys)
  /\ if UserRouter.success res
     then exists failed key rest,
            ordered = (failed ++ key :: rest)%list
            /\ snd run = (failed_tries failed ++ [(key, true)])%list
            /\ option_map Router.meta_keyId (UserRouter.metadata res) = Some (id key)
            /\ option_map Router.meta_provider (UserRouter.metadata res)
               = Some (provider key)
            /\ option_map Router.meta_latencyMs (UserRouter.metadata res)
               = Some (Router.now w' - Router.now w)
            /\ keys_table (Router.stores w')
               = Prisma.update_increment (id key) (Router.now w')
                   (keys_table (Router.stores w))
     else snd run = failed_tries ordered
          /\ keys_table (Router.stores w') = keys_table (Router.stores w)
          /\ match ordered with
             | [] => UserRouter.errorCode res = Some "NO_ELIGIBLE_KEY"
                     /\ UserRouter.statusCode res = Some 400
                     /\ w' = w
             | _ :: _ => UserRouter.errorCode res = Some "ALL_KEYS_FAILED"
                         /\ UserRouter.statusCode res = Some 502
             end.
Proof.
  intros run res w' ordered.
  destruct (user_keys_sorted request keys) as [Hs Hp].
  split; [exact Hs|]. split; [exact Hp|].
  unfold res, w', run, UserRouter.routeWithKeys. fold ordered in Hp.
  destruct (List.filter (UserRouter.eligible request) keys) as [|k0 l] eqn:Ef.
  - symmetry in Hp. apply Permutation_nil in Hp. rewrite Hp. cbn. auto.
  - assert (Hne : ordered <> []).
    { intros E. rewrite E in Hp. apply Permutation_nil in Hp. discriminate. }
    pose proof (try_keys_outcome request (Router.now w) ordered 0 w) as H.
    cbn zeta in H.
    assert (Ho : ordered = Js.sort (fun a b => Js.Fin (priority a - priority b)) (k0 :: l)).
    { unfold ordered, user_keys_in_order. now rewrite Ef. }
    rewrite <- Ho.
    destruct (UserRouter.success
                (fst (fst (UserRouter.try_keys providerConfigs RegExp_test chat request
                             (Router.now w) ordered 0 w)))).
    + exact H.
    + destruct H as (H1 & H2 & H3 & H4). split; [exact H3|]. split; [exact H4|].
      destruct ordered; [congruence|]. auto.
Qed.

(** X20.  The user router and the key manager agree on which keys a
    request may use, up to the request's allow-lists: [routeWithKeys]
    keeps a key exactly when the key manager's query for the request's
    provider, taken without [allowedProviders] and [allowedPriorities],
    returns it and [filterEligibleKeys] keeps it.  (The user router
    does not look at the two allow-lists, and reads [usedToday] as it
    is, without the daily reset.) *)
Theorem user_router_eligibility_agrees_with_key_manager
    (request : Router.ChatRequest) (key : ApiKeyInfo) :
  UserRouter.eligible request key
  = candidate (context_without_allow_lists request) key
    && KeyManager.eligible (Router.model request) key.
Proof.
  unfold UserRouter.eligible, candidate, KeyManager.whereConditions, Prisma.matches,
    KeyManager.eligible, KeyManager.has_quota, context_without_allow_lists.
  cbn [requestedModel requestedProvider allowedProviders allowedPriorities].
  destruct (String.eqb (Router.req_provider request) auto);
    cbn [Prisma.where_enabled Prisma.where_provider Prisma.where_priority];
    destruct (enabled key), (dailyLimit key) as [d|];
    try destruct (Z.geb (usedToday key) d);
    destruct (String.eqb (provider key) (Router.req_provider request));
    destruct (Js.truthy (Router.model request)) as [m|];
    try destruct (KeyManager.isAllowed key m); reflexivity.
Qed.
End UserRouting.

(** ** Waiting for a job, and the replies of the chat routes *)

Lemma react_tidy (w : Queue.Waiter) (s : Queue.Stimulus) :
  tidy w -> tidy (Queue.react w s).
Proof.
  unfold tidy. destruct w as [rid tmo [x|] lis tim]; cbn; intros [-> ->];
    destruct s as [[jobId rv|jobId reason]| |[job|]]; cbn; auto.
  - destruct (Queue.job_state job), (Queue.returnvalue job); cbn; auto.
  - destruct (String.eqb jobId rid); [|cbn; auto]. destruct rv; cbn; auto.
  - destruct (String.eqb jobId rid); cbn; auto.
  - destruct (Queue.job_state job), (Queue.returnvalue job); cbn; auto.
Qed.

Lemma run_tidy (l : list Queue.Stimulus) (w : Queue.Waiter) :
  tidy w -> tidy (Queue.run w l).
Proof.
  revert w. induction l as [|s l IH]; intros w H; [exact H|].
  apply IH. now apply react_tidy.
Qed.

Lemma react_settled_same (w : Queue.Waiter) (s : Queue.Stimulus) :
  tidy w -> Queue.settled w <> None -> Queue.react w s = w.
Proof.
  unfold tidy. destruct w as [rid tmo [x|] lis tim]; cbn; [|congruence].
  intros [-> ->] _.
  destruct s as [[jobId rv|jobId reason]| |[job|]]; cbn; try reflexivity.
  destruct (Queue.job_state job), (Queue.returnvalue job); reflexivity.
Qed.

Lemma run_settled_same (l : list Queue.Stimulus) (w : Queue.Waiter) :
  tidy w -> Queue.settled w <> None -> Queue.run w l = w.
Proof.
  intros Ht Hs. induction l as [|s l IH]; [reflexivity|].
  unfold Queue.run in *. simpl. now rewrite react_settled_same.
Qed.

Lemma react_passes_by (w : Queue.Waiter) (s : Queue.Stimulus) :
  passes_by (Queue.w_requestId w) s -> Queue.react w s = w.
Proof.
  destruct s as [[jobId rv|jobId reason]| |[job|]]; cbn.
  - intros H. destruct (String.eqb_spec jobId (Queue.w_requestId w)); [contradiction|].
    now rewrite andb_false_r.
  - intros H. destruct (String.eqb_spec jobId (Queue.w_requestId w)); [contradiction|].
    now rewrite andb_false_r.
  - intros [].
  - destruct (Queue.job_state job), (Queue.returnvalue job); intros H;
      try reflexivity; destruct H.
  - reflexivity.
Qed.

Lemma run_passes_by (l : list Queue.Stimulus) (w : Queue.Waiter) :
  List.Forall (passes_by (Queue.w_requestId w)) l -> Queue.run w l = w.
Proof.
  induction 1 as [|s l Hs Hl IH]; [reflexivity|].
  unfold Queue.run in *. simpl. now rewrite react_passes_by.
Qed.

Lemma run_app (l l' : list Queue.Stimulus) (w : Queue.Waiter) :
  Queue.run w (l ++ l') = Queue.run (Queue.run w l) l'.
Proof. unfold Queue.run. apply fold_left_app. Qed.

(** X21.  The promise of [waitForJob] settles at most once and leaves
    nothing behind: whatever events, lookups and timeouts reach it, in
    whatever order, a waiter that has not settled still has its two
    listeners and its timer, a waiter that has settled has removed the
    listeners and cleared the timer, and from then on nothing changes
    it.  Once its timeout has fired the waiter has settled, so no call
    waits for ever. *)
Theorem waitForJob_settles_once_and_cleans_up (requestId : string) (timeoutMs : Z)
    (l l' : list Queue.Stimulus) :
  let w := Queue.run (Queue.waitForJob requestId timeoutMs) l in
  match Queue.settled w with
  | None => Queue.listening w = true /\ Queue.timer w = true
            /\ ~ In Queue.OnTimeout l
  | Some _ => Queue.listening w = false /\ Queue.timer w = false
              /\ Queue.run w l' = w
  end.
Proof.
  intros w.
  assert (Ht : tidy w) by (apply run_tidy; cbn; auto).
  pose proof Ht as Ht'. unfold tidy in Ht'.
  destruct (Queue.settled w) as [x|] eqn:Es.
  - destruct Ht' as [H1 H2]. split; [exact H1|]. split; [exact H2|].
    apply run_settled_same; [exact Ht|congruence].
  - destruct Ht' as [H1 H2]. split; [exact H1|]. split; [exact H2|].
    intros Hin. apply in_split in Hin as (l1 & l2 & ->).
    unfold w in Es. rewrite run_app in Es.
    assert (Hs : Queue.settled
                   (Queue.run (Queue.run (Queue.waitForJob requestId timeoutMs) l1)
                      [Queue.OnTimeout]) <> None).
    { assert (Ht1 : tidy (Queue.run (Queue.waitForJob requestId timeoutMs) l1))
        by (apply run_tidy; cbn; auto).
      unfold tidy in Ht1. unfold Queue.run at 1. cbn [fold_left Queue.react].
      destruct (Queue.settled (Queue.run (Queue.waitForJob requestId timeoutMs) l1))
        as [x|] eqn:E1.
      - destruct Ht1 as [_ ->]. congruence.
      - destruct Ht1 as [_ ->]. unfold Queue.settle_promise. cbn. rewrite E1. discriminate. }
    change (Queue.OnTimeout :: l2) with ([Queue.OnTimeout] ++ l2)%list in Es.
    rewrite run_app in Es.
    destruct (Queue.settled
                (Queue.run (Queue.run (Queue.waitForJob requestId timeoutMs) l1)
                   [Queue.OnTimeout])) as [x|] eqn:E2; [|congruence].
    rewrite (run_settled l2 _ x E2) in Es. discriminate.
Qed.

Lemma startsWith_nil (m : string) : Js.startsWith m EmptyString = true.
Proof. now destruct m. Qed.

Lemma startsWith_prefix (t b : string) : Js.startsWith (t +:+ b) t = true.
Proof.
  induction t as [|c t IH].
  - apply startsWith_nil.
  - change (String c t +:+ b) with (String c (t +:+ b)). simpl.
    now rewrite Ascii.eqb_refl.
Qed.

Lemma includes_unfold (s t : string) :
  Js.includes s t
  = Js.startsWith s t || match s with
                         | EmptyString => false
                         | String _ s' => Js.includes s' t
                         end.
Proof. now destruct s. Qed.

Lemma includes_prefix (t b : string) : Js.includes (t +:+ b) t = true.
Proof. now rewrite includes_unfold, startsWith_prefix. Qed.

Lemma includes_app_r (a b t : string) :
  Js.includes b t = true -> Js.includes (a +:+ b) t = true.
Proof.
  intros H. induction a as [|c a IH]; [exact H|].
  change (String c a +:+ b) with (String c (a +:+ b)).
  rewrite includes_unfold, IH. apply orb_true_r.
Qed.

Lemma timeout_message_timed_out (w : Queue.Waiter) :
  Js.includes (Queue.timeout_message w) "timed out" = true.
Proof.
  unfold Queue.timeout_message.
  apply (includes_app_r "Job "), includes_app_r.
  apply (includes_app_r " " (_ +:+ _)).
  apply (includes_prefix "timed out"
           (" after " +:+ Js.number_to_string (Queue.w_timeoutMs w) +:+ "ms")).
Qed.

(** X22.  A [GET /chat/:requestId] whose wait runs into its timeout
    answers 408 REQUEST_TIMEOUT, for every request id and every timeout
    value: when nothing that concerns the request id reaches the waiter
    before its timer fires, the promise is rejected with the timeout
    message, which the handler recognises by the words "timed out" and
    turns into the reply "Request is still processing" instead of
    passing the error on. *)
Theorem get_chat_result_answers_408_on_timeout (enableLlmHeaders : bool)
    (requestId : string) (header : option string) (timeoutMs : Z)
    (before after : list Queue.Stimulus) :
  List.Forall (passes_by requestId) before ->
  let w := Queue.run (Queue.waitForJob requestId timeoutMs)
             (before ++ Queue.OnTimeout :: after) in
  exists s,
    Queue.settled w = Some s
    /\ Http.getChatResult enableLlmHeaders requestId header s
       = Http.Refused {| Http.er_status := 408;
                         Http.er_code := "REQUEST_TIMEOUT";
                         Http.er_message := "Request is still processing";
                         Http.er_requestId := Some requestId |}.
Proof.
  intros Hb w. unfold w.
  change (Queue.OnTimeout :: after) with ([Queue.OnTimeout] ++ after)%list.
  rewrite !run_app, (run_passes_by before) by exact Hb.
  exists (Queue.Rejected (Queue.timeout_message (Queue.waitForJob requestId timeoutMs))).
  split.
  - apply run_settled. reflexivity.
  - unfold Http.getChatResult. now rewrite timeout_message_timed_out.
Qed.

Lemma get_chat_result_answers_408_on_timeout_witness :
  let w := Queue.run (Queue.waitForJob "req-1" 30000)
             ([Queue.OnLookup None;
               Queue.OnEvent (Queue.Completed "1" (Some demo_result))]
              ++ Queue.OnTimeout
                 :: [Queue.OnEvent (Queue.Completed "req-1" (Some demo_result))]) in
  exists s,
    Queue.settled w = Some s
    /\ Http.getChatResult true "req-1" None s
       = Http.Refused {| Http.er_status := 408;
                         Http.er_code := "REQUEST_TIMEOUT";
                         Http.er_message := "Request is still processing";
                         Http.er_requestId := Some "req-1" |}.
Proof.
  apply (get_chat_result_answers_408_on_timeout true "req-1" None 30000
           [Queue.OnLookup None; Queue.OnEvent (Queue.Completed "1" (Some demo_result))]
           [Queue.OnEvent (Queue.Completed "req-1" (Some demo_result))]).
  repeat constructor. simpl. discriminate.
Defined.

Section Replies.
Variable enableLlmHeaders : bool.
Variable strategy : KeySelectionStrategy.
Variable maxRetries : Q.
Variable retryDelayMs : Q.
Variable providerConfigs : string -> option (string * Z).
Variable RegExp_test : string -> string -> option bool.
Variable startOfDay : Z -> Date.
Variable chat :
  Z -> string -> Router.ProviderRequest -> Router.ProviderConfig ->
  result Router.ChatResponse * Z.

(** X23.  One failure of the router, two replies.  When [route] fails
    on a request, the error it throws is a gateway error, so a
    synchronous [POST /chat] answers with the status, code and message
    of that error and never with the 500 INTERNAL_ERROR of
    [errorHandler].  When the status of the error is below 500, the
    worker completes the job of the same request with a failed result,
    and [GET /chat/:requestId] answers that result with 500 JOB_FAILED:
    the client error of the router reaches the asynchronous caller as
    a server error. *)
Theorem router_failure_replies (body : Router.ChatRequest) (rid uuid uuid' : string)
    (header : option string) (w : Router.World) (b : Queue.Broker) (e : Error) :
  Js.truthy (Router.requestId body) = Some rid ->
  fst (fst (Router.route strategy maxRetries retryDelayMs providerConfigs
              RegExp_test startOfDay chat body w)) = Err e ->
  exists g,
    e = GatewayError g
    /\ fst (fst (Http.postChat enableLlmHeaders strategy maxRetries retryDelayMs
                   providerConfigs RegExp_test startOfDay chat
                   body false uuid uuid' header w b))
       = Http.Refused {| Http.er_status := statusCode g;
                         Http.er_code := code g;
                         Http.er_message := message g;
                         Http.er_requestId := match Js.truthy header with
                                              | Some h => Some h
                                              | None => Some rid
                                              end |}
    /\ (statusCode g < 500 ->
        exists r,
          fst (Worker.processChatJob strategy maxRetries retryDelayMs providerConfigs
                 RegExp_test startOfDay chat body w) = Worker.Returns r
          /\ forall requestId hdr,
               exists m,
                 Http.getChatResult enableLlmHeaders requestId hdr (Queue.Resolved r)
                 = Http.Refused {| Http.er_status := 500;
                                   Http.er_code := "JOB_FAILED";
                                   Http.er_message := m;
                                   Http.er_requestId := Some requestId |}
                 /\ (message g <> EmptyString -> m = message g)).
Proof.
  intros Hrid Hroute.
  destruct (route_throws_gateway_error strategy maxRetries retryDelayMs providerConfigs
              RegExp_test startOfDay chat body w e Hroute) as (g & -> & _).
  exists g. split; [reflexivity|].
  assert (Hbody : {| Router.messages := Router.messages body;
                     Router.model := Router.model body;
                     Router.req_provider := Router.req_provider body;
                     Router.req_allowedProviders := Router.req_allowedProviders body;
                     Router.req_allowedPriorities := Router.req_allowedPriorities body;
                     Router.stream := Router.stream body;
                     Router.requestId := Some rid |} = body).
  { destruct body as [ms md pr ap app st [r|]]; cbn in *; [|discriminate].
    destruct r; [discriminate|]. now injection Hrid as <-. }
  split.
  - unfold Http.postChat. rewrite Hrid, Hbody.
    destruct (Router.route strategy maxRetries retryDelayMs providerConfigs
                RegExp_test startOfDay chat body w) as [[[[resp metadata]|e'] w1] tr];
      cbn [fst snd] in *; [discriminate|]. injection Hroute as ->. cbn.
    destruct (Js.truthy header); [reflexivity|].
    destruct body as [ms md pr ap app st [r|]]; cbn in *; [|discriminate].
    destruct r; [discriminate|]. now injection Hrid as <-.
  - intros Hlt. unfold Worker.processChatJob.
    destruct (Router.route strategy maxRetries retryDelayMs providerConfigs
                RegExp_test startOfDay chat body w) as [[[[resp metadata]|e'] w1] tr];
      cbn [fst snd] in *; [discriminate|]. injection Hroute as ->.
    destruct (Z.ltb_spec (statusCode g) 500) as [_|Hge]; [|lia].
    eexists. split; [reflexivity|]. intros requestId hdr.
    cbn. eexists. split; [reflexivity|].
    intros Hne. destruct (message g); [congruence|reflexivity].
Qed.
End Replies.

Lemma router_failure_replies_witness :
  exists g,
    no_key_for_demo = GatewayError g
    /\ fst (fst (Http.postChat true ExhaustFirst 3 1000 demo_providerConfigs
                   demo_RegExp_test demo_startOfDay demo_chat_ok
                   demo_request false "f47ac10b" "9b2e1c7d" None world_without_keys
                   fresh_broker))
       = Http.Refused {| Http.er_status := statusCode g;
                         Http.er_code := code g;
                         Http.er_message := message g;
                         Http.er_requestId := match Js.truthy None with
                                              | Some h => Some h
                                              | None => Some "req-1"
                                              end |}
    /\ (statusCode g < 500 ->
        exists r,
          fst (Worker.processChatJob ExhaustFirst 3 1000 demo_providerConfigs
                 demo_RegExp_test demo_startOfDay demo_chat_ok demo_request
                 world_without_keys) = Worker.Returns r
          /\ forall requestId hdr,
               exists m,
                 Http.getChatResult true requestId hdr (Queue.Resolved r)
                 = Http.Refused {| Http.er_status := 500;
                                   Http.er_code := "JOB_FAILED";
                                   Http.er_message := m;
                                   Http.er_requestId := Some requestId |}
                 /\ (message g <> EmptyString -> m = message g)).
Proof.
  apply (router_failure_replies true ExhaustFirst 3 1000 demo_providerConfigs
           demo_RegExp_test demo_startOfDay demo_chat_ok demo_request "req-1"
           "f47ac10b" "9b2e1c7d" None world_without_keys fresh_broker no_key_for_demo).
  - reflexivity.
  - vm_compute. reflexivity.
Defined.

(** ** Usage statistics *)

Lemma rows_of_app (groupBy : UsageTracker.GroupBy) (g : string)
    (seen : list Router.UsageLogEntry) (log : Router.UsageLogEntry) :
  rows_of groupBy g (seen ++ [log])
  = (rows_of groupBy g seen
     ++ if String.eqb (UsageTracker.groupKey groupBy log) g then [log] else [])%list.
Proof. unfold rows_of. rewrite List.filter_app. reflexivity. Qed.

Lemma totals_of_app (rows : list Router.UsageLogEntry) (log : Router.UsageLogEntry) :
  totals_of (rows ++ [log]) = UsageTracker.count log (totals_of rows).
Proof. unfold totals_of. now rewrite fold_left_app. Qed.

Lemma record_keys (k : string) (log : Router.UsageLogEntry)
    (grouped : list (string * UsageTracker.Totals)) :
  List.map fst (UsageTracker.record k log grouped)
  = if Prisma.in_strings k (List.map fst grouped)
    then List.map fst grouped
    else (List.map fst grouped ++ [k])%list.
Proof.
  induction grouped as [|[g t] rest IH]; simpl; [reflexivity|].
  rewrite (String.eqb_sym k g).
  destruct (String.eqb_spec g k) as [->|Hne]; simpl; [reflexivity|].
  rewrite IH. unfold Prisma.in_strings.
  now destruct (existsb (String.eqb k) (List.map fst rest)).
Qed.

Lemma record_entries (k : string) (log : Router.UsageLogEntry)
    (grouped : list (string * UsageTracker.Totals)) (g : string)
    (t : UsageTracker.Totals) :
  List.NoDup (List.map fst grouped) ->
  In (g, t) (UsageTracker.record k log grouped) ->
  (g <> k /\ In (g, t) grouped)
  \/ (g = k /\ exists t0, t = UsageTracker.count log t0
                          /\ (In (k, t0) grouped
                              \/ (t0 = UsageTracker.zero
                                  /\ ~ In k (List.map fst grouped)))).
Proof.
  induction grouped as [|[g0 t0] rest IH]; simpl; intros Hnd Hin.
  - destruct Hin as [[= <- <-]|[]]. right. split; [reflexivity|].
    exists UsageTracker.zero. split; [reflexivity|]. right. tauto.
  - inversion Hnd as [|? ? Hn Hnd']; subst.
    destruct (String.eqb_spec g0 k) as [->|Hne].
    + destruct Hin as [[= <- <-]|Hin].
      * right. split; [reflexivity|]. exists t0. split; [reflexivity|]. left. now left.
      * left. split; [|now right]. intros ->. apply Hn.
        change k with (fst (k, t)). now apply in_map.
    + destruct Hin as [[= <- <-]|Hin].
      * left. split; [exact Hne|now left].
      * destruct (IH Hnd' Hin) as [[H1 H2]|[H1 (t1 & H2 & H3)]].
        -- left. split; [exact H1|now right].
        -- right. split; [exact H1|]. exists t1. split; [exact H2|].
           destruct H3 as [H3|[H3 H4]]; [left; now right|].
           right. split; [exact H3|]. intros [E|E]; [congruence|contradiction].
Qed.

Lemma record_sum (k : string) (log : Router.UsageLogEntry)
    (grouped : list (string * UsageTracker.Totals)) :
  sum_Z (List.map (fun e => UsageTracker.totalRequests (snd e))
           (UsageTracker.record k log grouped))
  = sum_Z (List.map (fun e => UsageTracker.totalRequests (snd e)) grouped) + 1.
Proof.
  unfold sum_Z. induction grouped as [|[g t] rest IH]; simpl; [reflexivity|].
  destruct (String.eqb g k); simpl; [lia|]. rewrite IH. lia.
Qed.

Lemma grouped_rows_step (groupBy : UsageTracker.GroupBy)
    (seen : list Router.UsageLogEntry) (log : Router.UsageLogEntry)
    (grouped : list (string * UsageTracker.Totals)) :
  grouped_rows groupBy seen grouped ->
  grouped_rows groupBy (seen ++ [log])
    (UsageTracker.record (UsageTracker.groupKey groupBy log) log grouped).
Proof.
  intros (Hnd & Hent & Hcov & Hsum).
  set (k := UsageTracker.groupKey groupBy log).
  assert (Hin : Prisma.in_strings k (List.map fst grouped) = true
                <-> In k (List.map fst grouped)) by apply in_strings_In.
  split; [|split; [|split]].
  - rewrite record_keys.
    destruct (Prisma.in_strings k (List.map fst grouped)) eqn:E; [exact Hnd|].
    apply List.NoDup_app; [exact Hnd|repeat constructor; simpl; tauto|].
    intros x Hx [<-|[]]. apply Hin in Hx. congruence.
  - intros g t Hg. rewrite rows_of_app. fold k.
    destruct (record_entries k log grouped g t Hnd Hg)
      as [[Hne Hold]|[-> (t0 & -> & [Hold|[-> Hnew]])]].
    + destruct (String.eqb_spec k g) as [E|_]; [congruence|].
      rewrite app_nil_r. now apply Hent.
    + rewrite String.eqb_refl, totals_of_app.
      destruct (Hent k t0 Hold) as [-> _]. split; [reflexivity|].
      now destruct (rows_of groupBy k seen).
    + rewrite String.eqb_refl, totals_of_app.
      assert (Hnone : rows_of groupBy k seen = []).
      { destruct (rows_of groupBy k seen) as [|r rs] eqn:Er; [reflexivity|].
        exfalso. apply Hnew.
        assert (Hr : In r (rows_of groupBy k seen)) by (rewrite Er; now left).
        unfold rows_of in Hr. apply filter_In in Hr as [Hr Hk].
        apply String.eqb_eq in Hk. rewrite <- Hk. now apply Hcov. }
      rewrite Hnone. split; [reflexivity|discriminate].
  - intros l Hl. rewrite record_keys.
    assert (Hl' : In (UsageTracker.groupKey groupBy l) (List.map fst grouped)
                  \/ UsageTracker.groupKey groupBy l = k).
    { apply in_app_or in Hl as [Hl|[<-|[]]]; [left; now apply Hcov|now right]. }
    destruct (Prisma.in_strings k (List.map fst grouped)) eqn:E.
    + destruct Hl' as [H | ->]; [exact H|now apply Hin].
    + apply in_or_app. destruct Hl' as [H | ->]; [now left|right; now left].
  - rewrite record_sum, Hsum, length_app. simpl. lia.
Qed.

Lemma grouped_rows_fold (groupBy : UsageTracker.GroupBy)
    (logs seen : list Router.UsageLogEntry)
    (grouped : list (string * UsageTracker.Totals)) :
  grouped_rows groupBy seen grouped ->
  grouped_rows groupBy (seen ++ logs)
    (List.fold_left
       (fun grouped log =>
          UsageTracker.record (UsageTracker.groupKey groupBy log) log grouped)
       logs grouped).
Proof.
  revert seen grouped. induction logs as [|log logs IH]; intros seen grouped H; simpl.
  - now rewrite app_nil_r.
  - replace (seen ++ log :: logs)%list with ((seen ++ [log]) ++ logs)%list
      by (rewrite <- app_assoc; reflexivity).
    apply IH. now apply grouped_rows_step.
Qed.

Lemma totals_of_counts (rows : list Router.UsageLogEntry) :
  UsageTracker.totalRequests (totals_of rows) = Z.of_nat (List.length rows)
  /\ UsageTracker.successfulRequests (totals_of rows) = how_many Router.log_success rows
  /\ UsageTracker.failedRequests (totals_of rows)
     = how_many (fun log => negb (Router.log_success log)) rows
  /\ UsageTracker.totalTokens (totals_of rows)
     = sum_Z (List.map (fun log => match Router.log_totalTokens log with
                                   | Some t => t
                                   | None => 0
                                   end) rows)
  /\ UsageTracker.latencyCount (totals_of rows)
     = how_many (fun log => negb (Z.eqb (Router.log_latencyMs log) 0)) rows
  /\ UsageTracker.totalLatencyMs (totals_of rows)
     = sum_Z (List.map Router.log_latencyMs rows).
Proof.
  induction rows as [|log rows IH] using rev_ind.
  - cbn. repeat split.
  - rewrite totals_of_app. destruct IH as (H1 & H2 & H3 & H4 & H5 & H6).
    unfold how_many in *. rewrite !List.filter_app, !length_app, !map_app.
    assert (Hs : forall l x, sum_Z (l ++ [x]) = sum_Z l + x).
    { intros l x. unfold sum_Z. induction l as [|y l IHl]; simpl; [lia|].
      rewrite IHl. lia. }
    cbn [List.filter List.map UsageTracker.count UsageTracker.totalRequests
         UsageTracker.successfulRequests UsageTracker.failedRequests
         UsageTracker.totalTokens UsageTracker.latencyCount
         UsageTracker.totalLatencyMs].
    rewrite !Hs, H1, H2, H3, H4, H5, H6.
    destruct (Router.log_success log), (Z.eqb_spec (Router.log_latencyMs log) 0);
      cbn [negb List.length]; repeat split; try lia.
Qed.

(** X24.  [getUsageStats] counts every row of its window once, in the
    group of its provider, model or key: the groups returned are
    distinct and are exactly the group keys that occur in the rows;
    for each group, [totalRequests] is the number of its rows,
    [successfulRequests] and [failedRequests] are the numbers of its
    rows with and without [success] and add up to [totalRequests],
    [totalTokens] is the sum of the token counts of its rows, a
    missing count taken as 0, and the average latency is taken over
    the rows whose latency is not 0; the [totalRequests] of all
    groups add up to the number of rows. *)
Theorem getUsageStats_counts_every_row_once (logs : list Router.UsageLogEntry)
    (groupBy : UsageTracker.GroupBy) :
  let stats := UsageTracker.getUsageStats logs groupBy in
  List.NoDup (List.map UsageTracker.group stats)
  /\ (forall g, In g (List.map UsageTracker.group stats)
                <-> exists log, In log logs /\ UsageTracker.groupKey groupBy log = g)
  /\ (forall s, In s stats ->
        let rows := rows_of groupBy (UsageTracker.group s) logs in
        UsageTracker.st_totalRequests s = Z.of_nat (List.length rows)
        /\ UsageTracker.st_successfulRequests s = how_many Router.log_success rows
        /\ UsageTracker.st_failedRequests s
           = how_many (fun log => negb (Router.log_success log)) rows
        /\ UsageTracker.st_totalRequests s
           = UsageTracker.st_successfulRequests s + UsageTracker.st_failedRequests s
        /\ UsageTracker.st_totalTokens s
           = sum_Z (List.map (fun log => match Router.log_totalTokens log with
                                         | Some t => t
                                         | None => 0
                                         end) rows)
        /\ UsageTracker.avgLatencyMs s
           = let n := how_many (fun log => negb (Z.eqb (Router.log_latencyMs log) 0))
                        rows in
             if Z.ltb 0 n then (sum_Z (List.map Router.log_latencyMs rows), n)
             else (0, 1))
  /\ sum_Z (List.map UsageTracker.st_totalRequests stats) = Z.of_nat (List.length logs).
Proof.
  intros stats. unfold stats, UsageTracker.getUsageStats.
  assert (H0 : grouped_rows groupBy [] []).
  { repeat split; try (intros; contradiction). constructor. }
  pose proof (grouped_rows_fold groupBy logs [] [] H0) as (Hnd & Hent & Hcov & Hsum).
  simpl app in *.
  set (grouped := List.fold_left
                    (fun grouped log =>
                       UsageTracker.record (UsageTracker.groupKey groupBy log) log grouped)
                    logs []) in *.
  assert (Hgroups : forall l : list (string * UsageTracker.Totals),
             List.map UsageTracker.group
               (List.map (fun '(g, stats) =>
                            {| UsageTracker.group := g;
                               UsageTracker.st_totalRequests :=
                                 UsageTracker.totalRequests stats;
                               UsageTracker.st_successfulRequests :=
                                 UsageTracker.successfulRequests stats;
                               UsageTracker.st_failedRequests :=
                                 UsageTracker.failedRequests stats;
                               UsageTracker.st_totalTokens :=
                                 UsageTracker.totalTokens stats;
                               UsageTracker.avgLatencyMs :=
                                 if Z.ltb 0 (UsageTracker.latencyCount stats)
                                 then (UsageTracker.totalLatencyMs stats,
                                       UsageTracker.latencyCount stats)
                                 else (0, 1) |}) l)
             = List.map fst l).
  { intros l. rewrite map_map. apply map_ext. now intros [g t]. }
  split; [|split; [|split]].
  - now rewrite Hgroups.
  - intros g. rewrite Hgroups. split.
    + intros Hg. apply in_map_iff in Hg as ([g' t] & <- & Hin).
      destruct (Hent g' t Hin) as [_ Hrows].
      destruct (rows_of groupBy g' logs) as [|r rs] eqn:Er; [congruence|].
      assert (Hr : In r (rows_of groupBy g' logs)) by (rewrite Er; now left).
      unfold rows_of in Hr. apply filter_In in Hr as [Hr Hk].
      exists r. split; [exact Hr|]. now apply String.eqb_eq.
    + intros (log & Hlog & <-). now apply Hcov.
  - intros s Hs. apply in_map_iff in Hs as ([g t] & <- & Hin).
    destruct (Hent g t Hin) as [-> _]. cbn.
    destruct (totals_of_counts (rows_of groupBy g logs)) as (H1 & H2 & H3 & H4 & H5 & H6).
    rewrite H1, H2, H3, H4, H5, H6. repeat split.
    unfold how_many.
    assert (Hp : forall (p : Router.UsageLogEntry -> bool) l,
               (List.length l
                = List.length (List.filter p l)
                  + List.length (List.filter (fun x => negb (p x)) l))%nat).
    { intros p l. induction l as [|x l IHl]; simpl; [reflexivity|].
      destruct (p x); simpl; lia. }
    rewrite (Hp Router.log_success). lia.
  - rewrite map_map. rewrite <- Hsum. f_equal. apply map_ext. now intros [g t].
Qed.

Lemma getUsageStats_snoc (logs : list Router.UsageLogEntry) (e : Router.UsageLogEntry)
    (groupBy : UsageTracker.GroupBy) (g : string) :
  let before := UsageTracker.getUsageStats logs groupBy in
  let after := UsageTracker.getUsageStats (logs ++ [e]) groupBy in
  if String.eqb (UsageTracker.groupKey groupBy e) g
  then count_in UsageTracker.st_totalRequests g after
       = count_in UsageTracker.st_totalRequests g before + 1
       /\ count_in UsageTracker.st_successfulRequests g after
          = count_in UsageTracker.st_successfulRequests g before
            + (if Router.log_success e then 1 else 0)
       /\ count_in UsageTracker.st_failedRequests g after
          = count_in UsageTracker.st_failedRequests g before
            + (if Router.log_success e then 0 else 1)
       /\ stats_of g after <> None
  else stats_of g after = stats_of g before.
Proof.
  cbv zeta. unfold UsageTracker.getUsageStats. rewrite fold_left_app. cbn [fold_left].
  generalize (List.fold_left
                (fun grouped log =>
                   UsageTracker.record (UsageTracker.groupKey groupBy log) log grouped)
                logs []).
  set (k := UsageTracker.groupKey groupBy e).
  intros grouped. unfold count_in, stats_of.
  induction grouped as [|[g0 t0] rest IH]; cbn.
  - destruct (String.eqb_spec k g) as [->|Hne]; cbn; rewrite ?String.eqb_refl; cbn.
    + destruct (Router.log_success e); repeat split; discriminate.
    + destruct (String.eqb_spec k g); [contradiction|reflexivity].
  - destruct (String.eqb_spec g0 k) as [->|Hne0]; cbn.
    + destruct (String.eqb_spec k g) as [->|Hne]; cbn.
      * destruct (Router.log_success e); repeat split; (lia || discriminate).
      * reflexivity.
    + destruct (String.eqb_spec g0 g) as [->|Hne1]; cbn.
      * destruct (String.eqb_spec k g) as [E|_]; [congruence|reflexivity].
      * exact IH.
Qed.

Section Booking.
Variable strategy : KeySelectionStrategy.
Variable maxRetries : Q.
Variable retryDelayMs : Q.
Variable providerConfigs : string -> option (string * Z).
Variable RegExp_test : string -> string -> option bool.
Variable startOfDay : Z -> Date.
Variable chat :
  Z -> string -> Router.ProviderRequest -> Router.ProviderConfig ->
  result Router.ChatResponse * Z.

(** X25.  Where a request shows in the usage statistics, the ids of
    the key table being distinct and none of them ["unknown"].  A
    [route] call that is served adds one successful request, and no
    failed one, to the statistics of the key that served it, and
    leaves the statistics of every other key as they were.  A call
    that fails shows nowhere: its failure row, written for the key
    ["unknown"], is refused by the usage log, so the statistics are the
    same as before, by key, by provider and by model. *)
Theorem usage_statistics_count_served_requests_only (request : Router.ChatRequest)
    (w : Router.World) (g : string) :
  List.NoDup (List.map id (keys_table (Router.stores w))) ->
  ~ In "unknown" (List.map id (keys_table (Router.stores w))) ->
  let run := Router.route strategy maxRetries retryDelayMs providerConfigs
               RegExp_test startOfDay chat request w in
  let stats groupBy world := UsageTracker.getUsageStats (Router.usage_log world) groupBy in
  let w' := snd (fst run) in
  match fst (fst run) with
  | Ok (_, metadata) =>
      let keyId := Router.meta_keyId metadata in
      count_in UsageTracker.st_successfulRequests keyId (stats UsageTracker.ByKey w')
      = count_in UsageTracker.st_successfulRequests keyId (stats UsageTracker.ByKey w) + 1
      /\ count_in UsageTracker.st_failedRequests keyId (stats UsageTracker.ByKey w')
         = count_in UsageTracker.st_failedRequests keyId (stats UsageTracker.ByKey w)
      /\ (g <> keyId ->
          stats_of g (stats UsageTracker.ByKey w') = stats_of g (stats UsageTracker.ByKey w))
  | Err _ => forall groupBy, stats groupBy w' = stats groupBy w
  end.
Proof.
  intros Hnd Hno run stats w'.
  destruct (route_unfold strategy maxRetries retryDelayMs providerConfigs RegExp_test
              startOfDay chat request w) as (x & w1 & El & _ & _ & Hx).
  fold run in El, Hx.
  destruct x as [[resp metadata]|lastError].
  - destruct Hx as [Hr Hw]. rewrite Hr. unfold w', stats. rewrite Hw.
    apply (route_loop_served strategy maxRetries retryDelayMs providerConfigs RegExp_test
             startOfDay chat) in El; [|exact Hnd].
    destruct El as (_ & Hlog & _). rewrite Hlog. cbv zeta.
    match goal with
    | |- context [(Router.usage_log w ++ [?entry])%list] => set (row := entry)
    end.
    pose proof (getUsageStats_snoc (Router.usage_log w) row UsageTracker.ByKey
                  (Router.meta_keyId metadata)) as Hk.
    pose proof (getUsageStats_snoc (Router.usage_log w) row UsageTracker.ByKey g) as Hg.
    cbv zeta in Hk, Hg.
    change (UsageTracker.groupKey UsageTracker.ByKey row)
      with (Router.meta_keyId metadata) in Hk, Hg.
    rewrite String.eqb_refl in Hk. change (Router.log_success row) with true in Hk.
    destruct Hk as (_ & Hk2 & Hk3 & _).
    split; [exact Hk2|]. split; [rewrite Hk3; lia|].
    intros Hne. destruct (String.eqb_spec (Router.meta_keyId metadata) g);
      [congruence|exact Hg].
  - destruct Hx as (Hr & row & Hw & Hkey & _). rewrite Hr. intros groupBy.
    unfold w', stats. rewrite Hw.
    destruct (route_loop_frame _ _ _ _ _ _ _ _ _ _ _ _ _ _ _ _ _ _ El)
      as [Hids (_ & Hlog & _)].
    unfold Router.logUsage. rewrite <- Hids, <- Hkey in Hno.
    destruct (usageLog_create_refused row _ (Router.usage_log w1) Hno) as [e' ->].
    now rewrite Hlog.
Qed.
End Booking.

Lemma usage_statistics_count_served_requests_only_witness :
  let stats groupBy world := UsageTracker.getUsageStats (Router.usage_log world) groupBy in
  (count_in UsageTracker.st_successfulRequests "B"
     (stats UsageTracker.ByKey (snd (fst demo_route_ok)))
   = count_in UsageTracker.st_successfulRequests "B" (stats UsageTracker.ByKey demo_world) + 1
   /\ count_in UsageTracker.st_failedRequests "B"
        (stats UsageTracker.ByKey (snd (fst demo_route_ok)))
      = count_in UsageTracker.st_failedRequests "B" (stats UsageTracker.ByKey demo_world)
   /\ ("A" <> "B" ->
       stats_of "A" (stats UsageTracker.ByKey (snd (fst demo_route_ok)))
       = stats_of "A" (stats UsageTracker.ByKey demo_world)))
  /\ (forall groupBy, stats groupBy (snd (fst demo_route)) = stats groupBy demo_world).
Proof.
  assert (Hnd : List.NoDup (List.map id (keys_table (Router.stores demo_world))))
    by (simpl; repeat constructor; simpl; intuition discriminate).
  assert (Hno : ~ In "unknown" (List.map id (keys_table (Router.stores demo_world))))
    by (simpl; intuition discriminate).
  split.
  - exact (usage_statistics_count_served_requests_only ExhaustFirst 3 1000
             demo_providerConfigs demo_RegExp_test demo_startOfDay demo_chat_ok
             demo_request demo_world "A" Hnd Hno).
  - exact (usage_statistics_count_served_requests_only ExhaustFirst 3 1000
             demo_providerConfigs demo_RegExp_test demo_startOfDay demo_chat_500
             demo_request demo_world "A" Hnd Hno).
Defined.

(** ** The key statistics *)

(** X26.  What the key statistics report as remaining quota.
    [KeyManager.getUsageStats] lists the enabled keys in table order,
    each with its own counts; [remainingQuota] is absent exactly for the
    keys without a daily limit and is [dailyLimit - usedToday]
    otherwise, not cut off at 0: it is negative exactly when the key
    has been used more often than its limit allows. *)
Theorem getUsageStats_remaining_quota (table : list ApiKeyInfo) :
  List.map (fun s => (KeyManager.stat_id s, KeyManager.stat_usedToday s,
                      KeyManager.stat_dailyLimit s))
    (KeyManager.getUsageStats table)
  = List.map (fun k => (id k, usedToday k, dailyLimit k))
      (List.filter enabled table)
  /\ List.Forall
       (fun s =>
          match KeyManager.stat_dailyLimit s with
          | Some d =>
              exists q, KeyManager.remainingQuota s = Some q
                        /\ q = d - KeyManager.stat_usedToday s
                        /\ (q < 0 <-> d < KeyManager.stat_usedToday s)
          | None => KeyManager.remainingQuota s = None
          end)
       (KeyManager.getUsageStats table).
Proof.
  unfold KeyManager.getUsageStats, Prisma.findMany_where.
  assert (Hf : forall k, Prisma.matches
                           {| Prisma.where_enabled := Some true;
                              Prisma.where_provider := None;
                              Prisma.where_priority := None |} k = enabled k).
  { intros k. unfold Prisma.matches. simpl. rewrite !andb_true_r.
    now destruct (enabled k). }
  split.
  - rewrite map_map. simpl. erewrite filter_ext; [reflexivity|exact Hf].
  - apply List.Forall_forall. intros s Hs. apply in_map_iff in Hs as (k & <- & Hk).
    simpl. destruct (dailyLimit k) as [d|]; [|reflexivity].
    eexists. split; [reflexivity|]. split; [reflexivity|]. lia.
Qed.

(** ** Retries under exhaust-first *)

Lemma select_from_groups_exhaust_first (groups : list (Z * list ApiKeyInfo))
    (s s' : gmap string Redis.entry) :
  fst (KeyManager.select_from_groups ExhaustFirst groups s)
  = fst (KeyManager.select_from_groups ExhaustFirst groups s')
  /\ snd (KeyManager.select_from_groups ExhaustFirst groups s) = s.
Proof.
  revert s s'. induction groups as [|[prio ks] rest IH]; intros s s'; simpl; [auto|].
  destruct ks as [|k ks]; simpl.
  - apply IH.
  - destruct (KeyManager.selectExhaustFirst (k :: ks)); simpl; [auto|apply IH].
Qed.

Lemma resetDailyUsageIfNeeded_fresh (keys : list ApiKeyInfo) (today : Date)
    (table : list ApiKeyInfo) :
  (forall k, In k keys -> KeyManager.stale today k = false) ->
  KeyManager.resetDailyUsageIfNeeded keys today table = (keys, table).
Proof.
  intros H. unfold KeyManager.resetDailyUsageIfNeeded.
  assert (Hf : List.filter (KeyManager.stale today) keys = []).
  { induction keys as [|k keys IH]; simpl; [reflexivity|].
    rewrite (H k) by now left. apply IH. intros k' Hk'. apply H. now right. }
  rewrite Hf. simpl. f_equal.
  rewrite <- (map_id keys) at 2. apply map_ext_in. intros k Hk. now rewrite (H k Hk).
Qed.

Lemma selectKey_exhaust_first_fresh (context : RoutingContext) (today today' : Date)
    (st st' : Stores) :
  keys_table st' = keys_table st ->
  (forall k, In k (keys_table st) -> KeyManager.stale today k = false) ->
  (forall k, In k (keys_table st) -> KeyManager.stale today' k = false) ->
  fst (KeyManager.selectKey ExhaustFirst context today st)
  = fst (KeyManager.selectKey ExhaustFirst context today' st')
  /\ keys_table (snd (KeyManager.selectKey ExhaustFirst context today st)) = keys_table st.
Proof.
  intros Ht H H'. unfold KeyManager.selectKey. rewrite Ht.
  destruct (Prisma.findMany (KeyManager.whereConditions context) (keys_table st))
    as [|k0 listing] eqn:El; [split; [reflexivity|reflexivity]|].
  assert (Hin : forall k, In k (k0 :: listing) -> In k (keys_table st)).
  { intros k Hk. rewrite <- El in Hk. now apply findMany_In in Hk as [Hk _]. }
  rewrite !resetDailyUsageIfNeeded_fresh by (intros k Hk; auto).
  destruct (KeyManager.filterEligibleKeys (k0 :: listing) (requestedModel context))
    as [|e0 el]; [split; reflexivity|].
  cbn [redis keys_table].
  destruct (select_from_groups_exhaust_first
              (KeyManager.groupKeysByPriority (e0 :: el)) (redis st) (redis st'))
    as [H1 H2].
  destruct (KeyManager.select_from_groups ExhaustFirst
              (KeyManager.groupKeysByPriority (e0 :: el)) (redis st)) as [[k|] r];
    destruct (KeyManager.select_from_groups ExhaustFirst
                (KeyManager.groupKeysByPriority (e0 :: el)) (redis st')) as [[k'|] r'];
    cbn [fst snd] in *; try discriminate; split; try reflexivity.
  now injection H1 as ->.
Qed.

Section ExhaustFirstRetries.
Variable maxRetries : Q.
Variable retryDelayMs : Q.
Variable providerConfigs : string -> option (string * Z).
Variable RegExp_test : string -> string -> option bool.
Variable startOfDay : Z -> Date.
Variable chat :
  Z -> string -> Router.ProviderRequest -> Router.ProviderConfig ->
  result Router.ChatResponse * Z.

Let route_loop :=
  Router.route_loop ExhaustFirst maxRetries retryDelayMs providerConfigs
    RegExp_test startOfDay chat.
Let try_attempt :=
  Router.try_attempt ExhaustFirst providerConfigs RegExp_test startOfDay chat.

Lemma fresh_not_stale (table : list ApiKeyInfo) (lo hi t : Z) (k : ApiKeyInfo) :
  fresh_during startOfDay table lo hi -> lo <= t <= hi -> In k table ->
  KeyManager.stale (startOfDay t) k = false.
Proof. intros H Ht Hk. unfold KeyManager.stale. apply Z.ltb_ge. now apply (H t k). Qed.

Lemma selectKey_first_choice (context : RoutingContext) (w : Router.World) (lo hi : Z) :
  fresh_during startOfDay (keys_table (Router.stores w)) lo hi ->
  lo <= Router.now w <= hi ->
  fst (KeyManager.selectKey ExhaustFirst context (startOfDay (Router.now w))
         (Router.stores w))
  = first_choice (startOfDay lo) context (keys_table (Router.stores w))
  /\ keys_table (snd (KeyManager.selectKey ExhaustFirst context
                        (startOfDay (Router.now w)) (Router.stores w)))
     = keys_table (Router.stores w).
Proof.
  intros Hf Hw. unfold first_choice.
  apply selectKey_exhaust_first_fresh; [reflexivity| |];
    intros k Hk; apply (fresh_not_stale (keys_table (Router.stores w)) lo hi); auto; lia.
Qed.

Lemma try_attempt_first (request : Router.ChatRequest) (reqId : string)
    (startTime i : Z) (attempted attempted' : gset string) (w w1 : Router.World)
    (e : Error) (lo hi : Z) :
  fresh_during startOfDay (keys_table (Router.stores w)) lo hi ->
  lo <= Router.now w <= hi ->
  try_attempt request reqId startTime i attempted w = (Err e, attempted', w1) ->
  keys_table (Router.stores w1) = keys_table (Router.stores w)
  /\ blocked (startOfDay lo) (Router.context_of request) attempted'
       (keys_table (Router.stores w)).
Proof.
  intros Hf Hw. unfold try_attempt, Router.try_attempt, Router.selectKeyWithFallback.
  pose proof (selectKey_first_choice (Router.context_of request) w lo hi Hf Hw) as [Hc Ht].
  clear Hf Hw. unfold blocked. rewrite <- Hc.
  destruct (KeyManager.selectKey ExhaustFirst (Router.context_of request)
              (startOfDay (Router.now w)) (Router.stores w)) as [[sel|e0] st].
  - cbn [fst snd] in *. destruct (decide (id (key sel) ∈ attempted)).
    + intros [= <- <- <-]. split; [exact Ht|assumption].
    + assert (Hin : id (key sel) ∈ ({[id (key sel)]} ∪ attempted : gset string))
        by set_solver.
      destruct (Providers.getProviderAdapter RegExp_test (provider (key sel))) as [adapter|].
      * destruct (Providers.validateModel adapter (resolvedModel sel)) as [[|]|].
        -- destruct (Router.buildProviderConfig providerConfigs (key sel)) as [cfg|e1].
           ++ destruct (chat i (provider (key sel)) _ cfg) as [[resp|e2] elapsed].
              ** discriminate.
              ** intros [= <- <- <-]. split; [exact Ht|exact Hin].
           ++ intros [= <- <- <-]. split; [exact Ht|exact Hin].
        -- intros [= <- <- <-]. split; [exact Ht|exact Hin].
        -- intros [= <- <- <-]. split; [exact Ht|exact Hin].
      * intros [= <- <- <-]. split; [exact Ht|exact Hin].
  - cbn [fst snd] in *. intros [= <- <- <-]. split; [exact Ht|exact I].
Qed.

Lemma try_attempt_blocked (request : Router.ChatRequest) (reqId : string)
    (startTime i : Z) (attempted : gset string) (w : Router.World) (lo hi : Z) :
  fresh_during startOfDay (keys_table (Router.stores w)) lo hi ->
  lo <= Router.now w <= hi ->
  blocked (startOfDay lo) (Router.context_of request) attempted
    (keys_table (Router.stores w)) ->
  exists e w1,
    try_attempt request reqId startTime i attempted w = (Err e, attempted, w1)
    /\ ended_in_selection (Router.context_of request)
         (Router.EvAttempt i (Router.Failed e))
    /\ Router.isNonRetryableError e = false
    /\ keys_table (Router.stores w1) = keys_table (Router.stores w)
    /\ Router.now w1 = Router.now w.
Proof.
  intros Hf Hw. unfold try_attempt, Router.try_attempt, Router.selectKeyWithFallback.
  pose proof (selectKey_first_choice (Router.context_of request) w lo hi Hf Hw) as [Hc Ht].
  unfold blocked. rewrite <- Hc.
  destruct (KeyManager.selectKey ExhaustFirst (Router.context_of request)
              (startOfDay (Router.now w)) (Router.stores w)) as [[sel|e0] st] eqn:Es.
  - cbn [fst snd] in *. intros Hin.
    destruct (decide (id (key sel) ∈ attempted)); [|contradiction].
    eexists _, _. split; [reflexivity|].
    split; [|split; [reflexivity|split; [exact Ht|reflexivity]]].
    right. now exists (provider (key sel)).
  - cbn [fst snd] in *. intros _.
    assert (He : e0 = KeyManager.no_eligible_key (Router.context_of request)).
    { destruct (eligible_keys (Router.context_of request) (startOfDay (Router.now w))
                  (Router.stores w)) as [|k0 l] eqn:Ee.
      - pose proof (selectKey_no_eligible ExhaustFirst _ _ _ Ee) as H.
        rewrite Es in H. now injection H.
      - assert (Hne : eligible_keys (Router.context_of request)
                        (startOfDay (Router.now w)) (Router.stores w) <> [])
          by (rewrite Ee; discriminate).
        pose proof (selectKey_unfold ExhaustFirst _ _ _ Hne) as H. cbv zeta in H.
        rewrite Es in H.
        destruct (KeyManager.select_from_groups ExhaustFirst _ (redis (Router.stores w)))
          as [[k|] r]; [discriminate|]. now injection H. }
    subst e0. eexists _, _. split; [reflexivity|].
    split; [left; reflexivity|]. split; [reflexivity|split; [exact Ht|reflexivity]].
Qed.

Lemma route_loop_blocked (request : Router.ChatRequest) (reqId : string)
    (startTime : Z) (left : nat) (i : Z) (attempted : gset string)
    (lastError : option Error) (w : Router.World) (lo hi : Z) :
  (forall a p q c, 0 <= snd (chat a p q c)) ->
  let run := route_loop request reqId startTime left i attempted lastError w in
  fresh_during startOfDay (keys_table (Router.stores w)) lo hi ->
  lo <= Router.now w -> Router.now (snd (fst run)) <= hi ->
  blocked (startOfDay lo) (Router.context_of request) attempted
    (keys_table (Router.stores w)) ->
  (exists le, fst (fst run) = Router.Fell le)
  /\ List.Forall (ended_in_selection (Router.context_of request)) (snd run)
  /\ keys_table (Router.stores (snd (fst run))) = keys_table (Router.stores w).
Proof.
  intros Hchat. revert i attempted lastError w.
  induction left as [|left IH]; intros i attempted lastError w; cbn zeta.
  - simpl. intros _ _ _ _. split; [now eexists|]. split; [constructor|reflexivity].
  - intros Hf Hlo Hhi Hb.
    destruct (route_loop request reqId startTime (S left) i attempted lastError w)
      as [[x0 w0] tr0] eqn:Erun.
    pose proof (route_loop_later ExhaustFirst maxRetries retryDelayMs providerConfigs
                  RegExp_test startOfDay chat _ _ _ _ _ _ _ _ _ _ _ Hchat Erun) as Hlater.
    cbn [fst snd] in Hhi.
    revert Erun. unfold route_loop. cbn [Router.route_loop]. fold try_attempt.
    destruct (try_attempt_blocked request reqId startTime i attempted w lo hi Hf
                ltac:(lia) Hb)
      as (e & w1 & -> & Hev & -> & Ht & Hn1).
    destruct (Js.ltQ (inject_Z i) (maxRetries - 1)).
    + specialize (IH (i + 1) attempted (Some e)
                    (Router.sleep (retryDelayMs * inject_Z (2 ^ i)) w1)).
      cbn zeta in IH. unfold route_loop in IH.
      destruct (Router.route_loop ExhaustFirst maxRetries retryDelayMs providerConfigs
                  RegExp_test startOfDay chat request reqId startTime left (i + 1)
                  attempted (Some e) (Router.sleep (retryDelayMs * inject_Z (2 ^ i)) w1))
        as [[x w2] tr].
      intros [= <- <- <-].
      cbn [fst snd] in *. simpl keys_table in IH. rewrite Ht in IH.
      destruct (sleep_world (retryDelayMs * inject_Z (2 ^ i)) w1) as [Sn _].
      pose proof (setTimeout_delay_pos (retryDelayMs * inject_Z (2 ^ i))) as Hpos.
      destruct (IH Hf ltac:(lia) Hhi Hb) as (H1 & H2 & H3).
      split; [exact H1|]. split; [|exact H3].
      constructor; [exact Hev|]. constructor; [exact I|exact H2].
    + specialize (IH (i + 1) attempted (Some e) w1).
      cbn zeta in IH. unfold route_loop in IH.
      destruct (Router.route_loop ExhaustFirst maxRetries retryDelayMs providerConfigs
                  RegExp_test startOfDay chat request reqId startTime left (i + 1)
                  attempted (Some e) w1)
        as [[x w2] tr].
      intros [= <- <- <-].
      cbn [fst snd] in *. rewrite Ht in IH.
      destruct (IH Hf ltac:(lia) Hhi Hb) as (H1 & H2 & H3).
      split; [exact H1|]. split; [|exact H3].
      constructor; [exact Hev|exact H2].
Qed.

Lemma route_loop_first (request : Router.ChatRequest) (reqId : string)
    (startTime : Z) (left : nat) (i : Z) (attempted : gset string)
    (lastError : option Error) (w w1 : Router.World) (x : Router.LoopExit)
    (tr : list Router.Event) :
  (forall a p q c, 0 <= snd (chat a p q c)) ->
  fresh_during startOfDay (keys_table (Router.stores w)) (Router.now w) (Router.now w1) ->
  route_loop request reqId startTime (S left) i attempted lastError w = (x, w1, tr) ->
  exists first rest,
    tr = first :: rest
    /\ List.Forall (ended_in_selection (Router.context_of request)) rest
    /\ match x with
       | Router.Returned _ => first = Router.EvAttempt i Router.Succeeded /\ rest = []
       | Router.Fell _ => keys_table (Router.stores w1) = keys_table (Router.stores w)
       end.
Proof.
  intros Hchat Hf Erun.
  pose proof (route_loop_later ExhaustFirst maxRetries retryDelayMs providerConfigs
                  RegExp_test startOfDay chat _ _ _ _ _ _ _ _ _ _ _ Hchat Erun) as Hlater.
  revert Erun. unfold route_loop. cbn [Router.route_loop]. fold try_attempt.
  destruct (try_attempt request reqId startTime i attempted w)
    as [[[r|e] attempted'] w0] eqn:Et.
  - intros [= <- <- <-]. eexists _, _. split; [reflexivity|]. split; [constructor|auto].
  - pose proof (try_attempt_later ExhaustFirst providerConfigs RegExp_test startOfDay chat
                  _ _ _ _ _ _ _ _ _ Hchat Et) as Hn0.
    apply (try_attempt_first _ _ _ _ _ _ _ _ _ (Router.now w) (Router.now w1)) in Et
      as [Ht Hb]; [|exact Hf|lia].
    destruct (Router.isNonRetryableError e).
    + intros [= <- <- <-]. eexists _, _. split; [reflexivity|].
      split; [constructor|exact Ht].
    + destruct (Js.ltQ (inject_Z i) (maxRetries - 1)).
      * pose proof (route_loop_blocked request reqId startTime left (i + 1) attempted'
                      (Some e) (Router.sleep (retryDelayMs * inject_Z (2 ^ i)) w0)
                      (Router.now w) (Router.now w1) Hchat) as H.
        cbn zeta in H. unfold route_loop in H.
        destruct (Router.route_loop ExhaustFirst maxRetries retryDelayMs providerConfigs
                    RegExp_test startOfDay chat request reqId startTime left (i + 1)
                    attempted' (Some e) (Router.sleep (retryDelayMs * inject_Z (2 ^ i)) w0))
          as [[x2 w2] tr2].
        intros [= <- <- <-].
        cbn [fst snd] in H. simpl keys_table in H. rewrite Ht in H.
        destruct (sleep_world (retryDelayMs * inject_Z (2 ^ i)) w0) as [Sn _].
        pose proof (setTimeout_delay_pos (retryDelayMs * inject_Z (2 ^ i))) as Hpos.
        destruct (H Hf ltac:(lia) ltac:(lia) Hb) as ((le & ->) & H2 & H3).
        eexists _, _. split; [reflexivity|].
        split; [constructor; [exact I|exact H2]|exact H3].
      * pose proof (route_loop_blocked request reqId startTime left (i + 1) attempted'
                      (Some e) w0 (Router.now w) (Router.now w1) Hchat) as H.
        cbn zeta in H. unfold route_loop in H.
        destruct (Router.route_loop ExhaustFirst maxRetries retryDelayMs providerConfigs
                    RegExp_test startOfDay chat request reqId startTime left (i + 1)
                    attempted' (Some e) w0)
          as [[x2 w2] tr2].
        intros [= <- <- <-].
        cbn [fst snd] in H. rewrite Ht in H.
        destruct (H Hf ltac:(lia) ltac:(lia) Hb) as ((le & ->) & H2 & H3).
        eexists _, _. split; [reflexivity|].
        split; [exact H2|exact H3].
Qed.

(** X27.  Under exhaust-first the retry loop of [route] does not reach
    a second key.  When no provider call takes a negative time and no
    row of the key table is due for its daily reset at any instant from
    the start of the call to its end, only the first attempt can get as
    far as a provider: exhaust-first selects from the same table the
    same key again (the query listing an unchanged table in the same
    order), so every later attempt ends in the selection, with "Key
    already attempted" (or with the no-eligible-key error of the first
    attempt), after the usual sleeps.  So a call succeeds at its first
    attempt or not at all, and a failed call leaves the key table as
    it was. *)
Theorem exhaust_first_retries_reach_no_other_key (request : Router.ChatRequest)
    (w : Router.World) :
  (forall a p q c, 0 <= snd (chat a p q c)) ->
  let run := Router.route ExhaustFirst maxRetries retryDelayMs providerConfigs
               RegExp_test startOfDay chat request w in
  fresh_during startOfDay (keys_table (Router.stores w))
    (Router.now w) (Router.now (snd (fst run))) ->
  match snd run with
  | [] => True
  | first :: rest =>
      List.Forall (ended_in_selection (Router.context_of request)) rest
      /\ match fst (fst run) with
         | Ok _ => first = Router.EvAttempt 0 Router.Succeeded /\ rest = []
         | Err _ => keys_table (Router.stores (snd (fst run)))
                    = keys_table (Router.stores w)
         end
  end.
Proof.
  intros Hchat run Hf.
  destruct (route_unfold ExhaustFirst maxRetries retryDelayMs providerConfigs RegExp_test
              startOfDay chat request w) as (x & w1 & El & Hnow & Hst & Hx).
  fold run in El, Hnow, Hst, Hx. rewrite Hnow in Hf.
  destruct (Z.to_nat (Qceiling maxRetries)) as [|left].
  - simpl in El. injection El as _ _ <-. exact I.
  - apply route_loop_first in El as (first & rest & Htr & Hrest & Hfirst);
      [|exact Hchat|exact Hf].
    rewrite Htr. split; [exact Hrest|].
    destruct x as [r|lastError].
    + destruct Hx as [-> _]. exact Hfirst.
    + destruct Hx as [-> _]. rewrite Hst. exact Hfirst.
Qed.
End ExhaustFirstRetries.

Lemma exhaust_first_retries_reach_no_other_key_witness :
  match snd demo_route with
  | [] => True
  | first :: rest =>
      List.Forall (ended_in_selection (Router.context_of demo_request)) rest
      /\ match fst (fst demo_route) with
         | Ok _ => first = Router.EvAttempt 0 Router.Succeeded /\ rest = []
         | Err _ => keys_table (Router.stores (snd (fst demo_route)))
                    = keys_table (Router.stores demo_world)
         end
  end.
Proof.
  apply (exhaust_first_retries_reach_no_other_key 3 1000 demo_providerConfigs
           demo_RegExp_test demo_startOfDay demo_chat_500 demo_request demo_world).
  - intros a p q c. simpl. lia.
  - assert (E : Router.now (snd (fst (Router.route ExhaustFirst 3 1000 demo_providerConfigs
                                        demo_RegExp_test demo_startOfDay demo_chat_500
                                        demo_request demo_world))) = 4025)
      by (vm_compute; reflexivity).
    rewrite E. intros t k Ht Hk. simpl in Ht. unfold demo_startOfDay.
    rewrite Z.mod_small by lia.
    destruct Hk as [<-|[<-|[]]]; simpl; lia.
Defined.

(** ** [selectKey] against the candidate set as stated *)

(** X28.  In the contexts where the requested provider and the
    provider allow-list do not contradict each other (no provider is
    requested, or there is no allow-list, or the requested provider is
    on it), [selectKey] does what the specification says of it.  It
    fails exactly when the candidate set is empty after the four steps
    stated there (the query on enabled, providers and priorities, the
    lazy reset, the quota filter, the model filter); a selection it
    returns is a key of that set; and every failure is the error
    [NoEligibleKey], code NO_ELIGIBLE_KEY and status 429.  Under
    round-robin this needs the counters to be what [INCR] makes them,
    never negative. *)
Theorem selectKey_fails_exactly_without_stated_candidate
    (strategy : KeySelectionStrategy) (context : RoutingContext)
    (today : Date) (st : Stores) :
  provider_on_allow_list context ->
  (strategy = RoundRobin -> counters_nonneg (redis st)) ->
  let outcome := fst (KeyManager.selectKey strategy context today st) in
  ((forall k, ~ stated_candidate context today (keys_table st) k)
   <-> exists e, outcome = Err e)
  /\ (forall sel, outcome = Ok sel ->
        stated_candidate context today (keys_table st) (key sel))
  /\ (forall e, outcome = Err e ->
        e = GatewayError
              (NoEligibleKeyError (requestedModel context) (Some (requestedProvider context)))
        /\ exists g, e = GatewayError g /\ code g = "NO_ELIGIBLE_KEY" /\ statusCode g = 429).
Proof.
  intros Hagree Hs outcome.
  assert (Hdec : eligible_keys context today st = [] \/ eligible_keys context today st <> [])
    by (destruct (eligible_keys context today st); [now left|now right]).
  assert (Hnone : eligible_keys context today st = [] ->
                  outcome = Err (KeyManager.no_eligible_key context))
    by apply selectKey_no_eligible.
  assert (Hsome : eligible_keys context today st <> [] ->
                  exists sel, outcome = Ok sel /\ In (key sel) (eligible_keys context today st)).
  { intros Hne. destruct (selectKey_some_eligible strategy context today st Hs Hne)
      as (k & Hk & Hin).
    eexists. split; [exact Hk|exact Hin]. }
  split; [|split].
  - split.
    + intros Hempty. destruct Hdec as [Hd|Hd]; [eexists; now apply Hnone|].
      exfalso. destruct (eligible_keys context today st) as [|k l] eqn:E; [congruence|].
      apply (Hempty k). apply eligible_keys_stated; [exact Hagree|].
      rewrite E. now left.
    + intros [e He] k Hk. apply eligible_keys_stated in Hk; [|exact Hagree].
      destruct Hdec as [Hd|Hd]; [rewrite Hd in Hk; exact Hk|].
      destruct (Hsome Hd) as (sel & Hsel & _). congruence.
  - intros sel Hsel. apply eligible_keys_stated; [exact Hagree|].
    destruct Hdec as [Hd|Hd]; [rewrite (Hnone Hd) in Hsel; discriminate|].
    destruct (Hsome Hd) as (sel' & Hsel' & Hin). congruence.
  - intros e He. destruct Hdec as [Hd|Hd].
    + rewrite (Hnone Hd) in He. injection He as <-.
      split; [reflexivity|]. eexists. split; [reflexivity|]. split; reflexivity.
    + destruct (Hsome Hd) as (sel & Hsel & _). congruence.
Qed.

Lemma selectKey_fails_exactly_without_stated_candidate_witness :
  let outcome := fst (KeyManager.selectKey RoundRobin context_auto 1000 stores_AB) in
  ((forall k, ~ stated_candidate context_auto 1000 (keys_table stores_AB) k)
   <-> exists e, outcome = Err e)
  /\ (forall sel, outcome = Ok sel ->
        stated_candidate context_auto 1000 (keys_table stores_AB) (key sel))
  /\ (forall e, outcome = Err e ->
        e = GatewayError
              (NoEligibleKeyError (requestedModel context_auto)
                 (Some (requestedProvider context_auto)))
        /\ exists g, e = GatewayError g /\ code g = "NO_ELIGIBLE_KEY" /\ statusCode g = 429).
Proof.
  apply (selectKey_fails_exactly_without_stated_candidate RoundRobin context_auto 1000
           stores_AB).
  - left. reflexivity.
  - intros _. exact counters_nonneg_empty.
Defined.
